(** * Osprey: rule engine, typology engine, decision processor and HTTP handlers

    A shallow embedding of the Go sources
      - package domain  (rule.go, typology.go, evaluation.go, config.go)
      - package rules   (the rule engine and the typology engine)
      - package tadp    (tadp.go, the decision processor)
      - package api     (handler.go, server.go)
    followed by the properties the specification states about them.

    Conventions of the embedding.
      - In the embedding of the packages [float64] is read as an exact
        rational ([Qc], the canonical rationals); NaN and the infinities are
        outside the model. The properties stated on this reading are about
        control flow and comparisons of numbers the program has computed.
        The two loops that accumulate scores ([tadp.aggregate] and
        [rules.evaluateTypology]) are embedded a second time, in module
        [scoring], over an arbitrary arithmetic ([f64.Arith]): what is proved
        there holds with the rounding of IEEE 754 binary64 as well as without,
        and the properties of the numeric results are stated there.
      - A Go [map[string]T] is a [gmap string T]; ranging over a map visits
        [map_to_list] order (Go leaves the order unspecified).
      - A pointer receiver that is mutated becomes explicit state passing:
        the method returns the new receiver.
      - An [error] result is [option string] ([None] is Go's [nil]).
      - Wall-clock readings (timestamps, elapsed milliseconds) are left out of
        the records; identifiers drawn from [uuid.New] are passed in.
      - The CEL library is external: its environment is a record of the two
        operations the engine calls on it. *)

From Stdlib Require Import QArith Qcanon Lia.
From Stdlib Require PrimFloat FloatOps FloatAxioms SpecFloat.
From stdpp Require Import base option list strings numbers gmap fin_maps.

Set Warnings "-register-all".

Local Open Scope Qc_scope.

(** ** float64 *)

Abbreviation float64 := Qc.

Definition f64_le (x y : float64) : bool := Qle_bool x y.
Definition f64_lt (x y : float64) : bool := negb (Qle_bool y x).
Definition f64_ge (x y : float64) : bool := f64_le y x.
Definition f64_gt (x y : float64) : bool := f64_lt y x.
Definition f64_eq (x y : float64) : bool := Qeq_bool x y.

(** Sum of [f] over a list, the mathematical [Σ]. *)
Fixpoint f64_sum {A : Type} (f : A → float64) (l : list A) : float64 :=
  match l with
  | [] => 0
  | x :: l' => f x + f64_sum f l'
  end.

(** ** float64 arithmetic as a parameter

    The constants, operations and comparisons the scoring loops use. Nothing
    is assumed of the operations: an instance may round. *)

Module f64.

Record Arith : Type := mkArith {
  num : Type;
  zero : num;
  one : num;
  add : num → num → num;
  mul : num → num → num;
  div : num → num → num;
  le : num → num → bool;
  lt : num → num → bool
}.

Arguments zero {A} : rename.
Arguments one {A} : rename.
Arguments add {A} _ _ : rename.
Arguments mul {A} _ _ : rename.
Arguments div {A} _ _ : rename.
Arguments le {A} _ _ : rename.
Arguments lt {A} _ _ : rename.

(** Go's [x >= y] and [x > y]. *)
Definition ge {A : Arith} (x y : num A) : bool := le y x.
Definition gt {A : Arith} (x y : num A) : bool := lt y x.

(** The value of [total] after [total := 0.0; for x in l { total += f x }]:
    the terms are added one at a time, from the left. *)
Definition sum {A : Arith} {X : Type} (f : X → num A) (l : list X) : num A :=
  fold_left (λ total x, add total (f x)) l zero.

(** What the properties use of the comparisons with zero. Both instances
    below satisfy these laws ([exact_laws], [binary64_laws]); the last law
    holds of a rounded sum because the sum of a number that is not negative
    and a positive number [x] is at least [x] before rounding, and rounding
    is monotone and leaves [x] in place. *)
Record Laws (A : Arith) : Prop := mkLaws {
  le_zero_zero : le (zero : num A) zero = true;
  lt_zero_one : lt (zero : num A) one = true;
  lt_zero_le : ∀ x : num A, lt zero x = true → le zero x = true;
  lt_zero_not_le : ∀ x : num A, lt zero x = true → le x zero = false;
  add_pos : ∀ total x : num A,
    le zero total = true → lt zero x = true → lt zero (add total x) = true
}.

(** The arithmetic of the rest of the embedding: no rounding. *)
Definition exact : Arith :=
  {| num := float64; zero := 0; one := 1;
     add := Qcplus; mul := Qcmult; div := Qcdiv;
     le := f64_le; lt := f64_lt |}.

(** IEEE 754 binary64, rounding to nearest even: Go's [float64], one
    rounding per operation. (Go allows a compiler to fuse [x*y + z] into one
    rounding; the gc compiler does so on some architectures, not on amd64.) *)
Definition binary64 : Arith :=
  {| num := PrimFloat.float; zero := PrimFloat.zero; one := PrimFloat.one;
     add := PrimFloat.add; mul := PrimFloat.mul; div := PrimFloat.div;
     le := PrimFloat.leb; lt := PrimFloat.ltb |}.

End f64.

(** ** package domain *)

Module domain.

(** rule.go *)
Definition RuleOutcomePass : string := ".pass".
Definition RuleOutcomeFail : string := ".fail".
Definition RuleOutcomeReview : string := ".review".
Definition RuleOutcomeError : string := ".err".

Module RuleBand.
Record t : Type := mk {
  LowerLimit : option float64;
  UpperLimit : option float64;
  SubRuleRef : string;
  Reason : string
}.
End RuleBand.

Module RuleConfig.
Record t : Type := mk {
  ID : string;
  TenantID : string;
  Name : string;
  Description : string;
  Version : string;
  Expression : string;
  Bands : list RuleBand.t;
  Weight : float64;
  Enabled : bool
}.
End RuleConfig.

Module RuleResult.
Record t : Type := mk {
  RuleID : string;
  TenantID : string;
  TxID : string;
  SubRuleRef : string;
  Score : float64;
  Reason : string;
  Weight : float64
}.
End RuleResult.

(** typology.go *)
Module TypologyRuleWeight.
Record t : Type := mk {
  RuleID : string;
  Weight : float64
}.
End TypologyRuleWeight.

Module Typology.
Record t : Type := mk {
  ID : string;
  TenantID : string;
  Name : string;
  Description : string;
  Version : string;
  Rules : list TypologyRuleWeight.t;
  AlertThreshold : float64;
  Enabled : bool
}.
End Typology.

Module RuleContribution.
Record t : Type := mk {
  RuleID : string;
  RuleScore : float64;
  Weight : float64;
  Contribution : float64
}.
End RuleContribution.

(** evaluation.go *)
Module TypologyResult.
Record t : Type := mk {
  TypologyID : string;
  TypologyName : string;
  Score : float64;
  Threshold : float64;
  Triggered : bool;
  Rules : list RuleResult.t;
  Contributions : list RuleContribution.t
}.
End TypologyResult.

Module EvaluationMetadata.
Record t : Type := mk {
  TraceID : string;
  RulesEvaluated : nat;
  TypologiesEvaluated : nat;
  EngineVersion : string
}.
End EvaluationMetadata.

Definition StatusAlert : string := "ALRT".
Definition StatusNoAlert : string := "NALT".

Module Evaluation.
Record t : Type := mk {
  ID : string;
  TenantID : string;
  TxID : string;
  Status : string;
  Score : float64;
  RuleResults : list RuleResult.t;
  TypologyResults : list TypologyResult.t;
  Metadata : EvaluationMetadata.t
}.
End Evaluation.

(** The API-friendly statuses and [Evaluation.ToResponse]. *)
Definition StatusPass : string := "PASS".
Definition StatusFail : string := "ALERT".

Module EvaluationResponse.
Record t : Type := mk {
  EvaluationID : string;
  TxID : string;
  TenantID : string;
  Status : string;
  Score : float64;
  Reasons : list string;
  Metadata : EvaluationMetadata.t
}.
End EvaluationResponse.

Definition ToResponse (e : Evaluation.t) : EvaluationResponse.t :=
  let status :=
    if String.eqb (Evaluation.Status e) StatusAlert then StatusFail else StatusPass in
  let reasons :=
    omap (λ r, if String.eqb (RuleResult.SubRuleRef r) RuleOutcomeFail
                  || String.eqb (RuleResult.SubRuleRef r) RuleOutcomeReview
               then Some (RuleResult.Reason r) else None)
         (Evaluation.RuleResults e) in
  {| EvaluationResponse.EvaluationID := Evaluation.ID e;
     EvaluationResponse.TxID := Evaluation.TxID e;
     EvaluationResponse.TenantID := Evaluation.TenantID e;
     EvaluationResponse.Status := status;
     EvaluationResponse.Score := Evaluation.Score e;
     EvaluationResponse.Reasons := reasons;
     EvaluationResponse.Metadata := Evaluation.Metadata e |}.

(** config.go *)
Inductive EvaluationMode : Type :=
  | ModeDetection
  | ModeCompliance.

End domain.

Import domain.


(** ** The CEL library, as far as the engine uses it *)

Module cel.

(** Output types of a checked expression. *)
Inductive Type_ : Type :=
| BoolType
| DoubleType
| IntType
| StringType
| DynType.

(** The name a type prints as ([Type.String]). *)
Definition typeName (ty : Type_) : string :=
  match ty with
  | BoolType => "bool"
  | DoubleType => "double"
  | IntType => "int"
  | StringType => "string"
  | DynType => "dyn"
  end.

(** [ref.Val]: what a program evaluates to. *)
Inductive Val : Type :=
| VBool (b : bool)
| VDouble (d : float64)
| VInt (i : Z)
| VString (s : string)
| VOther.

(** Go's [any], for the values bound in an activation. *)
Inductive any : Type :=
| AString (s : string)
| AInt (i : Z)
| ADouble (d : float64)
| ABool (b : bool)
| AMap (m : list (string * any)).

(** [cel.Program]: evaluation of an activation gives a value or an error. *)
Definition Program : Type := gmap string any → sum Val string.

Record Ast : Type := mkAst {
  OutputType : Type_;
  Source : string
}.

(** [cel.Env]: [Compile] checks an expression, [MkProgram] plans it. *)
Record Env : Type := mkEnv {
  Compile : string → sum Ast string;
  MkProgram : Ast → sum Program string
}.

End cel.

(** ** package rules *)

Module rules.

Record CompiledRule : Type := mkCompiledRule {
  Config : RuleConfig.t;
  Program : cel.Program
}.

(** [VelocityGetter(ctx, tenantID, entityID, windowSecs) (int64, error)]. The
    getter is read as a function of its arguments: the store it counts in
    (in the server, the transactions of the repository) is not part of the
    embedding, so what is stated about an evaluation takes the answer of the
    getter as given, and nothing is stated that compares the counts seen by
    two evaluations. *)
Definition VelocityGetter : Type := string → string → Z → sum Z string.

Record Engine : Type := mkEngine {
  env : cel.Env;
  compiledRules : gmap string CompiledRule;
  velocityGetter : option VelocityGetter;
  maxWorkers : Z
}.

Definition with_compiledRules (e : Engine) (m : gmap string CompiledRule) : Engine :=
  {| env := env e; compiledRules := m;
     velocityGetter := velocityGetter e; maxWorkers := maxWorkers e |}.

(** [NewEngine]; the CEL environment it builds is passed in. *)
Definition NewEngine (celEnv : cel.Env) (getter : option VelocityGetter)
    (workers : Z) : Engine :=
  let workers := if (workers <=? 0)%Z then 10%Z else workers in
  {| env := celEnv; compiledRules := ∅;
     velocityGetter := getter; maxWorkers := workers |}.

Definition allowed_output (ty : cel.Type_) : bool :=
  match ty with
  | cel.BoolType | cel.DoubleType | cel.IntType => true
  | _ => false
  end.

Definition compileRule (e : Engine) (cfg : RuleConfig.t) : sum CompiledRule string :=
  match cel.Compile (env e) (RuleConfig.Expression cfg) with
  | inr issues =>
      inr ("failed to compile rule " +:+ RuleConfig.ID cfg +:+ ": " +:+ issues)
  | inl ast =>
      if negb (allowed_output (cel.OutputType ast)) then
        inr ("rule " +:+ RuleConfig.ID cfg
             +:+ ": expression must return bool, int, or double, got "
             +:+ cel.typeName (cel.OutputType ast))
      else
        match cel.MkProgram (env e) ast with
        | inr err =>
            inr ("failed to create program for rule "
                 +:+ RuleConfig.ID cfg +:+ ": " +:+ err)
        | inl program => inl {| Config := cfg; Program := program |}
        end
  end.

(** [ValidateRule]: compiles only; the receiver is not written. *)
Definition ValidateRule (e : Engine) (cfg : option RuleConfig.t) : option string :=
  match cfg with
  | None => Some "rule config is required"
  | Some cfg =>
      match compileRule e cfg with
      | inr err => Some err
      | inl _ => None
      end
  end.

(** [LoadRule]: compiles and stores under [cfg.ID]. *)
Definition LoadRule (e : Engine) (cfg : RuleConfig.t) : option string * Engine :=
  match compileRule e cfg with
  | inr err => (Some err, e)
  | inl compiled =>
      (None, with_compiledRules e (<[RuleConfig.ID cfg := compiled]> (compiledRules e)))
  end.

Fixpoint LoadRules (e : Engine) (configs : list RuleConfig.t) : option string * Engine :=
  match configs with
  | [] => (None, e)
  | cfg :: rest =>
      if RuleConfig.Enabled cfg then
        match LoadRule e cfg with
        | (Some err, e') => (Some err, e')
        | (None, e') => LoadRules e' rest
        end
      else LoadRules e rest
  end.

(** The loop of [ReloadRules] over [configs], threading [newRules]. *)
Fixpoint reloadLoop (e : Engine) (configs : list RuleConfig.t)
    (newRules : gmap string CompiledRule) : sum (gmap string CompiledRule) string :=
  match configs with
  | [] => inl newRules
  | cfg :: rest =>
      if negb (RuleConfig.Enabled cfg) then reloadLoop e rest newRules
      else
        match compileRule e cfg with
        | inr err => inr err
        | inl compiled =>
            reloadLoop e rest (<[RuleConfig.ID cfg := compiled]> newRules)
        end
  end.

Definition ReloadRules (e : Engine) (configs : list RuleConfig.t) : option string * Engine :=
  match reloadLoop e configs ∅ with
  | inr err => (Some err, e)
  | inl newRules => (None, with_compiledRules e newRules)
  end.

Definition GetLoadedRules (e : Engine) : list RuleConfig.t :=
  (λ kv, Config kv.2) <$> map_to_list (compiledRules e).

Definition RulesCount (e : Engine) : nat := size (compiledRules e).

(** [Close]: the live set is replaced by an empty map. *)
Definition Close (e : Engine) : Engine := with_compiledRules e ∅.

Record EvaluateInput : Type := mkEvaluateInput {
  TenantID : string;
  TxID : string;
  Type_ : string;
  DebtorID : string;
  CreditorID : string;
  Amount : float64;
  Currency : string;
  VelocityWindow : Z;
  AdditionalData : gmap string cel.any
}.

(** [toScore]. The conversion [float64(v)] of an [int64] is exact up to
    2^53 in absolute value; it is read as exact throughout. *)
Definition toScore (val : cel.Val) : float64 :=
  match val with
  | cel.VBool v => if v then 1 else 0
  | cel.VDouble v => v
  | cel.VInt v => Qc_of_Z v
  | _ => 0
  end.

(** [matchBand]: the loop over [bands]; both [continue] and falling off the
    end of the loop body go on with the rest of the bands. *)
Fixpoint matchBand (score : float64) (bands : list RuleBand.t) : string * string :=
  match bands with
  | [] => (RuleOutcomePass, "no matching band")
  | band :: rest =>
      let lower := default 0 (RuleBand.LowerLimit band) in
      let hasUpper := bool_decide (is_Some (RuleBand.UpperLimit band)) in
      let upper := default (Q2Qc 1000000000) (RuleBand.UpperLimit band) in
      if f64_ge score lower then
        if negb hasUpper || f64_lt score upper then
          (RuleBand.SubRuleRef band, RuleBand.Reason band)
        else if f64_eq score upper && hasUpper then matchBand score rest
        else matchBand score rest
      else matchBand score rest
  end.

Definition evaluateRule (rule : CompiledRule) (activation : gmap string cel.any)
    (input : EvaluateInput) : RuleResult.t :=
  match Program rule activation with
  | inr err =>
      {| RuleResult.RuleID := RuleConfig.ID (Config rule);
         RuleResult.TenantID := TenantID input;
         RuleResult.TxID := TxID input;
         RuleResult.SubRuleRef := RuleOutcomeError;
         RuleResult.Score := 0;
         RuleResult.Reason := "evaluation error: " +:+ err;
         RuleResult.Weight := RuleConfig.Weight (Config rule) |}
  | inl out =>
      let score := toScore out in
      let '(subRuleRef, reason) := matchBand score (RuleConfig.Bands (Config rule)) in
      {| RuleResult.RuleID := RuleConfig.ID (Config rule);
         RuleResult.TenantID := TenantID input;
         RuleResult.TxID := TxID input;
         RuleResult.SubRuleRef := subRuleRef;
         RuleResult.Score := score;
         RuleResult.Reason := reason;
         RuleResult.Weight := RuleConfig.Weight (Config rule) |}
  end.

Definition velocityCountOf (e : Engine) (input : EvaluateInput) : Z :=
  match velocityGetter e with
  | Some getter =>
      if (0 <? VelocityWindow input)%Z then
        match getter (TenantID input) (DebtorID input) (VelocityWindow input) with
        | inl count => count
        | inr _ => 0%Z
        end
      else 0%Z
  | None => 0%Z
  end.

(** The activation: the fixed variables, then [AdditionalData] written over
    them key by key. *)
Definition activationOf (input : EvaluateInput) (velocityCount : Z) : gmap string cel.any :=
  let activation : gmap string cel.any :=
    list_to_map
      [ ("tx", cel.AMap
           [ ("id", cel.AString (TxID input));
             ("type", cel.AString (Type_ input));
             ("debtor_id", cel.AString (DebtorID input));
             ("creditor_id", cel.AString (CreditorID input));
             ("amount", cel.ADouble (Amount input));
             ("currency", cel.AString (Currency input)) ]);
        ("velocity_count", cel.AInt velocityCount);
        ("amount", cel.ADouble (Amount input));
        ("currency", cel.AString (Currency input));
        ("debtor_id", cel.AString (DebtorID input));
        ("creditor_id", cel.AString (CreditorID input));
        ("tx_type", cel.AString (Type_ input));
        ("old_balance", cel.ADouble 0);
        ("new_balance", cel.ADouble 0) ] in
  AdditionalData input ∪ activation.

(** [EvaluateAll]: every worker writes the slot of its own rule, so the
    result vector is the snapshot mapped through [evaluateRule]. The error
    result is always [nil]. *)
Definition EvaluateAll (e : Engine) (input : EvaluateInput)
    : list RuleResult.t * option string :=
  let rules := (map_to_list (compiledRules e)).*2 in
  if bool_decide (length rules = 0%nat) then ([], None)
  else
    let velocityCount := velocityCountOf e input in
    let activation := activationOf input velocityCount in
    ((λ r, evaluateRule r activation input) <$> rules, None).

(** *** typology.go *)

Record TypologyEngine : Type := mkTypologyEngine {
  typologies : gmap string Typology.t
}.

Definition NewTypologyEngine : TypologyEngine := {| typologies := ∅ |}.

Definition LoadTypologies (e : TypologyEngine) (ts : list Typology.t) : TypologyEngine :=
  {| typologies :=
       fold_left (λ m t, if Typology.Enabled t then <[Typology.ID t := t]> m else m)
                 ts ∅ |}.

Definition ReloadTypologies (e : TypologyEngine) (ts : list Typology.t) : TypologyEngine :=
  LoadTypologies e ts.

Definition GetLoadedTypologies (e : TypologyEngine) : list Typology.t :=
  (map_to_list (typologies e)).*2.

Definition TypologyCount (e : TypologyEngine) : nat := size (typologies e).

(** [ruleScores[r.RuleID] = r.Score] for each result in turn. *)
Definition ruleScoresOf (ruleResults : list RuleResult.t) : gmap string float64 :=
  fold_left (λ m r, <[RuleResult.RuleID r := RuleResult.Score r]> m) ruleResults ∅.

(** One turn of the loop of [evaluateTypology]: the running total and the
    contributions appended so far. *)
Definition typologyStep (ruleScores : gmap string float64)
    (acc : float64 * list RuleContribution.t) (ruleWeight : TypologyRuleWeight.t)
    : float64 * list RuleContribution.t :=
  match ruleScores !! TypologyRuleWeight.RuleID ruleWeight with
  | None => acc
  | Some ruleScore =>
      let contribution := ruleScore * TypologyRuleWeight.Weight ruleWeight in
      (acc.1 + contribution,
       acc.2 ++ [ {| RuleContribution.RuleID := TypologyRuleWeight.RuleID ruleWeight;
                     RuleContribution.RuleScore := ruleScore;
                     RuleContribution.Weight := TypologyRuleWeight.Weight ruleWeight;
                     RuleContribution.Contribution := contribution |} ])
  end.

Definition evaluateTypology (typology : Typology.t) (ruleScores : gmap string float64)
    : TypologyResult.t :=
  let acc := fold_left (typologyStep ruleScores) (Typology.Rules typology) (0, []) in
  let totalScore := acc.1 in
  {| TypologyResult.TypologyID := Typology.ID typology;
     TypologyResult.TypologyName := Typology.Name typology;
     TypologyResult.Score := totalScore;
     TypologyResult.Threshold := Typology.AlertThreshold typology;
     TypologyResult.Triggered := f64_ge totalScore (Typology.AlertThreshold typology);
     TypologyResult.Rules := [];
     TypologyResult.Contributions := acc.2 |}.

Definition EvaluateTypologies (e : TypologyEngine) (ruleResults : list RuleResult.t)
    : list TypologyResult.t :=
  if bool_decide (size (typologies e) = 0%nat) then []
  else
    let ruleScores := ruleScoresOf ruleResults in
    (λ kv, evaluateTypology kv.2 ruleScores) <$> map_to_list (typologies e).

Definition EvaluateTypology (e : TypologyEngine) (typologyID : string)
    (ruleResults : list RuleResult.t) : option TypologyResult.t :=
  match typologies e !! typologyID with
  | None => None
  | Some typology => Some (evaluateTypology typology (ruleScoresOf ruleResults))
  end.

Definition GetTriggeredTypologies (e : TypologyEngine) (ruleResults : list RuleResult.t)
    : list TypologyResult.t :=
  filter (λ t, TypologyResult.Triggered t = true) (EvaluateTypologies e ruleResults).

(** [TypologyEngine.Close] *)
Definition CloseTypologies (e : TypologyEngine) : TypologyEngine :=
  {| typologies := ∅ |}.

End rules.

(** ** package tadp *)

Module tadp.

Record Processor : Type := mkProcessor {
  AlertThreshold : float64;
  UseWeightedScoring : bool
}.

Definition NewProcessor : Processor :=
  {| AlertThreshold := Q2Qc (7 # 10); UseWeightedScoring := true |}.

Record DecisionInput : Type := mkDecisionInput {
  TenantID : string;
  TxID : string;
  TraceID : string;
  RuleResults : list RuleResult.t;
  TypologyResults : list TypologyResult.t
}.

Record AggregateResult : Type := mkAggregateResult {
  AggregateScore : float64;
  TotalWeight : float64;
  RulesTriggered : Z;
  HasCriticalFailure : bool
}.

(** The zero value [&AggregateResult{}]. *)
Definition emptyAggregate : AggregateResult :=
  {| AggregateScore := 0; TotalWeight := 0;
     RulesTriggered := 0; HasCriticalFailure := false |}.

(** One turn of the loop of [aggregate]. *)
Definition aggregateStep (p : Processor) (agg : AggregateResult) (r : RuleResult.t)
    : AggregateResult :=
  let weight := RuleResult.Weight r in
  let weight := if f64_le weight 0 then 1 else weight in
  let '(critical, triggered) :=
    if String.eqb (RuleResult.SubRuleRef r) RuleOutcomeFail then
      (true, (RulesTriggered agg + 1)%Z)
    else if String.eqb (RuleResult.SubRuleRef r) RuleOutcomeReview then
      (HasCriticalFailure agg, (RulesTriggered agg + 1)%Z)
    else (HasCriticalFailure agg, RulesTriggered agg) in
  if UseWeightedScoring p then
    {| AggregateScore := AggregateScore agg + RuleResult.Score r * weight;
       TotalWeight := TotalWeight agg + weight;
       RulesTriggered := triggered; HasCriticalFailure := critical |}
  else
    {| AggregateScore := AggregateScore agg + RuleResult.Score r;
       TotalWeight := TotalWeight agg + 1;
       RulesTriggered := triggered; HasCriticalFailure := critical |}.

Definition aggregate (p : Processor) (results : list RuleResult.t) : AggregateResult :=
  if bool_decide (length results = 0%nat) then emptyAggregate
  else
    let agg := fold_left (aggregateStep p) results emptyAggregate in
    if f64_gt (TotalWeight agg) 0 then
      {| AggregateScore := AggregateScore agg / TotalWeight agg;
         TotalWeight := TotalWeight agg;
         RulesTriggered := RulesTriggered agg;
         HasCriticalFailure := HasCriticalFailure agg |}
    else agg.

Definition buildTypologyResults (p : Processor) (rules : list RuleResult.t)
    (agg : AggregateResult) : list TypologyResult.t :=
  if bool_decide (length rules = 0%nat) then []
  else
    [ {| TypologyResult.TypologyID := "fraud-detection-001";
         TypologyResult.TypologyName := "";
         TypologyResult.Score := AggregateScore agg;
         TypologyResult.Threshold := AlertThreshold p;
         TypologyResult.Triggered :=
           f64_ge (AggregateScore agg) (AlertThreshold p) || HasCriticalFailure agg;
         TypologyResult.Rules := rules;
         TypologyResult.Contributions := [] |} ].

(** One turn of the loop of [Process] over the typology results:
    [(anyTypologyTriggered, maxTypologyScore)]. *)
Definition typologyScan (acc : bool * float64) (t : TypologyResult.t) : bool * float64 :=
  let anyTypologyTriggered := if TypologyResult.Triggered t then true else acc.1 in
  let maxTypologyScore :=
    if f64_gt (TypologyResult.Score t) acc.2 then TypologyResult.Score t else acc.2 in
  (anyTypologyTriggered, maxTypologyScore).

(** [Process]; [uuid] is the identifier drawn for the evaluation. *)
Definition Process (p : Processor) (uuid : string) (input : DecisionInput)
    : Evaluation.t :=
  let aggResult := aggregate p (RuleResults input) in
  let metadata :=
    {| EvaluationMetadata.TraceID := TraceID input;
       EvaluationMetadata.RulesEvaluated := length (RuleResults input);
       EvaluationMetadata.TypologiesEvaluated := length (TypologyResults input);
       EvaluationMetadata.EngineVersion := "osprey-1.0" |} in
  if bool_decide (0 < length (TypologyResults input))%nat then
    let scan := fold_left typologyScan (TypologyResults input) (false, 0) in
    let anyTypologyTriggered := scan.1 in
    let maxTypologyScore := scan.2 in
    {| Evaluation.ID := uuid;
       Evaluation.TenantID := TenantID input;
       Evaluation.TxID := TxID input;
       Evaluation.Status :=
         if anyTypologyTriggered || HasCriticalFailure aggResult
         then StatusAlert else StatusNoAlert;
       Evaluation.Score := maxTypologyScore;
       Evaluation.RuleResults := RuleResults input;
       Evaluation.TypologyResults := TypologyResults input;
       Evaluation.Metadata := metadata |}
  else
    {| Evaluation.ID := uuid;
       Evaluation.TenantID := TenantID input;
       Evaluation.TxID := TxID input;
       Evaluation.Status :=
         if HasCriticalFailure aggResult
            || f64_ge (AggregateScore aggResult) (AlertThreshold p)
         then StatusAlert else StatusNoAlert;
       Evaluation.Score := AggregateScore aggResult;
       Evaluation.RuleResults := RuleResults input;
       Evaluation.TypologyResults :=
         buildTypologyResults p (RuleResults input) aggResult;
       Evaluation.Metadata := metadata |}.

Definition ShouldAlert (eval : Evaluation.t) : bool :=
  String.eqb (Evaluation.Status eval) StatusAlert.

Definition GetReasons (eval : Evaluation.t) : list string :=
  omap (λ r,
          if String.eqb (RuleResult.SubRuleRef r) RuleOutcomeFail
             || String.eqb (RuleResult.SubRuleRef r) RuleOutcomeReview
          then if String.eqb (RuleResult.Reason r) "" then None
               else Some (RuleResult.Reason r)
          else None)
       (Evaluation.RuleResults eval).

End tadp.

(** ** package api *)

Module api.

(** The [domain.Repository] and [domain.Cache] capabilities, as far as the
    handlers below observe them: the persisted rule table, and whether calls
    succeed. *)
Record Repository : Type := mkRepository {
  ruleConfigs : list RuleConfig.t;
  repoUp : bool
}.

Record Cache : Type := mkCache {
  cacheUp : bool
}.

Definition sameKey (a b : RuleConfig.t) : bool :=
  String.eqb (RuleConfig.ID a) (RuleConfig.ID b)
  && String.eqb (RuleConfig.TenantID a) (RuleConfig.TenantID b)
  && String.eqb (RuleConfig.Version a) (RuleConfig.Version b).

(** [INSERT ... ON CONFLICT(id, tenant_id, version) DO UPDATE] *)
Definition SaveRuleConfig (r : Repository) (tenantID : string) (rule : RuleConfig.t)
    : option string * Repository :=
  if negb (repoUp r) then (Some "repository unavailable", r)
  else (None, {| ruleConfigs :=
                   filter (λ c, sameKey c rule = false) (ruleConfigs r) ++ [rule];
                 repoUp := repoUp r |}).

(** [SELECT ... WHERE tenant_id = ? AND enabled = 1]; the rows are kept in
    insertion order (the [ORDER BY name] of the query is not modelled). *)
Definition ListRuleConfigs (r : Repository) (tenantID : string)
    : sum (list RuleConfig.t) string :=
  if negb (repoUp r) then inr "repository unavailable"
  else inl (filter (λ c, String.eqb (RuleConfig.TenantID c) tenantID = true
                         ∧ RuleConfig.Enabled c = true) (ruleConfigs r)).

Definition Ping (r : Repository) : option string :=
  if repoUp r then None else Some "repository unavailable".

Definition CachePing (c : Cache) : option string :=
  if cacheUp c then None else Some "cache unavailable".

Record Handler : Type := mkHandler {
  repo : option Repository;
  cache : option Cache;
  engine : rules.Engine;
  typologyEngine : option rules.TypologyEngine;
  processor : tadp.Processor;
  version : string
}.

(** [NewHandler(repo, cache, bus, engine, typologyEngine, processor, version)];
    the event bus is stored and not used by the handlers below. *)
Definition NewHandler (repo : option Repository) (cache : option Cache)
    (engine : rules.Engine) (typologyEngine : option rules.TypologyEngine)
    (processor : tadp.Processor) (version : string) : Handler :=
  {| repo := repo; cache := cache; engine := engine;
     typologyEngine := typologyEngine; processor := processor;
     version := version |}.

Definition with_engine (h : Handler) (e : rules.Engine) : Handler :=
  {| repo := repo h; cache := cache h; engine := e;
     typologyEngine := typologyEngine h; processor := processor h;
     version := version h |}.

Definition with_repo (h : Handler) (r : option Repository) : Handler :=
  {| repo := r; cache := cache h; engine := engine h;
     typologyEngine := typologyEngine h; processor := processor h;
     version := version h |}.

Record PartyInfo : Type := mkPartyInfo {
  PartyID : string;
  AccountID : string
}.

Record AmountInfo : Type := mkAmountInfo {
  Value : float64;
  Currency : string
}.

Record TransactionRequest : Type := mkTransactionRequest {
  Type_ : string;
  Debtor : PartyInfo;
  Creditor : PartyInfo;
  Amount : AmountInfo;
  Metadata : gmap string cel.any
}.

Record EvaluateResponse : Type := mkEvaluateResponse {
  EvaluationID : string;
  TxID : string;
  Status : string;
  Score : float64;
  Reasons : list string;
  MetaTraceID : string;
  MetaVersion : string
}.

Record CreateRuleRequest : Type := mkCreateRuleRequest {
  ReqID : string;
  ReqName : string;
  ReqDescription : string;
  ReqExpression : string;
  ReqBands : list RuleBand.t;
  ReqWeight : float64;
  ReqEnabled : bool
}.

(** What [writeJSON] is given. *)
Inductive Body : Type :=
| ErrorBody (error : string)
| EvaluateBody (resp : EvaluateResponse)
| HealthBody (status version : string)
| ReadyBody (ready : string)
| RulesBody (loaded : list RuleConfig.t) (count : nat)
| RuleBody (rule : RuleConfig.t)
| RuleCreatedBody (rule : RuleConfig.t) (message : string)
| ReloadedBody (message : string) (count : nat).

Record Response : Type := mkResponse {
  code : Z;
  body : Body
}.

Definition StatusOK : Z := 200.
Definition StatusCreated : Z := 201.
Definition StatusBadRequest : Z := 400.
Definition StatusNotFound : Z := 404.
Definition StatusInternalServerError : Z := 500.
Definition StatusServiceUnavailable : Z := 503.

Definition writeJSON (status : Z) (data : Body) : Response :=
  {| code := status; body := data |}.

(** What the middleware leaves in the request context. *)
Record Context : Type := mkContext {
  CtxTenantID : string;
  CtxTraceID : string
}.

Definition GlobalTenantID : string := "*".

(** Step 3 of [Evaluate]: the typology results handed to the processor. *)
Definition typologyResultsOf (h : Handler) (ruleResults : list RuleResult.t)
    : list TypologyResult.t :=
  match typologyEngine h with
  | Some te =>
      if bool_decide (0 < rules.TypologyCount te)%nat
      then rules.EvaluateTypologies te ruleResults
      else []
  | None => []
  end.

(** [Evaluate]: [req] is the decoded body ([None] when decoding fails),
    [txID] and [evalID] the identifiers drawn from [uuid.New]. The two
    writes to the repository ([SaveTransaction] before the rules run,
    [SaveEvaluation] after the decision) are left out: their errors are
    logged and ignored, and they change neither the engines nor the response
    computed from the rule results. (A velocity getter that counts the
    transactions of the repository sees the transaction saved here; see
    [rules.VelocityGetter].) *)
Definition Evaluate (h : Handler) (ctx : Context) (txID evalID : string)
    (req : option TransactionRequest) : Response :=
  match req with
  | None => writeJSON StatusBadRequest (ErrorBody "invalid JSON request body")
  | Some req =>
      if String.eqb (Type_ req) "" then
        writeJSON StatusBadRequest (ErrorBody "type is required")
      else if String.eqb (PartyID (Debtor req)) ""
              || String.eqb (PartyID (Creditor req)) "" then
        writeJSON StatusBadRequest (ErrorBody "debtor.id and creditor.id are required")
      else if f64_le (Value (Amount req)) 0 then
        writeJSON StatusBadRequest (ErrorBody "amount.value must be positive")
      else
        let evalInput :=
          {| rules.TenantID := CtxTenantID ctx;
             rules.TxID := txID;
             rules.Type_ := Type_ req;
             rules.DebtorID := PartyID (Debtor req);
             rules.CreditorID := PartyID (Creditor req);
             rules.Amount := Value (Amount req);
             rules.Currency := Currency (Amount req);
             rules.VelocityWindow := 3600;
             rules.AdditionalData := Metadata req |} in
        match rules.EvaluateAll (engine h) evalInput with
        | (_, Some _) =>
            writeJSON StatusInternalServerError (ErrorBody "rule evaluation failed")
        | (ruleResults, None) =>
            let typologyResults := typologyResultsOf h ruleResults in
            let decisionInput :=
              {| tadp.TenantID := CtxTenantID ctx;
                 tadp.TxID := txID;
                 tadp.TraceID := CtxTraceID ctx;
                 tadp.RuleResults := ruleResults;
                 tadp.TypologyResults := typologyResults |} in
            let evaluation := tadp.Process (processor h) evalID decisionInput in
            writeJSON StatusOK
              (EvaluateBody
                 {| EvaluationID := Evaluation.ID evaluation;
                    TxID := txID;
                    Status := Evaluation.Status evaluation;
                    Score := Evaluation.Score evaluation;
                    Reasons := tadp.GetReasons evaluation;
                    MetaTraceID := CtxTraceID ctx;
                    MetaVersion := version h |})
        end
  end.

Definition Health (h : Handler) : Response :=
  let status := "healthy" in
  let status :=
    match repo h with
    | Some r => if bool_decide (is_Some (Ping r)) then "degraded" else status
    | None => status
    end in
  let status :=
    match cache h with
    | Some c => if bool_decide (is_Some (CachePing c)) then "degraded" else status
    | None => status
    end in
  writeJSON StatusOK (HealthBody status (version h)).

Definition Ready (h : Handler) : Response :=
  writeJSON StatusOK (ReadyBody "true").

Definition ListRules (h : Handler) : Response :=
  let loadedRules := rules.GetLoadedRules (engine h) in
  writeJSON StatusOK (RulesBody loadedRules (length loadedRules)).

Definition GetRule (h : Handler) (ruleID : string) : Response :=
  if String.eqb ruleID "" then
    writeJSON StatusBadRequest (ErrorBody "rule id is required")
  else
    match list_find (λ rule, RuleConfig.ID rule = ruleID)
                    (rules.GetLoadedRules (engine h)) with
    | Some (_, rule) => writeJSON StatusOK (RuleBody rule)
    | None => writeJSON StatusNotFound (ErrorBody "rule not found")
    end.

(** [CreateRule]: the handler after the call is returned with the response,
    since both the engine and the repository may have been written. *)
Definition CreateRule (h : Handler) (req : option CreateRuleRequest)
    : Response * Handler :=
  match req with
  | None => (writeJSON StatusBadRequest (ErrorBody "invalid JSON request body"), h)
  | Some req =>
      if String.eqb (ReqID req) "" || String.eqb (ReqName req) ""
         || String.eqb (ReqExpression req) "" then
        (writeJSON StatusBadRequest
           (ErrorBody "id, name, and expression are required"), h)
      else
        let ruleConfig :=
          {| RuleConfig.ID := ReqID req;
             RuleConfig.TenantID := GlobalTenantID;
             RuleConfig.Name := ReqName req;
             RuleConfig.Description := ReqDescription req;
             RuleConfig.Version := "1.0.0";
             RuleConfig.Expression := ReqExpression req;
             RuleConfig.Bands := ReqBands req;
             RuleConfig.Weight := ReqWeight req;
             RuleConfig.Enabled := ReqEnabled req |} in
        match rules.LoadRule (engine h) ruleConfig with
        | (Some err, e') =>
            (writeJSON StatusBadRequest
               (ErrorBody ("invalid CEL expression: " +:+ err)), with_engine h e')
        | (None, e') =>
            let h := with_engine h e' in
            let created :=
              writeJSON StatusCreated
                (RuleCreatedBody ruleConfig
                   "Rule created. Call POST /rules/reload to apply changes.") in
            match repo h with
            | None => (created, h)
            | Some r =>
                match SaveRuleConfig r GlobalTenantID ruleConfig with
                | (Some _, r') =>
                    (writeJSON StatusInternalServerError
                       (ErrorBody "failed to save rule"), with_repo h (Some r'))
                | (None, r') => (created, with_repo h (Some r'))
                end
            end
        end
  end.

Definition ReloadRules (h : Handler) : Response * Handler :=
  match repo h with
  | None =>
      (writeJSON StatusServiceUnavailable (ErrorBody "repository not available"), h)
  | Some r =>
      match ListRuleConfigs r GlobalTenantID with
      | inr _ =>
          (writeJSON StatusInternalServerError
             (ErrorBody "failed to load rules from database"), h)
      | inl dbRules =>
          match rules.ReloadRules (engine h) dbRules with
          | (Some err, e') =>
              (writeJSON StatusInternalServerError
                 (ErrorBody ("failed to reload rules: " +:+ err)), with_engine h e')
          | (None, e') =>
              (writeJSON StatusOK
                 (ReloadedBody "rules reloaded successfully" (length dbRules)),
               with_engine h e')
          end
      end
  end.

(** *** Typology handlers *)

Record CreateTypologyRequest : Type := mkCreateTypologyRequest {
  TReqID : string;
  TReqName : string;
  TReqDescription : string;
  TReqRules : list TypologyRuleWeight.t;
  TReqAlertThreshold : float64;
  TReqEnabled : bool
}.

(** What [writeJSON] is given by the typology handlers. *)
Inductive TypologyBody : Type :=
| TypologyErrorBody (error : string)
| TypologiesBody (loaded : list Typology.t) (count : nat)
| TypologyFoundBody (typology : Typology.t)
| TypologySavedBody (typology : Typology.t) (message : string).

Record TypologyResponse : Type := mkTypologyResponse {
  tcode : Z;
  tbody : TypologyBody
}.

(** [SaveTypology]: the typology table is written and not read by the
    handlers modelled here, so only the success of the call is kept. *)
Definition SaveTypology (r : Repository) (tenantID : string) (typology : Typology.t)
    : option string :=
  if repoUp r then None else Some "repository unavailable".

Definition ListTypologies (h : Handler) : TypologyResponse :=
  match typologyEngine h with
  | None =>
      {| tcode := StatusServiceUnavailable;
         tbody := TypologyErrorBody "typology engine not available" |}
  | Some te =>
      let loaded := rules.GetLoadedTypologies te in
      {| tcode := StatusOK; tbody := TypologiesBody loaded (length loaded) |}
  end.

Definition GetTypology (h : Handler) (typologyID : string) : TypologyResponse :=
  if String.eqb typologyID "" then
    {| tcode := StatusBadRequest; tbody := TypologyErrorBody "typology id is required" |}
  else
    match typologyEngine h with
    | None =>
        {| tcode := StatusServiceUnavailable;
           tbody := TypologyErrorBody "typology engine not available" |}
    | Some te =>
        match list_find (λ t, Typology.ID t = typologyID)
                        (rules.GetLoadedTypologies te) with
        | Some (_, t) => {| tcode := StatusOK; tbody := TypologyFoundBody t |}
        | None =>
            {| tcode := StatusNotFound; tbody := TypologyErrorBody "typology not found" |}
        end
    end.

(** The loop of [CreateTypology] over the rules of the request: the message
    of the first check that fails, if any. [ruleIDSet] holds the ids of the
    rules loaded in the engine. *)
Fixpoint checkCreateRules (ruleIDSet : gset string)
    (rules : list TypologyRuleWeight.t) : option string :=
  match rules with
  | [] => None
  | rule :: rest =>
      if String.eqb (TypologyRuleWeight.RuleID rule) "" then
        Some "rule_id cannot be empty"
      else if negb (bool_decide (TypologyRuleWeight.RuleID rule ∈ ruleIDSet)) then
        Some ("rule_id '" +:+ TypologyRuleWeight.RuleID rule
              +:+ "' does not exist in rule engine")
      else if f64_lt (TypologyRuleWeight.Weight rule) 0
              || f64_gt (TypologyRuleWeight.Weight rule) 1 then
        Some "rule weight must be between 0 and 1"
      else checkCreateRules ruleIDSet rest
  end.

(** The loop of [UpdateTypology] over the rules of the request. *)
Fixpoint checkUpdateRules (rules : list TypologyRuleWeight.t) : option string :=
  match rules with
  | [] => None
  | rule :: rest =>
      if String.eqb (TypologyRuleWeight.RuleID rule) "" then
        Some "rule_id cannot be empty"
      else if f64_lt (TypologyRuleWeight.Weight rule) 0
              || f64_gt (TypologyRuleWeight.Weight rule) 1 then
        Some "rule weight must be between 0 and 1"
      else checkUpdateRules rest
  end.

Definition typologyOf (id : string) (req : CreateTypologyRequest) : Typology.t :=
  {| Typology.ID := id;
     Typology.TenantID := GlobalTenantID;
     Typology.Name := TReqName req;
     Typology.Description := TReqDescription req;
     Typology.Version := "1.0.0";
     Typology.Rules := TReqRules req;
     Typology.AlertThreshold := TReqAlertThreshold req;
     Typology.Enabled := TReqEnabled req |}.

(** [CreateTypology]: neither engine is written; the weights that do not sum
    to 1.0 are only logged. *)
Definition CreateTypology (h : Handler) (req : option CreateTypologyRequest)
    : TypologyResponse :=
  match req with
  | None =>
      {| tcode := StatusBadRequest;
         tbody := TypologyErrorBody "invalid JSON request body" |}
  | Some req =>
      if String.eqb (TReqID req) "" || String.eqb (TReqName req) "" then
        {| tcode := StatusBadRequest;
           tbody := TypologyErrorBody "id and name are required" |}
      else if bool_decide (length (TReqRules req) = 0%nat) then
        {| tcode := StatusBadRequest;
           tbody := TypologyErrorBody "at least one rule is required" |}
      else
        let ruleIDSet : gset string :=
          list_to_set (RuleConfig.ID <$> rules.GetLoadedRules (engine h)) in
        match checkCreateRules ruleIDSet (TReqRules req) with
        | Some err => {| tcode := StatusBadRequest; tbody := TypologyErrorBody err |}
        | None =>
            if f64_le (TReqAlertThreshold req) 0 || f64_gt (TReqAlertThreshold req) 1 then
              {| tcode := StatusBadRequest;
                 tbody := TypologyErrorBody
                            "alertThreshold must be between 0 (exclusive) and 1" |}
            else
              let typology := typologyOf (TReqID req) req in
              let created :=
                {| tcode := StatusCreated;
                   tbody := TypologySavedBody typology
                     "Typology created. Call POST /typologies/reload to apply changes." |} in
              match repo h with
              | None => created
              | Some r =>
                  match SaveTypology r GlobalTenantID typology with
                  | Some _ =>
                      {| tcode := StatusInternalServerError;
                         tbody := TypologyErrorBody "failed to save typology" |}
                  | None => created
                  end
              end
        end
  end.

Definition UpdateTypology (h : Handler) (typologyID : string)
    (req : option CreateTypologyRequest) : TypologyResponse :=
  if String.eqb typologyID "" then
    {| tcode := StatusBadRequest; tbody := TypologyErrorBody "typology id is required" |}
  else
    match req with
    | None =>
        {| tcode := StatusBadRequest;
           tbody := TypologyErrorBody "invalid JSON request body" |}
    | Some req =>
        match checkUpdateRules (TReqRules req) with
        | Some err => {| tcode := StatusBadRequest; tbody := TypologyErrorBody err |}
        | None =>
            let typology := typologyOf typologyID req in
            let updated :=
              {| tcode := StatusOK;
                 tbody := TypologySavedBody typology
                   "Typology updated. Call POST /typologies/reload to apply changes." |} in
            match repo h with
            | None => updated
            | Some r =>
                match SaveTypology r GlobalTenantID typology with
                | Some _ =>
                    {| tcode := StatusInternalServerError;
                       tbody := TypologyErrorBody "failed to update typology" |}
                | None => updated
                end
            end
        end
    end.

(** server.go. [NewServer] is given the evaluation mode and hands it to
    [NewHandler]; the [NewHandler] of handler.go has no parameter that takes
    it and [Handler] no field that keeps it, so the handler the server routes
    to is the one built from the remaining arguments. *)
Record Server : Type := mkServer {
  handler : Handler
}.

Definition NewServer (repo : option Repository) (cache : option Cache)
    (engine : rules.Engine) (typologyEngine : option rules.TypologyEngine)
    (processor : tadp.Processor) (version : string)
    (mode : EvaluationMode) : Server :=
  {| handler := NewHandler repo cache engine typologyEngine processor version |}.

End api.

(** ** package worker *)

Module worker.

(** The worker's event bus and repository are written only; what it
    publishes is returned. *)
Record Worker : Type := mkWorker {
  engine : rules.Engine;
  typologyEngine : option rules.TypologyEngine;
  processor : tadp.Processor
}.

Record TransactionMessage : Type := mkTransactionMessage {
  TxID : string;
  TenantID : string;
  TraceID : string;
  Type_ : string;
  DebtorID : string;
  CreditorID : string;
  Amount : float64;
  Currency : string;
  VelocityWindow : Z;
  AdditionalData : gmap string cel.any
}.

(** [domain.Message]; [Payload] is the decoded payload, [None] when decoding
    fails. *)
Record Message : Type := mkMessage {
  MsgID : string;
  MsgTenantID : string;
  Payload : option TransactionMessage
}.

Definition TopicDecision : string := "osprey.decision".
Definition TopicAlert : string := "osprey.alert".

(** One call of [bus.Publish]. *)
Record Published : Type := mkPublished {
  PubTenantID : string;
  PubTopic : string;
  PubEvaluation : Evaluation.t
}.

(** [processTransaction]; [evalID] is the identifier drawn for the
    evaluation. Failures of saving and publishing are logged only. *)
Definition processTransaction (w : Worker) (tenantID : string) (msg : Message)
    (evalID : string) : option string * list Published :=
  match Payload msg with
  | None => (Some "failed to parse transaction message", [])
  | Some txMsg =>
      let tenantID :=
        if String.eqb (TenantID txMsg) "" then tenantID else TenantID txMsg in
      let traceID :=
        if String.eqb (TraceID txMsg) "" then MsgID msg else TraceID txMsg in
      let evalInput :=
        {| rules.TenantID := tenantID;
           rules.TxID := TxID txMsg;
           rules.Type_ := Type_ txMsg;
           rules.DebtorID := DebtorID txMsg;
           rules.CreditorID := CreditorID txMsg;
           rules.Amount := Amount txMsg;
           rules.Currency := Currency txMsg;
           rules.VelocityWindow :=
             if (VelocityWindow txMsg =? 0)%Z then 3600%Z else VelocityWindow txMsg;
           rules.AdditionalData := AdditionalData txMsg |} in
      match rules.EvaluateAll (engine w) evalInput with
      | (_, Some err) => (Some err, [])
      | (ruleResults, None) =>
          let typologyResults :=
            match typologyEngine w with
            | Some te =>
                if bool_decide (0 < rules.TypologyCount te)%nat
                then rules.EvaluateTypologies te ruleResults
                else []
            | None => []
            end in
          let decisionInput :=
            {| tadp.TenantID := tenantID;
               tadp.TxID := TxID txMsg;
               tadp.TraceID := traceID;
               tadp.RuleResults := ruleResults;
               tadp.TypologyResults := typologyResults |} in
          let evaluation := tadp.Process (processor w) evalID decisionInput in
          (None,
           {| PubTenantID := tenantID; PubTopic := TopicDecision;
              PubEvaluation := evaluation |}
           :: if tadp.ShouldAlert evaluation
              then [ {| PubTenantID := tenantID; PubTopic := TopicAlert;
                        PubEvaluation := evaluation |} ]
              else [])
      end
  end.

Definition handleMessage (w : Worker) (msg : Message) (evalID : string)
    : option string * list Published :=
  processTransaction w (MsgTenantID msg) msg evalID.

End worker.

(** ** The scoring loops, over any arithmetic

    [Processor.aggregate] (tadp.go) and [TypologyEngine.evaluateTypology],
    [TypologyEngine.EvaluateTypologies] (typology engine) once more, with the
    [float64] operations taken from an [f64.Arith]: each [+], [*], [/], [<=],
    [>] and [>=] of the source is one operation of the arithmetic, in the
    order the source performs them. The records keep the fields the loops
    read and write. *)

Module scoring.

Module RuleResult.
Record t (A : f64.Arith) : Type := mk {
  RuleID : string;
  SubRuleRef : string;
  Score : f64.num A;
  Weight : f64.num A
}.
Arguments mk {A} _ _ _ _.
Arguments RuleID {A} _.
Arguments SubRuleRef {A} _.
Arguments Score {A} _.
Arguments Weight {A} _.
End RuleResult.

Module TypologyRuleWeight.
Record t (A : f64.Arith) : Type := mk {
  RuleID : string;
  Weight : f64.num A
}.
Arguments mk {A} _ _.
Arguments RuleID {A} _.
Arguments Weight {A} _.
End TypologyRuleWeight.

Module Typology.
Record t (A : f64.Arith) : Type := mk {
  ID : string;
  Name : string;
  Rules : list (TypologyRuleWeight.t A);
  AlertThreshold : f64.num A
}.
Arguments mk {A} _ _ _ _.
Arguments ID {A} _.
Arguments Name {A} _.
Arguments Rules {A} _.
Arguments AlertThreshold {A} _.
End Typology.

Module RuleContribution.
Record t (A : f64.Arith) : Type := mk {
  RuleID : string;
  RuleScore : f64.num A;
  Weight : f64.num A;
  Contribution : f64.num A
}.
Arguments mk {A} _ _ _ _.
Arguments RuleID {A} _.
Arguments RuleScore {A} _.
Arguments Weight {A} _.
Arguments Contribution {A} _.
End RuleContribution.

Module TypologyResult.
Record t (A : f64.Arith) : Type := mk {
  TypologyID : string;
  TypologyName : string;
  Score : f64.num A;
  Threshold : f64.num A;
  Triggered : bool;
  Contributions : list (RuleContribution.t A)
}.
Arguments mk {A} _ _ _ _ _ _.
Arguments TypologyID {A} _.
Arguments TypologyName {A} _.
Arguments Score {A} _.
Arguments Threshold {A} _.
Arguments Triggered {A} _.
Arguments Contributions {A} _.
End TypologyResult.

Record Processor (A : f64.Arith) : Type := mkProcessor {
  AlertThreshold : f64.num A;
  UseWeightedScoring : bool
}.
Arguments mkProcessor {A} _ _.
Arguments AlertThreshold {A} _.
Arguments UseWeightedScoring {A} _.

Record AggregateResult (A : f64.Arith) : Type := mkAggregateResult {
  AggregateScore : f64.num A;
  TotalWeight : f64.num A;
  RulesTriggered : Z;
  HasCriticalFailure : bool
}.
Arguments mkAggregateResult {A} _ _ _ _.
Arguments AggregateScore {A} _.
Arguments TotalWeight {A} _.
Arguments RulesTriggered {A} _.
Arguments HasCriticalFailure {A} _.

(** The zero value [&AggregateResult{}]. *)
Definition emptyAggregate {A : f64.Arith} : AggregateResult A :=
  {| AggregateScore := f64.zero; TotalWeight := f64.zero;
     RulesTriggered := 0; HasCriticalFailure := false |}.

(** One turn of the loop of [aggregate]. *)
Definition aggregateStep {A : f64.Arith} (p : Processor A) (agg : AggregateResult A)
    (r : RuleResult.t A) : AggregateResult A :=
  let weight := RuleResult.Weight r in
  let weight := if f64.le weight f64.zero then f64.one else weight in
  let '(critical, triggered) :=
    if String.eqb (RuleResult.SubRuleRef r) RuleOutcomeFail then
      (true, (RulesTriggered agg + 1)%Z)
    else if String.eqb (RuleResult.SubRuleRef r) RuleOutcomeReview then
      (HasCriticalFailure agg, (RulesTriggered agg + 1)%Z)
    else (HasCriticalFailure agg, RulesTriggered agg) in
  if UseWeightedScoring p then
    {| AggregateScore :=
         f64.add (AggregateScore agg) (f64.mul (RuleResult.Score r) weight);
       TotalWeight := f64.add (TotalWeight agg) weight;
       RulesTriggered := triggered; HasCriticalFailure := critical |}
  else
    {| AggregateScore := f64.add (AggregateScore agg) (RuleResult.Score r);
       TotalWeight := f64.add (TotalWeight agg) f64.one;
       RulesTriggered := triggered; HasCriticalFailure := critical |}.

Definition aggregate {A : f64.Arith} (p : Processor A) (results : list (RuleResult.t A))
    : AggregateResult A :=
  if bool_decide (length results = 0%nat) then emptyAggregate
  else
    let agg := fold_left (aggregateStep p) results emptyAggregate in
    if f64.gt (TotalWeight agg) f64.zero then
      {| AggregateScore := f64.div (AggregateScore agg) (TotalWeight agg);
         TotalWeight := TotalWeight agg;
         RulesTriggered := RulesTriggered agg;
         HasCriticalFailure := HasCriticalFailure agg |}
    else agg.

Record TypologyEngine (A : f64.Arith) : Type := mkTypologyEngine {
  typologies : gmap string (Typology.t A)
}.
Arguments mkTypologyEngine {A} _.
Arguments typologies {A} _.

(** [ruleScores[r.RuleID] = r.Score] for each result in turn. *)
Definition ruleScoresOf {A : f64.Arith} (ruleResults : list (RuleResult.t A))
    : gmap string (f64.num A) :=
  fold_left (λ m r, <[RuleResult.RuleID r := RuleResult.Score r]> m) ruleResults ∅.

(** One turn of the loop of [evaluateTypology]: the running total and the
    contributions appended so far. *)
Definition typologyStep {A : f64.Arith} (ruleScores : gmap string (f64.num A))
    (acc : f64.num A * list (RuleContribution.t A)) (ruleWeight : TypologyRuleWeight.t A)
    : f64.num A * list (RuleContribution.t A) :=
  match ruleScores !! TypologyRuleWeight.RuleID ruleWeight with
  | None => acc
  | Some ruleScore =>
      let contribution := f64.mul ruleScore (TypologyRuleWeight.Weight ruleWeight) in
      (f64.add acc.1 contribution,
       acc.2 ++ [ {| RuleContribution.RuleID := TypologyRuleWeight.RuleID ruleWeight;
                     RuleContribution.RuleScore := ruleScore;
                     RuleContribution.Weight := TypologyRuleWeight.Weight ruleWeight;
                     RuleContribution.Contribution := contribution |} ])
  end.

Definition evaluateTypology {A : f64.Arith} (typology : Typology.t A)
    (ruleScores : gmap string (f64.num A)) : TypologyResult.t A :=
  let acc := fold_left (typologyStep ruleScores) (Typology.Rules typology) (f64.zero, []) in
  let totalScore := acc.1 in
  {| TypologyResult.TypologyID := Typology.ID typology;
     TypologyResult.TypologyName := Typology.Name typology;
     TypologyResult.Score := totalScore;
     TypologyResult.Threshold := Typology.AlertThreshold typology;
     TypologyResult.Triggered := f64.ge totalScore (Typology.AlertThreshold typology);
     TypologyResult.Contributions := acc.2 |}.

Definition EvaluateTypologies {A : f64.Arith} (e : TypologyEngine A)
    (ruleResults : list (RuleResult.t A)) : list (TypologyResult.t A) :=
  if bool_decide (size (typologies e) = 0%nat) then []
  else
    let ruleScores := ruleScoresOf ruleResults in
    (λ kv, evaluateTypology kv.2 ruleScores) <$> map_to_list (typologies e).

(** The records of package domain, read in the exact arithmetic. *)
Definition ofRuleResult (r : domain.RuleResult.t) : RuleResult.t f64.exact :=
  RuleResult.mk (A := f64.exact)
    (domain.RuleResult.RuleID r) (domain.RuleResult.SubRuleRef r)
    (domain.RuleResult.Score r) (domain.RuleResult.Weight r).

Definition ofRuleWeight (rw : domain.TypologyRuleWeight.t) : TypologyRuleWeight.t f64.exact :=
  TypologyRuleWeight.mk (A := f64.exact)
    (domain.TypologyRuleWeight.RuleID rw) (domain.TypologyRuleWeight.Weight rw).

Definition ofTypology (T : domain.Typology.t) : Typology.t f64.exact :=
  Typology.mk (A := f64.exact)
    (domain.Typology.ID T) (domain.Typology.Name T)
    (ofRuleWeight <$> domain.Typology.Rules T) (domain.Typology.AlertThreshold T).

Definition ofContribution (c : domain.RuleContribution.t) : RuleContribution.t f64.exact :=
  RuleContribution.mk (A := f64.exact)
    (domain.RuleContribution.RuleID c) (domain.RuleContribution.RuleScore c)
    (domain.RuleContribution.Weight c) (domain.RuleContribution.Contribution c).

Definition ofTypologyResult (t : domain.TypologyResult.t) : TypologyResult.t f64.exact :=
  TypologyResult.mk (A := f64.exact)
    (domain.TypologyResult.TypologyID t) (domain.TypologyResult.TypologyName t)
    (domain.TypologyResult.Score t) (domain.TypologyResult.Threshold t)
    (domain.TypologyResult.Triggered t)
    (ofContribution <$> domain.TypologyResult.Contributions t).

Definition ofProcessor (p : tadp.Processor) : Processor f64.exact :=
  mkProcessor (A := f64.exact) (tadp.AlertThreshold p) (tadp.UseWeightedScoring p).

Definition ofAggregate (agg : tadp.AggregateResult) : AggregateResult f64.exact :=
  mkAggregateResult (A := f64.exact)
    (tadp.AggregateScore agg) (tadp.TotalWeight agg)
    (tadp.RulesTriggered agg) (tadp.HasCriticalFailure agg).

End scoring.

(** * Properties *)

(** ** Comparisons on [float64] *)

Lemma f64_le_spec (x y : float64) : f64_le x y = true ↔ x ≤ y.
Proof. unfold f64_le, Qcle. apply Qle_bool_iff. Qed.

Lemma f64_lt_spec (x y : float64) : f64_lt x y = true ↔ x < y.
Proof.
  unfold f64_lt, Qclt. rewrite negb_true_iff, <- not_true_iff_false, Qle_bool_iff.
  split; [apply Qnot_le_lt | apply Qlt_not_le].
Qed.

Lemma f64_ge_spec (x y : float64) : f64_ge x y = true ↔ y ≤ x.
Proof. apply f64_le_spec. Qed.

Lemma f64_gt_spec (x y : float64) : f64_gt x y = true ↔ y < x.
Proof. apply f64_lt_spec. Qed.

(** Equations between closed [float64] terms, by evaluation. *)
Ltac f64_compute := apply Qc_is_canon; vm_compute; reflexivity.

Lemma f64_le_false (x y : float64) : f64_le x y = false ↔ y < x.
Proof.
  rewrite <- not_true_iff_false, f64_le_spec.
  split; [apply Qcnot_le_lt | apply Qclt_not_le].
Qed.

Lemma f64_lt_false (x y : float64) : f64_lt x y = false ↔ y ≤ x.
Proof.
  rewrite <- not_true_iff_false, f64_lt_spec.
  split; [apply Qcnot_lt_le | apply Qcle_not_lt].
Qed.

(** ** Band matching *)

Section bands.

Import rules.

(** The interval of a band, [lower ≤ s < upper]: an absent lower limit is
    0.0 as in [matchBand], an absent upper limit leaves the band unbounded
    above. *)
Definition inBand (s : float64) (b : RuleBand.t) : Prop :=
  default 0 (RuleBand.LowerLimit b) ≤ s
  ∧ match RuleBand.UpperLimit b with
    | None => True
    | Some upper => s < upper
    end.

#[local] Instance inBand_dec s b : Decision (inBand s b).
Proof.
  unfold inBand. destruct (RuleBand.UpperLimit b); apply _.
Defined.

(** The first band of [bands], in declaration order, that contains [s]. *)
Definition firstBand (s : float64) (bands : list RuleBand.t) : option RuleBand.t :=
  snd <$> list_find (inBand s) bands.

Lemma matchBand_cons_in s b bands :
  inBand s b → matchBand s (b :: bands) = (RuleBand.SubRuleRef b, RuleBand.Reason b).
Proof.
  intros [Hlo Hup]. simpl.
  apply f64_ge_spec in Hlo as ->.
  destruct (RuleBand.UpperLimit b) as [u|] eqn:Hu; simpl.
  - by apply f64_lt_spec in Hup as ->.
  - done.
Qed.

Lemma matchBand_cons_out s b bands :
  ¬ inBand s b → matchBand s (b :: bands) = matchBand s bands.
Proof.
  intros Hn. simpl.
  destruct (f64_ge s (default 0 (RuleBand.LowerLimit b))) eqn:Hlo; [|done].
  apply f64_ge_spec in Hlo.
  destruct (RuleBand.UpperLimit b) as [u|] eqn:Hu; simpl.
  - destruct (f64_lt s u) eqn:Hlt.
    + exfalso. apply Hn. split; [done|]. rewrite Hu. by apply f64_lt_spec.
    + by destruct (f64_eq s u).
  - exfalso. apply Hn. split; [done|]. by rewrite Hu.
Qed.

(** C2. For every score [s] and band list [bands], [matchBand] returns the
    tag and reason of the first band, in declaration order, whose half-open
    interval [lower, upper) contains [s] (lower inclusive, upper exclusive,
    an absent upper limit unbounded above), and [.pass] with reason
    "no matching band" when no band contains [s]. *)
Theorem matchBand_first_match (s : float64) (bands : list RuleBand.t) :
  matchBand s bands =
    match firstBand s bands with
    | Some b => (RuleBand.SubRuleRef b, RuleBand.Reason b)
    | None => (RuleOutcomePass, "no matching band")
    end
  ∧ (∀ b, firstBand s bands = Some b ↔
          ∃ before after, bands = before ++ b :: after
                          ∧ inBand s b ∧ Forall (λ b', ¬ inBand s b') before)
  ∧ (firstBand s bands = None ↔ Forall (λ b', ¬ inBand s b') bands).
Proof.
  split; [|split].
  - unfold firstBand. induction bands as [|b bands IH]; [done|].
    cbn [list_find]. destruct (decide (inBand s b)) as [Hin|Hout].
    + by rewrite matchBand_cons_in.
    + rewrite matchBand_cons_out by done. rewrite IH.
      by destruct (list_find (inBand s) bands) as [[? ?]|].
  - intros b. unfold firstBand. split.
    + destruct (list_find (inBand s) bands) as [[i b']|] eqn:Hf; [|done].
      intros [= <-]. apply list_find_Some in Hf as (Hi & Hin & Hbefore).
      exists (take i bands), (drop (S i) bands). split; [|split; [done|]].
      * by rewrite <- (take_drop_middle _ _ _ Hi) at 1.
      * apply Forall_forall. intros x Hx%list_elem_of_lookup_1.
        destruct Hx as [j Hj].
        apply lookup_take_Some in Hj as [Hj Hlt]. eauto.
    + intros (before & after & -> & Hin & Hbefore).
      assert (list_find (inBand s) (before ++ b :: after)
              = Some (length before, b)) as ->; [|done].
      apply list_find_Some. split; [|split; [done|]].
      * by rewrite list_lookup_middle.
      * intros j y Hj Hlt. rewrite lookup_app_l in Hj by done.
        rewrite Forall_forall in Hbefore. apply Hbefore.
        by eapply list_elem_of_lookup_2.
  - unfold firstBand. rewrite fmap_None, list_find_None. done.
Qed.

End bands.

(** ** Rule aggregation *)

Section aggregation.

Import tadp.

Implicit Types (p : Processor) (r : RuleResult.t) (rs : list RuleResult.t).
Implicit Types (agg : AggregateResult).

Definition isFail r : Prop := RuleResult.SubRuleRef r = RuleOutcomeFail.

(** The weight a result counts with: its own when positive, 1.0 otherwise. *)
Definition effectiveWeight r : float64 :=
  if decide (0 < RuleResult.Weight r) then RuleResult.Weight r else 1.

(** What a result adds to the numerator and to the denominator. *)
Definition numeratorTerm p r : float64 :=
  if UseWeightedScoring p then RuleResult.Score r * effectiveWeight r
  else RuleResult.Score r.

Definition denominatorTerm p r : float64 :=
  if UseWeightedScoring p then effectiveWeight r else 1.

Lemma effectiveWeight_code r :
  (if f64_le (RuleResult.Weight r) 0 then 1 else RuleResult.Weight r)
  = effectiveWeight r.
Proof.
  unfold effectiveWeight.
  destruct (f64_le (RuleResult.Weight r) 0) eqn:Hle.
  - apply f64_le_spec in Hle. rewrite decide_False; [done|].
    by apply Qcle_not_lt.
  - apply f64_le_false in Hle. by rewrite decide_True.
Qed.

Lemma effectiveWeight_pos r : 0 < effectiveWeight r.
Proof. unfold effectiveWeight. by case_decide. Qed.

Lemma denominatorTerm_pos p r : 0 < denominatorTerm p r.
Proof.
  unfold denominatorTerm. destruct (UseWeightedScoring p); [|done].
  apply effectiveWeight_pos.
Qed.

Lemma aggregateStep_score p agg r :
  AggregateScore (aggregateStep p agg r) = AggregateScore agg + numeratorTerm p r.
Proof.
  unfold aggregateStep, numeratorTerm. rewrite effectiveWeight_code.
  repeat case_match; simplify_eq; done.
Qed.

Lemma aggregateStep_weight p agg r :
  TotalWeight (aggregateStep p agg r) = TotalWeight agg + denominatorTerm p r.
Proof.
  unfold aggregateStep, denominatorTerm. rewrite effectiveWeight_code.
  repeat case_match; simplify_eq; done.
Qed.

Lemma aggregateStep_critical p agg r :
  HasCriticalFailure (aggregateStep p agg r)
  = bool_decide (isFail r) || HasCriticalFailure agg.
Proof.
  unfold aggregateStep, isFail.
  destruct (String.eqb (RuleResult.SubRuleRef r) RuleOutcomeFail) eqn:Hf.
  - apply String.eqb_eq in Hf. rewrite bool_decide_eq_true_2 by done.
    by destruct (UseWeightedScoring p).
  - apply String.eqb_neq in Hf. rewrite bool_decide_eq_false_2 by done.
    repeat case_match; simplify_eq; done.
Qed.

Lemma fold_score p rs agg :
  AggregateScore (fold_left (aggregateStep p) rs agg)
  = AggregateScore agg + f64_sum (numeratorTerm p) rs.
Proof.
  revert agg. induction rs as [|r rs IH]; intros agg; simpl.
  - by rewrite Qcplus_0_r.
  - rewrite IH, aggregateStep_score. by rewrite Qcplus_assoc.
Qed.

Lemma fold_weight p rs agg :
  TotalWeight (fold_left (aggregateStep p) rs agg)
  = TotalWeight agg + f64_sum (denominatorTerm p) rs.
Proof.
  revert agg. induction rs as [|r rs IH]; intros agg; simpl.
  - by rewrite Qcplus_0_r.
  - rewrite IH, aggregateStep_weight. by rewrite Qcplus_assoc.
Qed.

Lemma fold_critical p rs agg :
  HasCriticalFailure (fold_left (aggregateStep p) rs agg) = true
  ↔ HasCriticalFailure agg = true ∨ ∃ r, r ∈ rs ∧ isFail r.
Proof.
  revert agg. induction rs as [|r rs IH]; intros agg; simpl.
  - split; [by left|]. intros [?|(r & Hr & _)]; [done|]. by apply elem_of_nil in Hr.
  - rewrite IH, aggregateStep_critical, orb_true_iff, bool_decide_eq_true.
    split.
    + intros [[Hf|Hc]|(r' & Hin & Hf)]; [right|by left|right].
      * exists r. split; [apply list_elem_of_here|done].
      * exists r'. split; [by apply list_elem_of_further|done].
    + intros [Hc|(r' & Hin & Hf)]; [by left; right|].
      apply elem_of_cons in Hin as [->|Hin]; [by left; left|].
      right. by exists r'.
Qed.

Lemma f64_sum_nonneg {A} (f : A → float64) (l : list A) :
  (∀ x, 0 ≤ f x) → 0 ≤ f64_sum f l.
Proof.
  intros Hf. induction l as [|x l IH]; simpl; [done|].
  by apply Qcplus_nonneg_nonneg.
Qed.

Lemma f64_sum_pos {A} (f : A → float64) (l : list A) :
  (∀ x, 0 < f x) → l ≠ [] → 0 < f64_sum f l.
Proof.
  intros Hf Hl. destruct l as [|x l]; [done|]. simpl.
  apply Qcplus_pos_nonneg; [done|].
  apply f64_sum_nonneg. intros y. by apply Qclt_le_weak.
Qed.

Lemma aggregate_nonempty p rs :
  rs ≠ [] →
  aggregate p rs =
    {| AggregateScore :=
         f64_sum (numeratorTerm p) rs / f64_sum (denominatorTerm p) rs;
       TotalWeight := f64_sum (denominatorTerm p) rs;
       RulesTriggered :=
         RulesTriggered (fold_left (aggregateStep p) rs emptyAggregate);
       HasCriticalFailure :=
         HasCriticalFailure (fold_left (aggregateStep p) rs emptyAggregate) |}.
Proof.
  intros Hne. unfold aggregate.
  rewrite bool_decide_eq_false_2 by (by destruct rs).
  pose proof (f64_sum_pos (denominatorTerm p) rs (denominatorTerm_pos p) Hne) as Hpos.
  rewrite fold_weight, fold_score. simpl. rewrite !Qcplus_0_l.
  apply f64_gt_spec in Hpos as ->. done.
Qed.

Lemma aggregate_critical p rs :
  HasCriticalFailure (aggregate p rs) = true ↔ ∃ r, r ∈ rs ∧ isFail r.
Proof.
  destruct rs as [|r0 rs].
  - simpl. split; [done|]. intros (r & Hr & _). by apply elem_of_nil in Hr.
  - rewrite aggregate_nonempty by done.
    etrans; [apply (fold_critical p (r0 :: rs) emptyAggregate)|].
    simpl. split; [by intros [?|?] | by right].
Qed.

End aggregation.

(** ** The decision *)

Section decision.

Import tadp.

Implicit Types (p : Processor) (input : DecisionInput).

Definition isTriggered (t : TypologyResult.t) : Prop :=
  TypologyResult.Triggered t = true.

(** [m] is the largest element of [l]. *)
Definition isMaxOf (m : float64) (l : list float64) : Prop :=
  m ∈ l ∧ ∀ x, x ∈ l → x ≤ m.

Definition typologyScores input : list float64 :=
  TypologyResult.Score <$> TypologyResults input.

Lemma alert_or_not (b : bool) :
  ((if b then StatusAlert else StatusNoAlert) = StatusAlert ↔ b = true)
  ∧ ((if b then StatusAlert else StatusNoAlert) = StatusNoAlert ↔ b = false).
Proof. by destruct b. Qed.

Lemma scan_triggered ts acc :
  (fold_left typologyScan ts acc).1 = true
  ↔ acc.1 = true ∨ ∃ t, t ∈ ts ∧ isTriggered t.
Proof.
  revert acc. induction ts as [|t ts IH]; intros acc; simpl.
  - split; [by left|]. intros [?|(t & Ht & _)]; [done|]. by apply elem_of_nil in Ht.
  - rewrite IH. unfold typologyScan, isTriggered. simpl. split.
    + intros [Hc|(t' & Hin & Ht)].
      * destruct (TypologyResult.Triggered t) eqn:Htr; [right|by left].
        exists t. split; [apply list_elem_of_here|done].
      * right. exists t'. split; [by apply list_elem_of_further|done].
    + intros [Hc|(t' & Hin & Ht)].
      * left. by destruct (TypologyResult.Triggered t).
      * apply elem_of_cons in Hin as [->|Hin]; [left; by rewrite Ht|].
        right. by exists t'.
Qed.

Lemma scan_max ts acc :
  isMaxOf (fold_left typologyScan ts acc).2 (acc.2 :: (TypologyResult.Score <$> ts)).
Proof.
  revert acc. induction ts as [|t ts IH]; intros acc; simpl.
  - split; [apply list_elem_of_here|].
    intros x ->%list_elem_of_singleton. apply Qcle_refl.
  - destruct (IH (typologyScan acc t)) as [Hin Hub].
    set (m := (fold_left typologyScan ts (typologyScan acc t)).2) in *.
    assert (acc.2 ≤ (typologyScan acc t).2
            ∧ TypologyResult.Score t ≤ (typologyScan acc t).2
            ∧ ((typologyScan acc t).2 = acc.2
               ∨ (typologyScan acc t).2 = TypologyResult.Score t))
      as (Hacc & Ht & Hcase).
    { unfold typologyScan. simpl.
      destruct (f64_gt (TypologyResult.Score t) acc.2) eqn:Hgt.
      - apply f64_gt_spec in Hgt.
        split_and!; [by apply Qclt_le_weak|apply Qcle_refl|by right].
      - apply f64_lt_false in Hgt.
        split_and!; [apply Qcle_refl|done|by left]. }
    assert ((typologyScan acc t).2 ≤ m) as Hstep.
    { apply Hub, list_elem_of_here. }
    split.
    + apply elem_of_cons in Hin as [Heq|Hin].
      * rewrite Heq. destruct Hcase as [->| ->].
        -- apply list_elem_of_here.
        -- apply list_elem_of_further, list_elem_of_here.
      * by do 2 apply list_elem_of_further.
    + intros x Hx. apply elem_of_cons in Hx as [->|Hx].
      { by eapply Qcle_trans. }
      apply elem_of_cons in Hx as [->|Hx].
      { by eapply Qcle_trans. }
      apply Hub. by apply list_elem_of_further.
Qed.

(** C1. Whenever some rule result has outcome [.fail], the evaluation is
    [ALRT]: for every processor (threshold, scoring strategy) and every
    input, with or without typology results, whatever the aggregate score
    and whether or not a typology triggered. *)
Theorem fail_forces_alert p (uuid : string) input :
  (∃ r, r ∈ RuleResults input ∧ isFail r) →
  Evaluation.Status (Process p uuid input) = StatusAlert.
Proof.
  intros Hfail%(aggregate_critical p). unfold Process.
  case_bool_decide; simpl; rewrite Hfail; [by rewrite orb_true_r|done].
Qed.

(** The branch of [Process] taken when typology results are provided. The
    evaluation is [ALRT] exactly when some typology result is triggered or
    some rule result has outcome [.fail]. The score comes out of a scan that
    starts from 0.0 and keeps the larger number: it is the largest of 0 and
    the typology scores, so it is the maximum typology score only when some
    typology score is not negative. *)
Lemma typology_branch p (uuid : string) input :
  TypologyResults input ≠ [] →
  (Evaluation.Status (Process p uuid input) = StatusAlert
   ↔ (∃ t, t ∈ TypologyResults input ∧ isTriggered t)
     ∨ (∃ r, r ∈ RuleResults input ∧ isFail r))
  ∧ isMaxOf (Evaluation.Score (Process p uuid input)) (0 :: typologyScores input)
  ∧ ((∃ t, t ∈ TypologyResults input ∧ 0 ≤ TypologyResult.Score t) →
     isMaxOf (Evaluation.Score (Process p uuid input)) (typologyScores input)).
Proof.
  intros Hne. unfold Process.
  rewrite bool_decide_eq_true_2
    by (destruct (TypologyResults input); [done|simpl; lia]).
  simpl.
  pose proof (scan_max (TypologyResults input) (false, 0)) as [Hin Hub].
  simpl in Hin, Hub. fold (typologyScores input) in Hin, Hub.
  split_and!.
  - rewrite (proj1 (alert_or_not _)), orb_true_iff, scan_triggered.
    rewrite aggregate_critical. simpl. split.
    + intros [[?|?]|?]; [done|by left|by right].
    + intros [?|?]; [left; by right|by right].
  - done.
  - intros (t & Ht & Hpos). split.
    + apply elem_of_cons in Hin as [Heq|Hin]; [|done].
      assert (TypologyResult.Score t ∈ typologyScores input) as Hts.
      { unfold typologyScores. apply list_elem_of_fmap. by exists t. }
      assert (TypologyResult.Score t = 0) as Hz.
      { apply Qcle_antisym; [|done]. rewrite <- Heq.
        apply Hub. by apply list_elem_of_further. }
      rewrite Heq, <- Hz. done.
    + intros x Hx. apply Hub. by apply list_elem_of_further.
Qed.


End decision.

(** ** The decision on concrete inputs *)

Section decision_examples.

Import tadp.

Definition ruleResult (id outcome : string) (score weight : float64) : RuleResult.t :=
  {| RuleResult.RuleID := id; RuleResult.TenantID := "tenant-001";
     RuleResult.TxID := "tx-001"; RuleResult.SubRuleRef := outcome;
     RuleResult.Score := score; RuleResult.Reason := "";
     RuleResult.Weight := weight |}.

Definition typologyResult (id : string) (score threshold : float64) (triggered : bool)
    : TypologyResult.t :=
  {| TypologyResult.TypologyID := id; TypologyResult.TypologyName := "";
     TypologyResult.Score := score; TypologyResult.Threshold := threshold;
     TypologyResult.Triggered := triggered; TypologyResult.Rules := [];
     TypologyResult.Contributions := [] |}.

Definition decisionInput (rs : list RuleResult.t) (ts : list TypologyResult.t)
    : DecisionInput :=
  {| TenantID := "tenant-001"; TxID := "tx-001"; TraceID := "trace-001";
     RuleResults := rs; TypologyResults := ts |}.

(** One critical failure among passing rules (test "CriticalFailure"). *)
Definition criticalResults : list RuleResult.t :=
  [ ruleResult "rule-1" RuleOutcomePass (Q2Qc (1 # 10)) 1;
    ruleResult "rule-2" RuleOutcomeFail 1 1;
    ruleResult "rule-3" RuleOutcomePass (Q2Qc (1 # 10)) 1 ].

(** A heavy low score against a light high score (test "WeightedScoring"). *)
Definition weightedResults : list RuleResult.t :=
  [ ruleResult "rule-1" RuleOutcomeReview 1 1;
    ruleResult "rule-2" RuleOutcomePass (Q2Qc (1 # 10)) (Q2Qc 5) ].

(** A rule without bands scoring 1.0: the outcome is [.pass]. *)
Definition highPassResults : list RuleResult.t :=
  [ ruleResult "test-rule-001" RuleOutcomePass 1 1 ].

(** A typology whose weighted sum is negative, not triggered. *)
Definition negativeTypologies : list TypologyResult.t :=
  [ typologyResult "typo-1" (- (1)) (Q2Qc (1 # 2)) false ].

(** A triggered typology (test "ComplianceModeWithTypologies"). *)
Definition triggeredTypologies : list TypologyResult.t :=
  [ typologyResult "typo-structuring" (Q2Qc (85 # 100)) (Q2Qc (6 # 10)) true ].

Example weighted_aggregate :
  AggregateScore (aggregate NewProcessor weightedResults) = Q2Qc (1 # 4).
Proof. f64_compute. Qed.


Example negative_typology_score :
  Evaluation.Score
    (Process NewProcessor "eval-001" (decisionInput [] negativeTypologies)) = 0.
Proof. f64_compute. Qed.

Lemma fail_forces_alert_witness :
  (∃ r, r ∈ criticalResults ∧ isFail r)
  ∧ Evaluation.Status
      (Process NewProcessor "eval-001" (decisionInput criticalResults triggeredTypologies))
    = StatusAlert.
Proof.
  assert (∃ r, r ∈ criticalResults ∧ isFail r) as Hfail.
  { exists (ruleResult "rule-2" RuleOutcomeFail 1 1). split; [|done].
    apply list_elem_of_further, list_elem_of_here. }
  split; [done|].
  by apply (fail_forces_alert NewProcessor "eval-001"
              (decisionInput criticalResults triggeredTypologies)).
Defined.


(** Three low passing scores (test "AllPass"). *)
Definition lowPassResults : list RuleResult.t :=
  [ ruleResult "rule-1" RuleOutcomePass (Q2Qc (1 # 10)) 1;
    ruleResult "rule-2" RuleOutcomePass (Q2Qc (2 # 10)) 1;
    ruleResult "rule-3" RuleOutcomePass (Q2Qc (1 # 10)) 1 ].


End decision_examples.

(** ** The aggregate score, with rounding *)

Section aggregate_formula.

Context {A : f64.Arith}.

Import scoring.

Implicit Types (p : Processor A) (r : RuleResult.t A) (rs : list (RuleResult.t A)).
Implicit Types (agg : AggregateResult A).

(** The weight a result counts with: 1.0 when its own is [<= 0], its own
    otherwise. *)
Definition countedWeight r : f64.num A :=
  if f64.le (RuleResult.Weight r) f64.zero then f64.one else RuleResult.Weight r.

(** The weight of [r] is a number: it is [<= 0] or [> 0]. (Of a [float64],
    this says that it is not NaN.) *)
Definition numberWeight r : Prop :=
  f64.le (RuleResult.Weight r) f64.zero = true
  ∨ f64.lt f64.zero (RuleResult.Weight r) = true.

(** What a result adds to the numerator and to the denominator. *)
Definition scoreTerm p r : f64.num A :=
  if UseWeightedScoring p then f64.mul (RuleResult.Score r) (countedWeight r)
  else RuleResult.Score r.

Definition weightTerm p r : f64.num A :=
  if UseWeightedScoring p then countedWeight r else f64.one.

Lemma aggregateStep_fields p agg r :
  AggregateScore (aggregateStep p agg r) = f64.add (AggregateScore agg) (scoreTerm p r)
  ∧ TotalWeight (aggregateStep p agg r) = f64.add (TotalWeight agg) (weightTerm p r).
Proof.
  unfold aggregateStep, scoreTerm, weightTerm, countedWeight.
  repeat case_match; simplify_eq; done.
Qed.

Lemma aggregate_fold p rs agg :
  AggregateScore (fold_left (aggregateStep p) rs agg)
  = fold_left (λ total r, f64.add total (scoreTerm p r)) rs (AggregateScore agg)
  ∧ TotalWeight (fold_left (aggregateStep p) rs agg)
    = fold_left (λ total r, f64.add total (weightTerm p r)) rs (TotalWeight agg).
Proof.
  revert agg. induction rs as [|r rs IH]; intros agg; [done|].
  cbn [fold_left]. destruct (IH (aggregateStep p agg r)) as [-> ->].
  by destruct (aggregateStep_fields p agg r) as [-> ->].
Qed.

Lemma lt_zero_zero : f64.Laws A → f64.lt (f64.zero : f64.num A) f64.zero = false.
Proof.
  intros HA. destruct (f64.lt (f64.zero : f64.num A) f64.zero) eqn:Hlt; [|done].
  apply (f64.lt_zero_not_le A HA) in Hlt. by rewrite (f64.le_zero_zero A HA) in Hlt.
Qed.

(** A running sum of positive terms is positive after the first term. *)
Lemma running_sum_pos {X} (f : X → f64.num A) (l : list X) (total : f64.num A) :
  f64.Laws A →
  (∀ x, x ∈ l → f64.lt f64.zero (f x) = true) →
  f64.le f64.zero total = true →
  l ≠ [] →
  f64.lt f64.zero (fold_left (λ total x, f64.add total (f x)) l total) = true.
Proof.
  intros HA. revert total.
  induction l as [|x l IH]; intros total Hf Htotal Hne; [done|].
  cbn [fold_left].
  assert (f64.lt f64.zero (f64.add total (f x)) = true) as Hstep.
  { apply (f64.add_pos A HA); [done|]. apply Hf, list_elem_of_here. }
  destruct l as [|y l]; [done|].
  apply IH; [|by apply (f64.lt_zero_le A HA)|done].
  intros z Hz. by apply Hf, list_elem_of_further.
Qed.

Lemma countedWeight_pos r :
  f64.Laws A → numberWeight r → f64.lt f64.zero (countedWeight r) = true.
Proof.
  intros HA Hnum. unfold countedWeight.
  destruct (f64.le (RuleResult.Weight r) f64.zero) eqn:Hle.
  - apply (f64.lt_zero_one A HA).
  - by destruct Hnum as [Hle'|Hlt]; [rewrite Hle in Hle'|].
Qed.

Lemma weightTerm_pos p r :
  f64.Laws A → numberWeight r → f64.lt f64.zero (weightTerm p r) = true.
Proof.
  intros HA Hnum. unfold weightTerm. destruct (UseWeightedScoring p).
  - by apply countedWeight_pos.
  - apply (f64.lt_zero_one A HA).
Qed.

Lemma denominator_pos p rs :
  f64.Laws A → Forall numberWeight rs → rs ≠ [] →
  f64.lt f64.zero (f64.sum (weightTerm p) rs) = true.
Proof.
  intros HA Hnum Hne. unfold f64.sum.
  apply running_sum_pos; [done| |apply (f64.le_zero_zero A HA)|done].
  intros r Hr. apply weightTerm_pos; [done|].
  by apply (proj1 (Forall_forall _ _) Hnum).
Qed.

(** The aggregate of a non-empty list whose running weight ends positive:
    the two running sums, divided. *)
Lemma aggregate_divides p rs :
  rs ≠ [] →
  f64.lt f64.zero (f64.sum (weightTerm p) rs) = true →
  AggregateScore (aggregate p rs)
  = f64.div (f64.sum (scoreTerm p) rs) (f64.sum (weightTerm p) rs)
  ∧ TotalWeight (aggregate p rs) = f64.sum (weightTerm p) rs.
Proof.
  intros Hne Hpos. unfold aggregate.
  rewrite bool_decide_eq_false_2 by (by destruct rs).
  destruct (aggregate_fold p rs emptyAggregate) as [Hs Hw].
  cbn [emptyAggregate AggregateScore TotalWeight] in Hs, Hw.
  fold (f64.sum (scoreTerm p) rs) in Hs. fold (f64.sum (weightTerm p) rs) in Hw.
  cbv zeta. unfold f64.gt. rewrite Hw, Hpos. cbn [AggregateScore TotalWeight].
  by rewrite Hs.
Qed.

(** C3. For every non-empty list of rule results (whose weights are numbers)
    the aggregate score is (Σ score·w) / (Σ w) under weighted scoring, with
    w the weight of the result when it is positive and 1.0 when it is not, and
    (Σ score) / (Σ 1.0), the plain mean, under unweighted scoring; each Σ is
    the sum the loop accumulates, term after term from 0.0. The denominator
    of a non-empty list is positive. Whenever the denominator is 0 the
    aggregate is 0: this is the empty list, on which both are 0. The
    statement holds in every arithmetic that satisfies [f64.Laws], rounded or
    not. *)
Theorem aggregate_score_formula p rs :
  f64.Laws A →
  Forall numberWeight rs →
  (∀ r, r ∈ rs →
     (f64.lt f64.zero (RuleResult.Weight r) = true → countedWeight r = RuleResult.Weight r)
     ∧ (f64.le (RuleResult.Weight r) f64.zero = true → countedWeight r = f64.one))
  ∧ (rs ≠ [] → UseWeightedScoring p = true →
     AggregateScore (aggregate p rs)
     = f64.div (f64.sum (λ r, f64.mul (RuleResult.Score r) (countedWeight r)) rs)
               (f64.sum countedWeight rs)
     ∧ TotalWeight (aggregate p rs) = f64.sum countedWeight rs)
  ∧ (rs ≠ [] → UseWeightedScoring p = false →
     AggregateScore (aggregate p rs)
     = f64.div (f64.sum RuleResult.Score rs) (f64.sum (λ _, f64.one) rs)
     ∧ TotalWeight (aggregate p rs) = f64.sum (λ _, f64.one) rs)
  ∧ (rs ≠ [] → f64.lt f64.zero (TotalWeight (aggregate p rs)) = true)
  ∧ (TotalWeight (aggregate p rs) = f64.zero →
     AggregateScore (aggregate p rs) = f64.zero)
  ∧ (rs = [] →
     TotalWeight (aggregate p rs) = f64.zero
     ∧ AggregateScore (aggregate p rs) = f64.zero).
Proof.
  intros HA Hnum.
  assert (rs ≠ [] →
          AggregateScore (aggregate p rs)
          = f64.div (f64.sum (scoreTerm p) rs) (f64.sum (weightTerm p) rs)
          ∧ TotalWeight (aggregate p rs) = f64.sum (weightTerm p) rs
          ∧ f64.lt f64.zero (TotalWeight (aggregate p rs)) = true) as Hform.
  { intros Hne. pose proof (denominator_pos p rs HA Hnum Hne) as Hpos.
    destruct (aggregate_divides p rs Hne Hpos) as [Hs Hw].
    split_and!; [done|done|by rewrite Hw]. }
  split_and!.
  - intros r _. unfold countedWeight. split.
    + intros Hpos. by rewrite (f64.lt_zero_not_le A HA _ Hpos).
    + by intros ->.
  - intros Hne Hw. destruct (Hform Hne) as (Hs & Ht & _).
    unfold scoreTerm, weightTerm in Hs, Ht. by rewrite Hw in Hs, Ht.
  - intros Hne Hw. destruct (Hform Hne) as (Hs & Ht & _).
    unfold scoreTerm, weightTerm in Hs, Ht. by rewrite Hw in Hs, Ht.
  - intros Hne. by destruct (Hform Hne) as (_ & _ & Hpos).
  - intros Hz. destruct rs as [|r rs]; [done|].
    destruct (Hform ltac:(done)) as (_ & _ & Hpos).
    rewrite Hz, (lt_zero_zero HA) in Hpos. done.
  - by intros ->.
Qed.

End aggregate_formula.

(** *** The exact arithmetic is an instance *)

Section exact_arithmetic.

Import tadp.

Lemma exact_laws : f64.Laws f64.exact.
Proof.
  split.
  - done.
  - done.
  - intros x Hx. apply f64_lt_spec in Hx. apply f64_le_spec. by apply Qclt_le_weak.
  - intros x Hx. apply f64_lt_spec in Hx. apply f64_le_false. done.
  - intros total x Ht Hx. apply f64_le_spec in Ht. apply f64_lt_spec in Hx.
    apply f64_lt_spec. change (0 < total + x). rewrite Qcplus_comm.
    by apply Qcplus_pos_nonneg.
Qed.

(** In the exact arithmetic the running sum is the mathematical one. *)
Lemma sum_exact {X} (f : X → float64) (l : list X) :
  f64.sum (A := f64.exact) f l = f64_sum f l.
Proof.
  unfold f64.sum.
  assert (∀ total : float64,
            fold_left (λ total x, f64.add (A := f64.exact) total (f x)) l total
            = total + f64_sum f l) as Hfold.
  { induction l as [|x l IH]; intros total; cbn [fold_left f64_sum].
    - by rewrite Qcplus_0_r.
    - rewrite IH. cbn [f64.add f64.exact]. by rewrite Qcplus_assoc. }
  rewrite Hfold. apply Qcplus_0_l.
Qed.

(** [tadp.aggregate] is [scoring.aggregate] in the exact arithmetic. *)
Lemma aggregate_exact p rs :
  scoring.ofAggregate (aggregate p rs)
  = scoring.aggregate (scoring.ofProcessor p) (scoring.ofRuleResult <$> rs).
Proof.
  assert (∀ agg, scoring.ofAggregate (fold_left (aggregateStep p) rs agg)
                 = fold_left (scoring.aggregateStep (scoring.ofProcessor p))
                     (scoring.ofRuleResult <$> rs) (scoring.ofAggregate agg)) as Hfold.
  { induction rs as [|r rs IH]; intros agg; [done|].
    cbn [fold_left fmap list_fmap]. rewrite IH. f_equal.
    unfold aggregateStep, scoring.aggregateStep. cbn.
    repeat case_match; simplify_eq; done. }
  unfold aggregate, scoring.aggregate. rewrite length_fmap.
  case_bool_decide; [done|].
  cbv zeta.
  change (@scoring.emptyAggregate f64.exact) with (scoring.ofAggregate emptyAggregate).
  rewrite <- (Hfold emptyAggregate).
  destruct (fold_left (aggregateStep p) rs emptyAggregate) as [s w n c]; cbn.
  unfold f64_gt. by destruct (f64_lt (Q2Qc 0) w).
Qed.

End exact_arithmetic.

(** *** binary64 is an instance

    The laws for the primitive floats, from the specification of their
    operations ([FloatAxioms], over [SpecFloat]). *)

Section binary64_arithmetic.

Import SpecFloat.

Local Open Scope Z_scope.

Abbreviation prec := FloatOps.prec.
Abbreviation emax := FloatOps.emax.

(** The mantissa of a shift record is positive and has [k] binary digits. *)
Definition digitsOf (k : Z) (mrs : shr_record) : Prop :=
  ∃ q, shr_m mrs = Zpos q ∧ Zpos (digits2_pos q) = k.

Lemma shr_1_digits k mrs : digitsOf k mrs → 1 < k → digitsOf (k - 1) (shr_1 mrs).
Proof.
  intros (q & Hm & Hk) Hlt. destruct mrs as [m r s]. cbn in Hm. subst m.
  destruct q as [q|q|]; cbn in Hk.
  - exists q. cbn. split; [done|]. lia.
  - exists q. cbn. split; [done|]. lia.
  - lia.
Qed.

Lemma iter_shr_1_digits p : ∀ k mrs,
  digitsOf k mrs → Zpos p < k → digitsOf (k - Zpos p) (iter_pos shr_1 p mrs).
Proof.
  induction p as [p IH|p IH|]; intros k mrs Hd Hlt; cbn [iter_pos].
  - replace (k - Zpos p~1) with (k - 1 - Zpos p - Zpos p) by lia.
    apply IH; [|lia]. apply IH; [|lia]. apply shr_1_digits; [done|lia].
  - replace (k - Zpos p~0) with (k - Zpos p - Zpos p) by lia.
    apply IH; [|lia]. apply IH; [done|lia].
  - apply shr_1_digits; [done|lia].
Qed.

(** Shifting a positive mantissa into the format leaves a positive mantissa,
    as long as the exponent is not below [emin]: at most the digits beyond
    the precision are shifted out. *)
Lemma shr_fexp_pos (m : positive) (e : Z) (l : location) :
  emin prec emax ≤ e →
  ∃ q, shr_m (shr_fexp prec emax (Zpos m) e l).1 = Zpos q
       ∧ emin prec emax ≤ (shr_fexp prec emax (Zpos m) e l).2.
Proof.
  intros He. unfold shr_fexp, shr.
  assert (shr_m (shr_record_of_loc (Zpos m) l) = Zpos m) as Hm.
  { by destruct l as [|[]]. }
  destruct (fexp prec emax (Zdigits2 (Zpos m) + e) - e) as [|p|p] eqn:Hn; cbn [fst snd].
  - eauto.
  - assert (Zpos p = Zpos (digits2_pos m) - prec) as Hp.
    { unfold fexp in Hn. cbn [Zdigits2] in Hn. lia. }
    destruct (iter_shr_1_digits p (Zpos (digits2_pos m)) (shr_record_of_loc (Zpos m) l))
      as (q & Hq & _).
    + by exists m.
    + rewrite Hp. assert (0 < prec) by done. lia.
    + exists q. split; [done|]. lia.
  - eauto.
Qed.

Lemma round_nearest_even_pos (q : positive) l :
  ∃ q', round_nearest_even (Zpos q) l = Zpos q'.
Proof.
  destruct l as [|[]]; cbn [round_nearest_even]; try destruct (Z.even _);
    try (by eexists); exists (q + 1)%positive; lia.
Qed.

(** A positive number or plus infinity. *)
Definition positiveSF (x : spec_float) : Prop :=
  (∃ m e, x = S754_finite false m e) ∨ x = S754_infinity false.

Lemma binary_round_aux_pos (m : positive) (e : Z) (l : location) :
  emin prec emax ≤ e → positiveSF (binary_round_aux prec emax false (Zpos m) e l).
Proof.
  intros He. unfold binary_round_aux.
  destruct (shr_fexp_pos m e l He) as (q & Hq & He').
  destruct (shr_fexp prec emax (Zpos m) e l) as [mrs' e'] eqn:H1. cbn [fst snd] in *.
  rewrite Hq. destruct (round_nearest_even_pos q (loc_of_shr_record mrs')) as (q' & ->).
  destruct (shr_fexp_pos q' e' loc_Exact He') as (q'' & Hq'' & _).
  destruct (shr_fexp prec emax (Zpos q') e' loc_Exact) as [mrs'' e''] eqn:H2.
  cbn [fst snd] in *. rewrite Hq''.
  destruct (e'' <=? emax - prec); [left; eauto|by right].
Qed.

Lemma binary_round_pos (m : positive) (e : Z) :
  emin prec emax ≤ e → positiveSF (binary_round prec emax false m e).
Proof.
  intros He. unfold binary_round.
  destruct (shl_align m e (fexp prec emax (Zpos (digits2_pos m) + e))) as [mz ez] eqn:Hs.
  apply binary_round_aux_pos.
  unfold shl_align in Hs.
  destruct (fexp prec emax (Z.pos (digits2_pos m) + e) - e) eqn:Hd; simplify_eq; try done.
  unfold fexp. lia.
Qed.

Lemma valid_emin s m e :
  valid_binary prec emax (S754_finite s m e) = true → emin prec emax ≤ e.
Proof.
  cbn. unfold bounded, canonical_mantissa, fexp.
  intros [H1 _]%andb_prop. apply Z.eqb_eq in H1. lia.
Qed.

(** The rounded sum of a number that is not negative and a positive number
    is positive. *)
Lemma SFadd_pos (x y : spec_float) :
  valid_binary prec emax x = true → valid_binary prec emax y = true →
  SFleb (S754_zero false) x = true → SFltb (S754_zero false) y = true →
  SFltb (S754_zero false) (SFadd prec emax x y) = true.
Proof.
  intros Hvx Hvy Hx Hy.
  destruct x as [sx|[]| |[] mx ex]; try done;
    destruct y as [sy|[]| |[] my ey]; try done.
  apply valid_emin in Hvx, Hvy.
  unfold SFadd, cond_Zopp.
  set (ez := Z.min ex ey).
  change (Zpos (shl_align mx ex ez).1 + Zpos (shl_align my ey ez).1)
    with (Zpos ((shl_align mx ex ez).1 + (shl_align my ey ez).1)).
  cbn [binary_normalize].
  destruct (binary_round_pos ((shl_align mx ex ez).1 + (shl_align my ey ez).1) ez)
    as [(m & e & ->)| ->]; [unfold ez; lia|done|done].
Qed.

Lemma binary64_laws : f64.Laws f64.binary64.
Proof.
  split; cbn [f64.le f64.lt f64.add f64.zero f64.one f64.binary64 f64.num].
  - done.
  - done.
  - intros x. rewrite FloatAxioms.ltb_spec, FloatAxioms.leb_spec.
    change (FloatOps.Prim2SF PrimFloat.zero) with (S754_zero false).
    destruct (FloatOps.Prim2SF x) as [[]|[]| |[] m e]; cbn; congruence.
  - intros x. rewrite FloatAxioms.ltb_spec, FloatAxioms.leb_spec.
    change (FloatOps.Prim2SF PrimFloat.zero) with (S754_zero false).
    destruct (FloatOps.Prim2SF x) as [[]|[]| |[] m e]; cbn; congruence.
  - intros total x.
    rewrite !FloatAxioms.ltb_spec, FloatAxioms.leb_spec, FloatAxioms.add_spec.
    change (FloatOps.Prim2SF PrimFloat.zero) with (S754_zero false).
    apply SFadd_pos; apply FloatAxioms.Prim2SF_valid.
Qed.

End binary64_arithmetic.

(** *** The aggregate score on concrete inputs *)

Section aggregate_examples.

Import scoring.
Import PrimFloat.

#[local] Set Warnings "-inexact-float".

(** Three results of score 0.7 in binary64. *)
Definition threeSevenths (weight : float) : list (RuleResult.t f64.binary64) :=
  [ RuleResult.mk (A := f64.binary64) "rule-1" RuleOutcomePass 0.7%float weight;
    RuleResult.mk (A := f64.binary64) "rule-2" RuleOutcomePass 0.7%float weight;
    RuleResult.mk (A := f64.binary64) "rule-3" RuleOutcomePass 0.7%float weight ].

Definition processor64 (weighted : bool) : Processor f64.binary64 :=
  mkProcessor (A := f64.binary64) 0.7%float weighted.

Lemma weights_are_numbers : Forall numberWeight (threeSevenths 0%float).
Proof. repeat constructor; by left. Qed.

Lemma aggregate_score_formula_witness :
  f64.Laws f64.binary64
  ∧ Forall numberWeight (threeSevenths 0%float)
  ∧ AggregateScore (aggregate (processor64 true) (threeSevenths 0%float))
    = f64.div
        (f64.sum (λ r, f64.mul (RuleResult.Score r) (countedWeight r))
           (threeSevenths 0%float))
        (f64.sum countedWeight (threeSevenths 0%float)).
Proof.
  split_and!; [apply binary64_laws|apply weights_are_numbers|].
  destruct (aggregate_score_formula (processor64 true) (threeSevenths 0%float)
              binary64_laws weights_are_numbers) as (_ & Hweighted & _).
  by destruct Hweighted as [Hscore _].
Defined.

(** In binary64 the mean of three scores 0.7 is the quotient of the two
    running sums, 0.6999999999999998: it is below 0.7. *)
Example rounded_mean :
  AggregateScore (aggregate (processor64 false) (threeSevenths 1%float))
  = f64.div (f64.sum RuleResult.Score (threeSevenths 1%float))
            (f64.sum (λ _, f64.one) (threeSevenths 1%float))
  ∧ AggregateScore (aggregate (processor64 false) (threeSevenths 1%float))
    = 0.6999999999999998%float
  ∧ f64.lt (AggregateScore (aggregate (processor64 false) (threeSevenths 1%float)))
           0.7%float = true.
Proof. by vm_compute. Qed.

(** The same under weighted scoring, a weight of 0 counting as 1.0. *)
Example rounded_weighted_mean :
  AggregateScore (aggregate (processor64 true) (threeSevenths 0%float))
  = f64.div (f64.sum (λ r, f64.mul (RuleResult.Score r) (countedWeight r))
               (threeSevenths 0%float))
            (f64.sum countedWeight (threeSevenths 0%float))
  ∧ AggregateScore (aggregate (processor64 true) (threeSevenths 0%float))
    = 0.6999999999999998%float
  ∧ TotalWeight (aggregate (processor64 true) (threeSevenths 0%float)) = 3%float.
Proof. by vm_compute. Qed.

(** In binary64 the aggregate depends on the order of the results: the
    scores 0.1, 0.2, 0.3 aggregate to 0.20000000000000004, the same scores
    in the opposite order to a smaller number. *)
Definition ascending : list (RuleResult.t f64.binary64) :=
  [ RuleResult.mk (A := f64.binary64) "rule-1" RuleOutcomePass 0.1%float 1%float;
    RuleResult.mk (A := f64.binary64) "rule-2" RuleOutcomePass 0.2%float 1%float;
    RuleResult.mk (A := f64.binary64) "rule-3" RuleOutcomePass 0.3%float 1%float ].

Example rounded_order_matters :
  AggregateScore (aggregate (processor64 true) ascending) = 0.20000000000000004%float
  ∧ f64.lt (AggregateScore (aggregate (processor64 true) (reverse ascending)))
           (AggregateScore (aggregate (processor64 true) ascending)) = true.
Proof. by vm_compute. Qed.

End aggregate_examples.

(** ** The rule scores a typology reads *)

Section typology.

Import rules.

Implicit Types (T : Typology.t) (R : list RuleResult.t) (id : string).
Implicit Types (scores : gmap string float64).

(** The score recorded for rule [id] in [R]: that of the last result
    carrying this id, if any. *)
Definition lastScore R id : option float64 :=
  RuleResult.Score <$> last (filter (λ r, RuleResult.RuleID r = id) R).

Lemma ruleScoresOf_snoc R r :
  ruleScoresOf (R ++ [r])
  = <[RuleResult.RuleID r := RuleResult.Score r]> (ruleScoresOf R).
Proof. unfold ruleScoresOf. by rewrite fold_left_app. Qed.

Lemma ruleScoresOf_lookup R id : ruleScoresOf R !! id = lastScore R id.
Proof.
  induction R as [|r R IH] using rev_ind; [done|].
  rewrite ruleScoresOf_snoc. unfold lastScore in *. rewrite filter_app.
  destruct (decide (RuleResult.RuleID r = id)) as [Heq|Hne].
  - rewrite filter_cons_True, filter_nil by done. rewrite last_snoc.
    rewrite Heq. by rewrite lookup_insert_eq.
  - rewrite filter_cons_False, filter_nil by done. rewrite app_nil_r.
    by rewrite lookup_insert_ne.
Qed.

End typology.

(** *** Typologies and rule results of the tests *)

Section typology_examples.

Import rules.

Definition structuring (threshold : float64) : Typology.t :=
  {| Typology.ID := "structuring"; Typology.TenantID := "*";
     Typology.Name := "Structuring"; Typology.Description := "";
     Typology.Version := "1.0.0";
     Typology.Rules :=
       [ {| TypologyRuleWeight.RuleID := "structuring-001";
            TypologyRuleWeight.Weight := Q2Qc (1 # 2) |};
         {| TypologyRuleWeight.RuleID := "round-amount-001";
            TypologyRuleWeight.Weight := Q2Qc (3 # 10) |};
         {| TypologyRuleWeight.RuleID := "velocity-check-001";
            TypologyRuleWeight.Weight := Q2Qc (2 # 10) |} ];
     Typology.AlertThreshold := threshold;
     Typology.Enabled := true |}.

(** Results of a rule no typology lists (test "Unknown rules - no impact"). *)
Definition unknownResults : list RuleResult.t :=
  [ ruleResult "unknown-rule" RuleOutcomePass 1 1 ].

(** Two of the three structuring rules fire (test "Structuring triggers"). *)
Definition structuringResults : list RuleResult.t :=
  [ ruleResult "structuring-001" RuleOutcomePass (Q2Qc (9 # 10)) 1;
    ruleResult "round-amount-001" RuleOutcomePass (Q2Qc (3 # 10)) 1 ].

End typology_examples.

(** ** The reported score when every typology score is negative *)

Section negative_scores.

Import rules tadp.

(** A rule whose expression evaluates to -1.0; no band starts below 0.0, so
    its outcome is [.pass]. *)
Definition refundResults : list RuleResult.t :=
  [ ruleResult "refund-001" RuleOutcomePass (- (1)) 1 ].

(** A typology that lists this rule alone, with weight 1.0. *)
Definition refundTypology : Typology.t :=
  {| Typology.ID := "refund-abuse"; Typology.TenantID := "*";
     Typology.Name := "Refund abuse"; Typology.Description := "";
     Typology.Version := "1.0.0";
     Typology.Rules :=
       [ {| TypologyRuleWeight.RuleID := "refund-001";
            TypologyRuleWeight.Weight := 1 |} ];
     Typology.AlertThreshold := Q2Qc (1 # 2);
     Typology.Enabled := true |}.

Definition refundEngine : TypologyEngine :=
  LoadTypologies NewTypologyEngine [refundTypology].

(** What the handler passes to the processor for these rule results. *)
Definition refundInput : DecisionInput :=
  decisionInput refundResults (EvaluateTypologies refundEngine refundResults).

(** C4, on the code. The typology engine gives the one typology the score
    -1 × 1 = -1, not triggered. The processor is given this typology result,
    so the maximum typology score is -1; it reports the score 0, which is
    the score of no typology result. (The status is as the claim says: no
    typology is triggered, no rule failed, and the evaluation is [NALT].) *)
Theorem typology_score_not_maximum :
  TypologyResults refundInput ≠ []
  ∧ typologyScores refundInput = [ - (1) ]
  ∧ (∀ t, t ∈ TypologyResults refundInput → ¬ isTriggered t)
  ∧ Evaluation.Status (Process NewProcessor "eval-001" refundInput) = StatusNoAlert
  ∧ Evaluation.Score (Process NewProcessor "eval-001" refundInput) = 0
  ∧ isMaxOf (- (1)) (typologyScores refundInput)
  ∧ ¬ isMaxOf (Evaluation.Score (Process NewProcessor "eval-001" refundInput))
        (typologyScores refundInput).
Proof.
  assert (typologyScores refundInput = [ - (1) ]) as Hscores.
  { unfold typologyScores. vm_compute fmap. reflexivity. }
  assert (Evaluation.Score (Process NewProcessor "eval-001" refundInput) = 0) as Hzero.
  { f64_compute. }
  split_and!.
  - by vm_compute.
  - done.
  - intros t Ht. vm_compute in Ht.
    apply list_elem_of_singleton in Ht as ->. by vm_compute.
  - by vm_compute.
  - done.
  - rewrite Hscores. split; [apply list_elem_of_here|].
    intros x ->%list_elem_of_singleton. apply Qcle_refl.
  - rewrite Hscores, Hzero. intros [Hin _].
    apply list_elem_of_singleton in Hin. by apply (f_equal this) in Hin.
Qed.

End negative_scores.

(** ** Typology evaluation, with rounding *)

Section typology_formula.

Context {A : f64.Arith}.

Import scoring.

Implicit Types (T : Typology.t A) (R : list (RuleResult.t A)) (id : string).
Implicit Types (rw : TypologyRuleWeight.t A).

(** The score recorded for rule [id] in [R]: that of the last result
    carrying this id, if any. *)
Definition recordedScore R id : option (f64.num A) :=
  RuleResult.Score <$> last (filter (λ r, RuleResult.RuleID r = id) R).

(** Rule [id] was evaluated: it appears in [R]. *)
Definition evaluatedIn R id : Prop := id ∈ RuleResult.RuleID <$> R.

#[local] Instance evaluatedIn_dec R id : Decision (evaluatedIn R id).
Proof. unfold evaluatedIn. apply _. Defined.

(** The rules listed in [T] that appear in [R], in the order of [T]. *)
Definition countedRules T R : list (TypologyRuleWeight.t A) :=
  filter (λ rw, evaluatedIn R (TypologyRuleWeight.RuleID rw)) (Typology.Rules T).

Definition scoreFor R rw : f64.num A :=
  default f64.zero (recordedScore R (TypologyRuleWeight.RuleID rw)).

(** The contribution record of a listed rule. *)
Definition contributionFor R rw : RuleContribution.t A :=
  {| RuleContribution.RuleID := TypologyRuleWeight.RuleID rw;
     RuleContribution.RuleScore := scoreFor R rw;
     RuleContribution.Weight := TypologyRuleWeight.Weight rw;
     RuleContribution.Contribution :=
       f64.mul (scoreFor R rw) (TypologyRuleWeight.Weight rw) |}.

Lemma ruleScores_snoc R (r : RuleResult.t A) :
  ruleScoresOf (R ++ [r])
  = <[RuleResult.RuleID r := RuleResult.Score r]> (ruleScoresOf R).
Proof. unfold ruleScoresOf. by rewrite fold_left_app. Qed.

Lemma ruleScores_lookup R id : ruleScoresOf R !! id = recordedScore R id.
Proof.
  induction R as [|r R IH] using rev_ind; [done|].
  rewrite ruleScores_snoc. unfold recordedScore in *. rewrite filter_app.
  destruct (decide (RuleResult.RuleID r = id)) as [Heq|Hne].
  - rewrite filter_cons_True, filter_nil by done. rewrite last_snoc.
    rewrite Heq. by rewrite lookup_insert_eq.
  - rewrite filter_cons_False, filter_nil by done. rewrite app_nil_r.
    by rewrite lookup_insert_ne.
Qed.

Lemma recordedScore_is_Some R id : is_Some (recordedScore R id) ↔ evaluatedIn R id.
Proof.
  unfold recordedScore, evaluatedIn. rewrite fmap_is_Some, last_is_Some.
  rewrite list_elem_of_fmap. split.
  - intros Hne.
    destruct (filter (λ r, RuleResult.RuleID r = id) R) as [|r l] eqn:Hf; [done|].
    assert (r ∈ filter (λ r, RuleResult.RuleID r = id) R) as Hr.
    { rewrite Hf. apply list_elem_of_here. }
    apply list_elem_of_filter in Hr as [Hid Hr]. by exists r.
  - intros (r & -> & Hr) Hnil.
    by apply (filter_nil_not_elem_of _ _ r Hnil).
Qed.

Lemma recordedScore_from R id s :
  recordedScore R id = Some s →
  ∃ r, r ∈ R ∧ RuleResult.RuleID r = id ∧ RuleResult.Score r = s.
Proof.
  unfold recordedScore. intros (r & Hlast & ->)%fmap_Some.
  apply last_Some_elem_of, list_elem_of_filter in Hlast as [Hid Hr].
  by exists r.
Qed.

(** The loop of [evaluateTypology], from any running total and any list of
    contributions: the rules that were not evaluated add nothing, the others
    add their product to the running total, in the order of the typology. *)
Lemma typology_running_sum R (rws : list (TypologyRuleWeight.t A)) total contribs :
  fold_left (typologyStep (ruleScoresOf R)) rws (total, contribs)
  = (fold_left
       (λ total rw, f64.add total (f64.mul (scoreFor R rw) (TypologyRuleWeight.Weight rw)))
       (filter (λ rw, evaluatedIn R (TypologyRuleWeight.RuleID rw)) rws) total,
     contribs
     ++ (contributionFor R
           <$> filter (λ rw, evaluatedIn R (TypologyRuleWeight.RuleID rw)) rws)).
Proof.
  revert total contribs. induction rws as [|rw rws IH]; intros total contribs.
  - cbn. by rewrite app_nil_r.
  - cbn [fold_left]. unfold typologyStep at 2. rewrite ruleScores_lookup.
    destruct (recordedScore R (TypologyRuleWeight.RuleID rw)) as [s|] eqn:Hs.
    + assert (evaluatedIn R (TypologyRuleWeight.RuleID rw)) as Happ.
      { apply recordedScore_is_Some. by rewrite Hs. }
      assert (scoreFor R rw = s) as Hscore.
      { unfold scoreFor. by rewrite Hs. }
      rewrite filter_cons_True by done. cbn [fst snd]. rewrite IH.
      cbn [fold_left fmap list_fmap]. unfold contributionFor at 2.
      rewrite Hscore. by rewrite <- app_assoc.
    + assert (¬ evaluatedIn R (TypologyRuleWeight.RuleID rw)) as Happ.
      { rewrite <- recordedScore_is_Some, Hs. by intros [? ?]. }
      rewrite filter_cons_False by done. apply IH.
Qed.

Lemma evaluateTypology_formula T R :
  evaluateTypology T (ruleScoresOf R) =
    let score :=
      f64.sum (λ rw, f64.mul (scoreFor R rw) (TypologyRuleWeight.Weight rw))
        (countedRules T R) in
    {| TypologyResult.TypologyID := Typology.ID T;
       TypologyResult.TypologyName := Typology.Name T;
       TypologyResult.Score := score;
       TypologyResult.Threshold := Typology.AlertThreshold T;
       TypologyResult.Triggered := f64.ge score (Typology.AlertThreshold T);
       TypologyResult.Contributions := contributionFor R <$> countedRules T R |}.
Proof. unfold evaluateTypology. by rewrite typology_running_sum. Qed.

(** C5. [Evaluate] returns one result per loaded typology, each computed by
    [evaluateTypology]. The result for typology [T] has as score the sum of
    rule_score × weight over exactly the rules listed in [T] that appear in
    the rule results, added in the order of [T] (a listed rule that is absent
    is skipped: nothing is added for it), the rule score being one carried by
    a result of that rule; it records one contribution per included rule; and
    [triggered] is [score >= alert threshold]. In particular, when no listed
    rule appears, the score is 0, no contribution is recorded, and [triggered]
    is false, the alert threshold of a typology being positive. The statement
    holds in every arithmetic that satisfies [f64.Laws], rounded or not. *)
Theorem typology_evaluation (e : TypologyEngine A) T R :
  f64.Laws A →
  (∀ res, res ∈ EvaluateTypologies e R
          ↔ ∃ id T', typologies e !! id = Some T'
                     ∧ res = evaluateTypology T' (ruleScoresOf R))
  ∧ length (EvaluateTypologies e R) = size (typologies e)
  ∧ TypologyResult.Score (evaluateTypology T (ruleScoresOf R))
    = f64.sum (λ rw, f64.mul (scoreFor R rw) (TypologyRuleWeight.Weight rw))
        (countedRules T R)
  ∧ (∀ rw, rw ∈ countedRules T R
           ↔ rw ∈ Typology.Rules T ∧ evaluatedIn R (TypologyRuleWeight.RuleID rw))
  ∧ (∀ rw, rw ∈ countedRules T R →
           ∃ r, r ∈ R ∧ RuleResult.RuleID r = TypologyRuleWeight.RuleID rw
                ∧ RuleResult.Score r = scoreFor R rw)
  ∧ TypologyResult.Contributions (evaluateTypology T (ruleScoresOf R))
    = contributionFor R <$> countedRules T R
  ∧ TypologyResult.Triggered (evaluateTypology T (ruleScoresOf R))
    = f64.ge (TypologyResult.Score (evaluateTypology T (ruleScoresOf R)))
             (Typology.AlertThreshold T)
  ∧ ((∀ rw, rw ∈ Typology.Rules T → ¬ evaluatedIn R (TypologyRuleWeight.RuleID rw)) →
     TypologyResult.Score (evaluateTypology T (ruleScoresOf R)) = f64.zero
     ∧ TypologyResult.Contributions (evaluateTypology T (ruleScoresOf R)) = []
     ∧ (f64.lt f64.zero (Typology.AlertThreshold T) = true →
        TypologyResult.Triggered (evaluateTypology T (ruleScoresOf R)) = false)).
Proof.
  intros HA. rewrite evaluateTypology_formula. cbv zeta.
  cbn [TypologyResult.Score TypologyResult.Contributions TypologyResult.Triggered].
  split_and!.
  - intros res. unfold EvaluateTypologies. case_bool_decide as Hsz.
    + apply map_size_empty_iff in Hsz. rewrite Hsz. split.
      * by intros ?%elem_of_nil.
      * intros (id & T' & Hl & _). by rewrite lookup_empty in Hl.
    + rewrite list_elem_of_fmap. split.
      * intros ([id T'] & -> & Hin%elem_of_map_to_list). by exists id, T'.
      * intros (id & T' & Hl & ->). exists (id, T'). split; [done|].
        by apply elem_of_map_to_list.
  - unfold EvaluateTypologies. case_bool_decide as Hsz.
    + by rewrite Hsz.
    + by rewrite length_fmap, length_map_to_list.
  - done.
  - intros rw. unfold countedRules. rewrite list_elem_of_filter. tauto.
  - intros rw [Happ _]%list_elem_of_filter.
    apply recordedScore_is_Some in Happ as [s Hs].
    destruct (recordedScore_from _ _ _ Hs) as (r & Hr & Hid & Hsc).
    exists r. split_and!; [done..|]. unfold scoreFor. by rewrite Hs.
  - done.
  - done.
  - intros Hnone.
    assert (countedRules T R = []) as ->.
    { unfold countedRules. destruct (filter _ _) as [|rw l] eqn:Hf; [done|].
      assert (rw ∈ filter (λ rw, evaluatedIn R (TypologyRuleWeight.RuleID rw))
                     (Typology.Rules T)) as Hrw.
      { rewrite Hf. apply list_elem_of_here. }
      apply list_elem_of_filter in Hrw as [Happ Hin]. by destruct (Hnone rw). }
    split_and!; [done|done|].
    intros Hpos. unfold f64.ge, f64.sum. cbn [fold_left].
    by apply (f64.lt_zero_not_le A HA).
Qed.

End typology_formula.

(** *** The exact arithmetic is an instance *)

Section exact_typology.

Import rules.

Lemma ruleScoresOf_exact (R : list RuleResult.t) :
  scoring.ruleScoresOf (scoring.ofRuleResult <$> R) = ruleScoresOf R.
Proof.
  unfold scoring.ruleScoresOf, ruleScoresOf.
  assert (∀ m : gmap string float64,
            fold_left
              (λ m (r : scoring.RuleResult.t f64.exact),
                 <[scoring.RuleResult.RuleID r := scoring.RuleResult.Score r]> m)
              (scoring.ofRuleResult <$> R) m
            = fold_left (λ m r, <[RuleResult.RuleID r := RuleResult.Score r]> m) R m)
    as Hfold; [|apply Hfold].
  induction R as [|r R IH]; intros m; [done|].
  cbn [fmap list_fmap fold_left]. apply IH.
Qed.

(** [rules.evaluateTypology] is [scoring.evaluateTypology] in the exact
    arithmetic. *)
Lemma evaluateTypology_exact (T : Typology.t) (ruleScores : gmap string float64) :
  scoring.ofTypologyResult (evaluateTypology T ruleScores)
  = scoring.evaluateTypology (scoring.ofTypology T) ruleScores.
Proof.
  assert (∀ rws (acc : float64 * list RuleContribution.t),
            fold_left (scoring.typologyStep (A := f64.exact) ruleScores)
              (scoring.ofRuleWeight <$> rws) (acc.1, scoring.ofContribution <$> acc.2)
            = ((fold_left (typologyStep ruleScores) rws acc).1,
               scoring.ofContribution <$> (fold_left (typologyStep ruleScores) rws acc).2))
    as Hfold.
  { induction rws as [|rw rws IH]; intros acc; [done|].
    cbn [fmap list_fmap fold_left]. rewrite <- IH. f_equal.
    unfold scoring.typologyStep, typologyStep. cbn.
    destruct (ruleScores !! TypologyRuleWeight.RuleID rw); [|done].
    cbn. by rewrite fmap_app. }
  unfold evaluateTypology, scoring.evaluateTypology, scoring.ofTypologyResult.
  cbn. specialize (Hfold (Typology.Rules T) (0, [])). cbn in Hfold.
  by rewrite Hfold.
Qed.

End exact_typology.

(** *** Typology evaluation on concrete inputs, with rounding *)

Section typology_formula_examples.

Import scoring.
Import PrimFloat.

#[local] Set Warnings "-inexact-float".

(** A typology of three rules in binary64. *)
Definition layering (threshold : float) : Typology.t f64.binary64 :=
  Typology.mk (A := f64.binary64) "layering" "Layering"
    [ TypologyRuleWeight.mk (A := f64.binary64) "rule-1" 0.1%float;
      TypologyRuleWeight.mk (A := f64.binary64) "rule-2" 0.2%float;
      TypologyRuleWeight.mk (A := f64.binary64) "rule-3" 0.3%float ]
    threshold.

Definition result64 (id : string) (score : float) : RuleResult.t f64.binary64 :=
  RuleResult.mk (A := f64.binary64) id RuleOutcomePass score 1%float.

(** Only a rule that [layering] does not list was evaluated. *)
Definition unknown64 : list (RuleResult.t f64.binary64) :=
  [ result64 "unknown-rule" 1%float ].

Lemma unknown_not_evaluated :
  ∀ rw, rw ∈ Typology.Rules (layering 0.5%float) →
        ¬ evaluatedIn unknown64 (TypologyRuleWeight.RuleID rw).
Proof.
  intros rw Hrw Happ. unfold evaluatedIn in Happ. cbn in Happ.
  apply list_elem_of_singleton in Happ.
  cbn in Hrw.
  repeat (apply elem_of_cons in Hrw as [->|Hrw]; [done|]).
  by apply elem_of_nil in Hrw.
Qed.

Lemma typology_evaluation_witness :
  f64.Laws f64.binary64
  ∧ TypologyResult.Score (evaluateTypology (layering 0.5%float) (ruleScoresOf unknown64))
    = f64.zero
  ∧ TypologyResult.Triggered
      (evaluateTypology (layering 0.5%float) (ruleScoresOf unknown64)) = false.
Proof.
  split; [apply binary64_laws|].
  destruct (typology_evaluation (mkTypologyEngine (A := f64.binary64) ∅)
              (layering 0.5%float) unknown64 binary64_laws)
    as (_ & _ & _ & _ & _ & _ & _ & Hnone).
  destruct (Hnone unknown_not_evaluated) as (Hscore & _ & Hfalse).
  split; [done|]. by apply Hfalse.
Defined.

(** All three rules score 1.0: the score is the running sum
    (0.1 + 0.2) + 0.3 of binary64, 0.6000000000000001. *)
Example rounded_typology_score :
  let res :=
    evaluateTypology (layering 0.5%float)
      (ruleScoresOf [result64 "rule-1" 1%float; result64 "rule-2" 1%float;
                     result64 "rule-3" 1%float]) in
  TypologyResult.Score res = 0.6000000000000001%float
  ∧ length (TypologyResult.Contributions res) = 3%nat
  ∧ TypologyResult.Triggered res = true.
Proof. by vm_compute. Qed.

(** Only a rule the typology does not list was evaluated: score 0, no
    contribution, not triggered. *)
Example rounded_typology_unknown :
  let res := evaluateTypology (layering 0.5%float) (ruleScoresOf unknown64) in
  TypologyResult.Score res = 0%float
  ∧ TypologyResult.Contributions res = []
  ∧ TypologyResult.Triggered res = false.
Proof. by vm_compute. Qed.

End typology_formula_examples.

(** ** Reloading the rule set *)

Section reload.

Import rules.

Implicit Types (e : Engine) (cfg : RuleConfig.t) (C : list RuleConfig.t).
Implicit Types (id : string) (acc : gmap string CompiledRule).

(** The compiled form of a config, when it compiles. *)
Definition compiledOf e cfg : option CompiledRule :=
  match compileRule e cfg with
  | inl compiled => Some compiled
  | inr _ => None
  end.

(** The config of [C] that defines rule [id] in a set built from [C]: the
    last enabled config with this id. *)
Definition lastEnabled C id : option RuleConfig.t :=
  last (filter (λ cfg, RuleConfig.Enabled cfg = true ∧ RuleConfig.ID cfg = id) C).

Lemma lastEnabled_cons cfg C id :
  lastEnabled (cfg :: C) id =
    match lastEnabled C id with
    | Some cfg' => Some cfg'
    | None =>
        if decide (RuleConfig.Enabled cfg = true ∧ RuleConfig.ID cfg = id)
        then Some cfg else None
    end.
Proof.
  unfold lastEnabled. rewrite filter_cons. case_decide.
  - by rewrite last_cons.
  - by destruct (last _).
Qed.

Lemma lastEnabled_Some C id cfg :
  lastEnabled C id = Some cfg →
  cfg ∈ C ∧ RuleConfig.Enabled cfg = true ∧ RuleConfig.ID cfg = id.
Proof.
  unfold lastEnabled.
  intros Hl%last_Some_elem_of. apply list_elem_of_filter in Hl. tauto.
Qed.

Lemma lastEnabled_is_Some C id :
  is_Some (lastEnabled C id)
  ↔ ∃ cfg, cfg ∈ C ∧ RuleConfig.Enabled cfg = true ∧ RuleConfig.ID cfg = id.
Proof.
  split.
  - intros [cfg Hcfg]. exists cfg. by apply lastEnabled_Some.
  - intros (cfg & Hin & Hen & Hid). unfold lastEnabled.
    apply last_is_Some. intros Hnil.
    by apply (filter_nil_not_elem_of _ _ cfg Hnil).
Qed.

Lemma reloadLoop_ok e C acc :
  (∀ cfg, cfg ∈ C → RuleConfig.Enabled cfg = true → is_Some (compiledOf e cfg)) →
  ∃ m, reloadLoop e C acc = inl m
       ∧ ∀ id, m !! id = match lastEnabled C id with
                         | Some cfg => compiledOf e cfg
                         | None => acc !! id
                         end.
Proof.
  revert acc. induction C as [|cfg C IH]; intros acc Hall.
  - exists acc. split; [done|]. intros id. by unfold lastEnabled.
  - assert (∀ cfg', cfg' ∈ C → RuleConfig.Enabled cfg' = true
                    → is_Some (compiledOf e cfg')) as Hrest.
    { intros cfg' Hin. apply Hall. by apply list_elem_of_further. }
    simpl. destruct (RuleConfig.Enabled cfg) eqn:Hen; simpl.
    + destruct (Hall cfg (list_elem_of_here _ _) Hen) as [cr Hcr].
      unfold compiledOf in Hcr.
      destruct (compileRule e cfg) as [cr'|err] eqn:Hc; [|done].
      injection Hcr as ->.
      destruct (IH (<[RuleConfig.ID cfg := cr]> acc) Hrest) as (m & -> & Hm).
      exists m. split; [done|]. intros id. rewrite Hm, lastEnabled_cons.
      destruct (lastEnabled C id); [done|]. case_decide as Hd.
      * destruct Hd as [_ <-]. rewrite lookup_insert_eq.
        unfold compiledOf. by rewrite Hc.
      * rewrite lookup_insert_ne; [done|]. intros Heq. apply Hd. by split.
    + destruct (IH acc Hrest) as (m & -> & Hm).
      exists m. split; [done|]. intros id. rewrite Hm, lastEnabled_cons.
      destruct (lastEnabled C id); [done|].
      rewrite decide_False; [done|]. intros [? _]. congruence.
Qed.

Lemma reloadLoop_inr e C acc err :
  reloadLoop e C acc = inr err →
  ∃ cfg, cfg ∈ C ∧ RuleConfig.Enabled cfg = true ∧ compileRule e cfg = inr err.
Proof.
  revert acc. induction C as [|cfg C IH]; intros acc; simpl; [done|].
  destruct (RuleConfig.Enabled cfg) eqn:Hen; simpl.
  - destruct (compileRule e cfg) as [cr|err'] eqn:Hc.
    + intros (cfg' & Hin & ?)%IH. exists cfg'.
      split; [by apply list_elem_of_further|done].
    + intros [= ->]. exists cfg. split; [apply list_elem_of_here|done].
  - intros (cfg' & Hin & ?)%IH. exists cfg'.
    split; [by apply list_elem_of_further|done].
Qed.

Lemma reloadLoop_fails e C acc :
  (∃ cfg, cfg ∈ C ∧ RuleConfig.Enabled cfg = true ∧ compiledOf e cfg = None) →
  ∃ err, reloadLoop e C acc = inr err.
Proof.
  intros (bad & Hin & Hen & Hbad).
  destruct (reloadLoop e C acc) as [m|err] eqn:Hloop; [|by exists err].
  exfalso. revert acc m Hloop.
  induction C as [|cfg C IH]; intros acc m; [by apply elem_of_nil in Hin|].
  simpl. apply elem_of_cons in Hin as [<-|Hin].
  - rewrite Hen. simpl. unfold compiledOf in Hbad.
    by destruct (compileRule e bad).
  - destruct (negb (RuleConfig.Enabled cfg)); [by apply IH|].
    destruct (compileRule e cfg); [by apply IH|done].
Qed.

(** C7. [ReloadRules] is all-or-nothing. When every enabled config of [C]
    compiles it succeeds and the live set becomes a set built from [C] alone:
    rule [id] is bound exactly when an enabled config of [C] carries this id
    (to the compiled form of the last such config), so disabled configs are
    ignored and entries of the old set that are not in [C] disappear; nothing
    else of the engine changes. When compiling some config of [C] fails it
    returns an error and the engine, live set included, is what it was. *)
Theorem reload_all_or_nothing e C :
  ((∀ cfg, cfg ∈ C → RuleConfig.Enabled cfg = true → is_Some (compiledOf e cfg)) →
   ∃ e', ReloadRules e C = (None, e')
         ∧ env e' = env e
         ∧ velocityGetter e' = velocityGetter e
         ∧ maxWorkers e' = maxWorkers e
         ∧ (∀ id, compiledRules e' !! id = lastEnabled C id ≫= compiledOf e)
         ∧ (∀ id, is_Some (compiledRules e' !! id)
                  ↔ ∃ cfg, cfg ∈ C ∧ RuleConfig.Enabled cfg = true
                           ∧ RuleConfig.ID cfg = id))
  ∧ ((∃ cfg, cfg ∈ C ∧ RuleConfig.Enabled cfg = true ∧ compiledOf e cfg = None) →
     ∃ err, ReloadRules e C = (Some err, e))
  ∧ (∀ err e', ReloadRules e C = (Some err, e') →
       e' = e
       ∧ ∃ cfg, cfg ∈ C ∧ RuleConfig.Enabled cfg = true
                ∧ compileRule e cfg = inr err).
Proof.
  split_and!.
  - intros Hall. destruct (reloadLoop_ok e C ∅ Hall) as (m & Hloop & Hm).
    exists (with_compiledRules e m). unfold ReloadRules. rewrite Hloop.
    split_and!; [done..| |].
    + intros id. simpl. rewrite Hm.
      destruct (lastEnabled C id); [done|]. by rewrite lookup_empty.
    + intros id. simpl. rewrite Hm, <- lastEnabled_is_Some.
      destruct (lastEnabled C id) as [cfg|] eqn:Hl.
      * split; [by eauto|]. intros _.
        apply lastEnabled_Some in Hl as (Hin & Hen & _). by apply Hall.
      * rewrite lookup_empty. done.
  - intros Hbad. destruct (reloadLoop_fails e C ∅ Hbad) as [err Hloop].
    exists err. unfold ReloadRules. by rewrite Hloop.
  - intros err e'. unfold ReloadRules.
    destruct (reloadLoop e C ∅) as [m|err'] eqn:Hloop; [done|].
    intros [= -> ->]. split; [done|]. by eapply reloadLoop_inr.
Qed.

End reload.

(** ** The engines and handlers on concrete inputs *)

Section scenarios.

Import rules api.

Definition highValueExpr : string := "amount > 100000.0 ? 1.0 : 0.0".
Definition sameAccountExpr : string := "debtor_id == creditor_id".
Definition alwaysExpr : string := "1 == 1".
Definition textExpr : string := "debtor_id".

Definition doubleVar (name : string) (activation : gmap string cel.any) : float64 :=
  match activation !! name with
  | Some (cel.ADouble d) => d
  | _ => 0
  end.

Definition stringVar (name : string) (activation : gmap string cel.any) : string :=
  match activation !! name with
  | Some (cel.AString s) => s
  | _ => ""
  end.

(** A CEL environment that knows the four expressions above: three of an
    allowed output type, one of type string; any other text is rejected. *)
Definition testEnv : cel.Env :=
  {| cel.Compile := λ src,
       if String.eqb src highValueExpr then inl (cel.mkAst cel.DoubleType src)
       else if String.eqb src sameAccountExpr then inl (cel.mkAst cel.BoolType src)
       else if String.eqb src alwaysExpr then inl (cel.mkAst cel.BoolType src)
       else if String.eqb src textExpr then inl (cel.mkAst cel.StringType src)
       else inr "undeclared reference";
     cel.MkProgram := λ ast,
       if String.eqb (cel.Source ast) highValueExpr then
         inl (λ activation,
                inl (cel.VDouble
                       (if f64_gt (doubleVar "amount" activation) (Qc_of_Z 100000)
                        then 1 else 0)))
       else if String.eqb (cel.Source ast) sameAccountExpr then
         inl (λ activation,
                inl (cel.VBool
                       (String.eqb (stringVar "debtor_id" activation)
                                   (stringVar "creditor_id" activation))))
       else if String.eqb (cel.Source ast) alwaysExpr then
         inl (λ _, inl (cel.VBool true))
       else inr "unsupported expression" |}.

Definition ruleConfig (id name expression : string) (bands : list RuleBand.t)
    (weight : float64) (enabled : bool) : RuleConfig.t :=
  {| RuleConfig.ID := id; RuleConfig.TenantID := "*"; RuleConfig.Name := name;
     RuleConfig.Description := ""; RuleConfig.Version := "1.0.0";
     RuleConfig.Expression := expression; RuleConfig.Bands := bands;
     RuleConfig.Weight := weight; RuleConfig.Enabled := enabled |}.

(** The rule the API tests load: it flags amounts above 100000. *)
Definition testRule : RuleConfig.t :=
  ruleConfig "test-rule-001" "High Value Test Rule" highValueExpr [] 1 true.

Definition sameAccountRule : RuleConfig.t :=
  ruleConfig "same-account-001" "Same Account" sameAccountExpr [] 1 true.

Definition disabledRule : RuleConfig.t :=
  ruleConfig "disabled-001" "Disabled" alwaysExpr [] 1 false.

Definition brokenRule : RuleConfig.t :=
  ruleConfig "broken-001" "Broken" "amount >" [] 1 true.

(** [createTestServerWithMode]: one rule loaded into a fresh engine. *)
Definition testEngine : Engine := (LoadRule (NewEngine testEnv None 5) testRule).2.

Definition twoRuleEngine : Engine := (LoadRule testEngine sameAccountRule).2.

Definition testTypology : Typology.t :=
  {| Typology.ID := "test-typology-001"; Typology.TenantID := "*";
     Typology.Name := "Test Typology"; Typology.Description := "";
     Typology.Version := "1.0.0";
     Typology.Rules :=
       [ {| TypologyRuleWeight.RuleID := "test-rule-001";
            TypologyRuleWeight.Weight := 1 |} ];
     Typology.AlertThreshold := Q2Qc (1 # 2);
     Typology.Enabled := true |}.

Definition loadedTypologies : TypologyEngine :=
  LoadTypologies NewTypologyEngine [testTypology].

Definition complianceServer : Server :=
  NewServer None None testEngine (Some NewTypologyEngine) tadp.NewProcessor
            "test-v1" ModeCompliance.

Definition detectionServer : Server :=
  NewServer None None testEngine (Some NewTypologyEngine) tadp.NewProcessor
            "test-v1" ModeDetection.

Definition detectionServerWithTypology : Server :=
  NewServer None None twoRuleEngine (Some loadedTypologies) tadp.NewProcessor
            "test-v1" ModeDetection.

Definition testContext : Context :=
  {| CtxTenantID := "tenant-001"; CtxTraceID := "trace-001" |}.

Definition transfer (amount : float64) : TransactionRequest :=
  {| Type_ := "transfer";
     Debtor := {| PartyID := "debtor-001"; AccountID := "acc-001" |};
     Creditor := {| PartyID := "creditor-001"; AccountID := "acc-002" |};
     Amount := {| Value := amount; Currency := "USD" |};
     Metadata := ∅ |}.

(** The body of the test "CreateRuleDoesNotMutateEngineBeforeReload". *)
Definition preReloadRule : CreateRuleRequest :=
  {| ReqID := "pre-reload-rule"; ReqName := "Pre Reload Rule";
     ReqDescription := "Should not be active before reload";
     ReqExpression := alwaysExpr;
     ReqBands :=
       [ {| RuleBand.LowerLimit := Some 1; RuleBand.UpperLimit := None;
            RuleBand.SubRuleRef := ".fail"; RuleBand.Reason := "Always fail" |};
         {| RuleBand.LowerLimit := Some 0; RuleBand.UpperLimit := Some 1;
            RuleBand.SubRuleRef := ".pass"; RuleBand.Reason := "Not triggered" |} ];
     ReqWeight := 1; ReqEnabled := true |}.

(** The status a response to [POST /evaluate] reports, if it reports one. *)
Definition verdict (r : Response) : option string :=
  match body r with
  | EvaluateBody resp => Some (Status resp)
  | _ => None
  end.

Definition loadedIDs (e : Engine) : list string :=
  RuleConfig.ID <$> GetLoadedRules e.

Example test_engine_loaded : loadedIDs testEngine = ["test-rule-001"].
Proof. by vm_compute. Qed.

Example normal_transfer :
  code (Evaluate (handler detectionServer) testContext "tx-001" "eval-001"
          (Some (transfer (Qc_of_Z 1000)))) = StatusOK
  ∧ verdict (Evaluate (handler detectionServer) testContext "tx-001" "eval-001"
               (Some (transfer (Qc_of_Z 1000)))) = Some StatusNoAlert.
Proof. by vm_compute. Qed.

Example reload_replaces :
  loadedIDs (rules.ReloadRules testEngine [sameAccountRule; disabledRule]).2
  = ["same-account-001"].
Proof. by vm_compute. Qed.

Example reload_aborts :
  (rules.ReloadRules testEngine [sameAccountRule; brokenRule]).1
  = Some "failed to compile rule broken-001: undeclared reference"
  ∧ loadedIDs (rules.ReloadRules testEngine [sameAccountRule; brokenRule]).2
    = ["test-rule-001"].
Proof. by vm_compute. Qed.

Example text_rule_rejected :
  ValidateRule testEngine (Some (ruleConfig "text-001" "Text" textExpr [] 1 true))
  = Some "rule text-001: expression must return bool, int, or double, got string".
Proof. by vm_compute. Qed.

Lemma reload_all_or_nothing_witness :
  (∀ cfg, cfg ∈ [sameAccountRule; disabledRule] →
          RuleConfig.Enabled cfg = true → is_Some (compiledOf testEngine cfg))
  ∧ (∃ e', rules.ReloadRules testEngine [sameAccountRule; disabledRule] = (None, e')
           ∧ compiledRules e' !! "test-rule-001" = None
           ∧ compiledRules e' !! "disabled-001" = None
           ∧ is_Some (compiledRules e' !! "same-account-001")).
Proof.
  assert (∀ cfg, cfg ∈ [sameAccountRule; disabledRule] →
                 RuleConfig.Enabled cfg = true → is_Some (compiledOf testEngine cfg))
    as Hall.
  { intros cfg Hin Hen.
    apply elem_of_cons in Hin as [->|Hin]; [by vm_compute; eauto|].
    apply list_elem_of_singleton in Hin as ->. done. }
  split; [done|].
  destruct (reload_all_or_nothing testEngine [sameAccountRule; disabledRule])
    as (Hok & _ & _).
  destruct (Hok Hall) as (e' & Hreload & _ & _ & _ & Hlookup & _).
  exists e'. split; [done|]. rewrite !Hlookup. split_and!.
  - done.
  - done.
  - by vm_compute; eauto.
Defined.

(** *** Rule creation *)

(** A [LoadRule] that returns no error has written the compiled rule under
    its id; [ValidateRule], by contrast, returns a diagnosis only. *)
Lemma LoadRule_publishes (e : Engine) (cfg : RuleConfig.t) (e' : Engine) :
  LoadRule e cfg = (None, e') →
  ∃ compiled, compileRule e cfg = inl compiled
              ∧ compiledRules e' = <[RuleConfig.ID cfg := compiled]> (compiledRules e).
Proof.
  unfold LoadRule. destruct (compileRule e cfg) as [compiled|err]; [|done].
  intros [= <-]. by exists compiled.
Qed.

(** Every create that answers 201 has put the rule into the live set. *)
Lemma CreateRule_publishes (h : Handler) (req : CreateRuleRequest)
    (resp : Response) (h' : Handler) :
  CreateRule h (Some req) = (resp, h') →
  code resp = StatusCreated →
  ∃ compiled, compiledRules (engine h') !! ReqID req = Some compiled
              ∧ RuleConfig.ID (Config compiled) = ReqID req.
Proof.
  unfold CreateRule.
  destruct (String.eqb (ReqID req) "" || String.eqb (ReqName req) ""
            || String.eqb (ReqExpression req) ""); [by intros [= <- <-]|].
  destruct (LoadRule _ _) as [[err|] e'] eqn:Hload; [by intros [= <- <-]|].
  apply LoadRule_publishes in Hload as (compiled & Hc & Hrules).
  assert (RuleConfig.ID (Config compiled) = ReqID req) as Hid.
  { unfold compileRule in Hc. repeat case_match; simplify_eq; done. }
  simpl in Hrules.
  destruct (repo (with_engine h e')) as [r|] eqn:Hrepo; simpl in *.
  - destruct (SaveRuleConfig r GlobalTenantID _) as [[err|] r'];
      intros [= <- <-]; [done|]. intros _.
    exists compiled. simpl. by rewrite Hrules, lookup_insert_eq.
  - intros [= <- <-] _. exists compiled. simpl. by rewrite Hrules, lookup_insert_eq.
Qed.

(** C8, on the code. Creating the rule of the test
    "CreateRuleDoesNotMutateEngineBeforeReload" on a server whose live set is
    [test-rule-001] answers 201 and, with no reload in between, the live set
    lists the new rule as a second entry and the next evaluation runs it: a
    transfer of 100 is then [ALRT] by the new rule's [.fail] band. *)
Theorem create_rule_is_live_before_reload :
  loadedIDs (engine (handler detectionServer)) = ["test-rule-001"]
  ∧ code (CreateRule (handler detectionServer) (Some preReloadRule)).1 = StatusCreated
  ∧ "pre-reload-rule"
    ∈ loadedIDs (engine (CreateRule (handler detectionServer) (Some preReloadRule)).2)
  ∧ length (loadedIDs
              (engine (CreateRule (handler detectionServer) (Some preReloadRule)).2))
    = 2%nat
  ∧ verdict (Evaluate (CreateRule (handler detectionServer) (Some preReloadRule)).2
               testContext "tx-002" "eval-002" (Some (transfer (Qc_of_Z 100))))
    = Some StatusAlert.
Proof.
  split_and!; [by vm_compute|by vm_compute| |by vm_compute|by vm_compute].
  assert (loadedIDs
            (engine (CreateRule (handler detectionServer) (Some preReloadRule)).2)
          = ["test-rule-001"; "pre-reload-rule"]) as ->; [by vm_compute|].
  apply list_elem_of_further, list_elem_of_here.
Qed.

(** *** Readiness *)

Lemma EvaluateAll_no_error (e : Engine) (input : EvaluateInput) :
  (EvaluateAll e input).2 = None.
Proof. unfold EvaluateAll. by case_bool_decide. Qed.

(** [Evaluate] answers 400 or 200, whatever the handler holds. *)
Lemma Evaluate_codes (h : Handler) (ctx : Context) (txID evalID : string)
    (req : option TransactionRequest) :
  code (Evaluate h ctx txID evalID req) = StatusBadRequest
  ∨ code (Evaluate h ctx txID evalID req) = StatusOK.
Proof.
  unfold Evaluate. destruct req as [req|]; [|by left].
  repeat (case_match; [by left|]).
  lazymatch goal with
  | |- context [EvaluateAll ?e ?i] =>
      pose proof (EvaluateAll_no_error e i) as Herr;
      destruct (EvaluateAll e i) as [results err]
  end.
  simpl in Herr. subst err. by right.
Qed.

Lemma Ready_always (h : Handler) : Ready h = writeJSON StatusOK (ReadyBody "true").
Proof. done. Qed.

(** C9, on the code. A server created in compliance mode with no typology
    loaded answers a well-formed [POST /evaluate] with 200 and a verdict,
    [GET /ready] with 200 and ready "true", and [GET /health] with 200 and
    status "healthy". *)
Theorem compliance_without_typologies_is_served :
  (typologyEngine (handler complianceServer) = Some NewTypologyEngine
   ∧ TypologyCount NewTypologyEngine = 0%nat)
  ∧ code (Evaluate (handler complianceServer) testContext "tx-001" "eval-001"
            (Some (transfer (Qc_of_Z 1000)))) = StatusOK
  ∧ verdict (Evaluate (handler complianceServer) testContext "tx-001" "eval-001"
               (Some (transfer (Qc_of_Z 1000)))) = Some StatusNoAlert
  ∧ Ready (handler complianceServer) = writeJSON StatusOK (ReadyBody "true")
  ∧ Health (handler complianceServer)
    = writeJSON StatusOK (HealthBody "healthy" "test-v1").
Proof. split_and!; by vm_compute. Qed.

(** *** Typologies on the request path *)

(** The typology results handed to the processor do not depend on the mode
    the server was created with. *)
Lemma typologyResultsOf_any_mode (repo : option Repository) (cache : option Cache)
    (e : Engine) (te : TypologyEngine) (p : tadp.Processor) (version : string)
    (mode : EvaluationMode) (ruleResults : list RuleResult.t) :
  typologyResultsOf (handler (NewServer repo cache e (Some te) p version mode))
                    ruleResults
  = if bool_decide (0 < TypologyCount te)%nat
    then EvaluateTypologies te ruleResults else [].
Proof. done. Qed.

Definition largeTransferInput : EvaluateInput :=
  {| rules.TenantID := "tenant-001"; rules.TxID := "tx-003";
     rules.Type_ := "transfer"; rules.DebtorID := "debtor-001";
     rules.CreditorID := "creditor-001"; rules.Amount := Qc_of_Z 200000;
     rules.Currency := "USD"; rules.VelocityWindow := 3600;
     rules.AdditionalData := ∅ |}.

(** C10, on the code. On a server created in detection mode with one
    typology loaded, a transfer of 200000 between two parties gives rule
    scores 1.0 and 0.0; the typology engine is invoked and returns a triggered
    result, and the response is [ALRT], whereas the decision from rule
    aggregation alone (aggregate 0.5 under threshold 0.7) is [NALT]. *)
Theorem detection_invokes_typologies :
  (∃ t, typologyResultsOf (handler detectionServerWithTypology)
          (EvaluateAll twoRuleEngine largeTransferInput).1 = [t]
        ∧ TypologyResult.TypologyID t = "test-typology-001"
        ∧ TypologyResult.Triggered t = true)
  ∧ verdict (Evaluate (handler detectionServerWithTypology) testContext
               "tx-003" "eval-003" (Some (transfer (Qc_of_Z 200000))))
    = Some StatusAlert
  ∧ Evaluation.Status
      (tadp.Process tadp.NewProcessor "eval-003"
         {| tadp.TenantID := "tenant-001"; tadp.TxID := "tx-003";
            tadp.TraceID := "trace-001";
            tadp.RuleResults := (EvaluateAll twoRuleEngine largeTransferInput).1;
            tadp.TypologyResults := [] |})
    = StatusNoAlert.
Proof.
  split_and!; [|by vm_compute|by vm_compute].
  eexists. split; [by vm_compute|]. by vm_compute.
Qed.

End scenarios.

(** * Further properties of the rule engine *)

Section engine_properties.

Import rules.

Implicit Types (e : Engine) (cfg : RuleConfig.t) (C : list RuleConfig.t).
Implicit Types (id : string) (m : gmap string CompiledRule).

(** Every rule of the live set is stored under the id of its own config. *)
Definition keyedByID e : Prop :=
  ∀ id compiled, compiledRules e !! id = Some compiled →
                 RuleConfig.ID (Config compiled) = id.

Lemma with_compiledRules_same e : with_compiledRules e (compiledRules e) = e.
Proof. by destruct e. Qed.

Lemma compileRule_env e1 e2 cfg :
  env e1 = env e2 → compileRule e1 cfg = compileRule e2 cfg.
Proof. unfold compileRule. by intros ->. Qed.

Lemma compiledOf_env e1 e2 cfg :
  env e1 = env e2 → compiledOf e1 cfg = compiledOf e2 cfg.
Proof. unfold compiledOf. by intros ->%(compileRule_env _ _ cfg). Qed.

Lemma compileRule_Config e cfg compiled :
  compileRule e cfg = inl compiled → Config compiled = cfg.
Proof. unfold compileRule. repeat case_match; by intros [= <-]. Qed.

Lemma reloadLoop_env e1 e2 C m :
  env e1 = env e2 → reloadLoop e1 C m = reloadLoop e2 C m.
Proof.
  intros Henv. revert m. induction C as [|cfg C IH]; intros m; simpl; [done|].
  rewrite (compileRule_env e1 e2 cfg Henv).
  destruct (negb _); [done|]. by destruct (compileRule e2 cfg).
Qed.

(** [LoadRules] runs the loop of [ReloadRules] on the current live set; it
    publishes rule by rule, so a failure leaves what was loaded before it. *)
Lemma LoadRules_as_loop e C :
  match reloadLoop e C (compiledRules e) with
  | inl m => LoadRules e C = (None, with_compiledRules e m)
  | inr err => ∃ e', LoadRules e C = (Some err, e') ∧ env e' = env e
  end.
Proof.
  revert e. induction C as [|cfg C IH]; intros e; simpl.
  - by rewrite with_compiledRules_same.
  - destruct (RuleConfig.Enabled cfg); simpl; [|apply IH].
    unfold LoadRule. destruct (compileRule e cfg) as [compiled|err] eqn:Hc.
    + specialize (IH (with_compiledRules e
                        (<[RuleConfig.ID cfg := compiled]> (compiledRules e)))).
      simpl in IH.
      rewrite (reloadLoop_env _ e) in IH by done.
      destruct (reloadLoop e C _) as [m|err]; [done|].
      destruct IH as (e' & -> & Henv). by exists e'.
    + by exists e.
Qed.

(** X1. A [LoadRule] whose config compiles binds the id of the config to its
    compiled form (whose config is the one given), replacing any rule of
    that id, and leaves every other id as it was; one whose config does not
    compile returns the error and leaves the engine untouched. *)
Theorem LoadRule_lookup e cfg :
  match compileRule e cfg with
  | inl compiled =>
      (LoadRule e cfg).1 = None
      ∧ compiledRules (LoadRule e cfg).2 !! RuleConfig.ID cfg = Some compiled
      ∧ Config compiled = cfg
      ∧ (∀ id, id ≠ RuleConfig.ID cfg →
               compiledRules (LoadRule e cfg).2 !! id = compiledRules e !! id)
      ∧ env (LoadRule e cfg).2 = env e
  | inr err => LoadRule e cfg = (Some err, e)
  end.
Proof.
  unfold LoadRule. destruct (compileRule e cfg) as [compiled|err] eqn:Hc; [|done].
  simpl. split_and!; [done| |by eapply compileRule_Config| |done].
  - by rewrite lookup_insert_eq.
  - intros id Hne. by rewrite lookup_insert_ne.
Qed.

(** X2. When every enabled config of [C] compiles, [LoadRules] succeeds and
    the live set is the old one overwritten by [C]: an id carried by an
    enabled config of [C] is bound to the compiled form of the last such
    config, every other id keeps the rule it had. Disabled configs change
    nothing. *)
Theorem LoadRules_merges e C :
  (∀ cfg, cfg ∈ C → RuleConfig.Enabled cfg = true → is_Some (compiledOf e cfg)) →
  (LoadRules e C).1 = None
  ∧ env (LoadRules e C).2 = env e
  ∧ ∀ id, compiledRules (LoadRules e C).2 !! id
          = match lastEnabled C id with
            | Some cfg => compiledOf e cfg
            | None => compiledRules e !! id
            end.
Proof.
  intros Hall.
  destruct (reloadLoop_ok e C (compiledRules e) Hall) as (m & Hloop & Hm).
  pose proof (LoadRules_as_loop e C) as Hload. rewrite Hloop in Hload.
  rewrite Hload. simpl. by split_and!.
Qed.

Lemma LoadRules_app e C1 C2 :
  LoadRules e (C1 ++ C2)
  = match LoadRules e C1 with
    | (Some err, e') => (Some err, e')
    | (None, e') => LoadRules e' C2
    end.
Proof.
  revert e. induction C1 as [|cfg C1 IH]; intros e; simpl; [done|].
  destruct (RuleConfig.Enabled cfg); [|apply IH].
  destruct (LoadRule e cfg) as [[err|] e']; [done|apply IH].
Qed.

(** X3. [LoadRules] is not all-or-nothing: when the configs before the first
    one that fails compile, they stay loaded. The call returns the error of
    the failing config, and the engine is the one a [LoadRules] of the
    configs before it produces; the configs after it are not looked at. *)
Theorem LoadRules_partial e (before after : list RuleConfig.t) cfg err :
  (∀ c, c ∈ before → RuleConfig.Enabled c = true → is_Some (compiledOf e c)) →
  RuleConfig.Enabled cfg = true →
  compileRule e cfg = inr err →
  LoadRules e (before ++ cfg :: after) = (Some err, (LoadRules e before).2)
  ∧ (LoadRules e before).1 = None.
Proof.
  intros Hall Hen Hc.
  destruct (reloadLoop_ok e before (compiledRules e) Hall) as (m & Hloop & _).
  pose proof (LoadRules_as_loop e before) as Hload. rewrite Hloop in Hload.
  rewrite LoadRules_app, Hload. simpl. split; [|done].
  rewrite Hen. unfold LoadRule.
  rewrite (compileRule_env _ e cfg) by done. by rewrite Hc.
Qed.

(** X4. Reloading twice with the same configs is reloading once: the second
    [ReloadRules] returns what the first returned and leaves the engine the
    first produced. *)
Theorem ReloadRules_idempotent e C :
  ReloadRules (ReloadRules e C).2 C = ReloadRules e C.
Proof.
  unfold ReloadRules.
  destruct (reloadLoop e C ∅) as [m|err] eqn:Hloop; simpl.
  - rewrite (reloadLoop_env _ e) by done. by rewrite Hloop.
  - by rewrite Hloop.
Qed.

(** X5. [ReloadRules] returns what a [LoadRules] into the closed (emptied)
    engine returns, and when it succeeds the two engines are the same; the
    difference between the two operations is only in what a failure leaves
    behind. *)
Theorem ReloadRules_as_LoadRules e C :
  (ReloadRules e C).1 = (LoadRules (Close e) C).1
  ∧ ((ReloadRules e C).1 = None → ReloadRules e C = LoadRules (Close e) C).
Proof.
  pose proof (LoadRules_as_loop (Close e) C) as Hload.
  simpl in Hload. rewrite (reloadLoop_env _ e) in Hload by done.
  unfold ReloadRules. destruct (reloadLoop e C ∅) as [m|err].
  - rewrite Hload. done.
  - destruct Hload as (e' & -> & _). done.
Qed.

Lemma keyedByID_insert e cfg compiled :
  keyedByID e → compileRule e cfg = inl compiled →
  keyedByID (with_compiledRules e (<[RuleConfig.ID cfg := compiled]> (compiledRules e))).
Proof.
  intros Hk Hc id cr. simpl. rewrite lookup_insert.
  case_decide as Hid.
  - intros [= <-]. rewrite <- Hid. by rewrite (compileRule_Config _ _ _ Hc).
  - apply Hk.
Qed.

Lemma keyedByID_loop e C m m' :
  (∀ id cr, m !! id = Some cr → RuleConfig.ID (Config cr) = id) →
  reloadLoop e C m = inl m' →
  ∀ id cr, m' !! id = Some cr → RuleConfig.ID (Config cr) = id.
Proof.
  revert m. induction C as [|cfg C IH]; intros m Hm; simpl.
  - by intros [= <-].
  - destruct (negb (RuleConfig.Enabled cfg)); [by apply IH|].
    destruct (compileRule e cfg) as [compiled|err] eqn:Hc; [|done].
    apply IH. intros id cr. rewrite lookup_insert. case_decide as Hid.
    + intros [= <-]. rewrite <- Hid. by rewrite (compileRule_Config _ _ _ Hc).
    + apply Hm.
Qed.

Lemma keyedByID_empty e : compiledRules e = ∅ → keyedByID e.
Proof. intros He id cr. by rewrite He, lookup_empty. Qed.

Lemma keyedByID_LoadRule e cfg : keyedByID e → keyedByID (LoadRule e cfg).2.
Proof.
  intros Hk. unfold LoadRule.
  destruct (compileRule e cfg) as [compiled|err] eqn:Hc; [|done].
  by apply keyedByID_insert.
Qed.

(** X6. The engine keeps every rule under the id of its own config: a new
    engine and a closed one satisfy this, [ReloadRules] establishes it on
    success and keeps it on failure, and [LoadRule] and [LoadRules] keep it. *)
Theorem keyedByID_invariant e cfg C (celEnv : cel.Env)
    (getter : option VelocityGetter) (workers : Z) :
  keyedByID (NewEngine celEnv getter workers)
  ∧ keyedByID (Close e)
  ∧ ((ReloadRules e C).1 = None → keyedByID (ReloadRules e C).2)
  ∧ (keyedByID e → keyedByID (ReloadRules e C).2)
  ∧ (keyedByID e → keyedByID (LoadRule e cfg).2)
  ∧ (keyedByID e → keyedByID (LoadRules e C).2).
Proof.
  split_and!.
  - by apply keyedByID_empty.
  - by apply keyedByID_empty.
  - unfold ReloadRules. destruct (reloadLoop e C ∅) as [m|err] eqn:Hloop; [|done].
    intros _ id cr. simpl. eapply keyedByID_loop; [|done].
    intros ? ?. by rewrite lookup_empty.
  - intros Hk. unfold ReloadRules.
    destruct (reloadLoop e C ∅) as [m|err] eqn:Hloop; [|done].
    intros id cr. simpl. eapply keyedByID_loop; [|done].
    intros ? ?. by rewrite lookup_empty.
  - apply keyedByID_LoadRule.
  - revert e. induction C as [|c C IH]; intros e Hk; simpl; [done|].
    destruct (RuleConfig.Enabled c); [|by apply IH].
    unfold LoadRule. destruct (compileRule e c) as [compiled|err] eqn:Hc; [|done].
    apply IH. by apply keyedByID_insert.
Qed.

End engine_properties.

(** * Further properties of rule evaluation *)

Section evaluation_properties.

Import rules.

Implicit Types (e : Engine) (input : EvaluateInput) (rule : CompiledRule).
Implicit Types (activation : gmap string cel.any).

(** The activation [EvaluateAll] evaluates the rules of [e] on. *)
Definition activationFor e input : gmap string cel.any :=
  activationOf input (velocityCountOf e input).

Lemma evaluateRule_id rule activation input :
  RuleResult.RuleID (evaluateRule rule activation input) = RuleConfig.ID (Config rule).
Proof.
  unfold evaluateRule. destruct (Program rule activation); [|done].
  by destruct (matchBand _ _).
Qed.

Lemma evaluateRule_frame rule activation input :
  RuleResult.TenantID (evaluateRule rule activation input) = TenantID input
  ∧ RuleResult.TxID (evaluateRule rule activation input) = TxID input
  ∧ RuleResult.Weight (evaluateRule rule activation input)
    = RuleConfig.Weight (Config rule).
Proof.
  unfold evaluateRule. destruct (Program rule activation); [|done].
  by destruct (matchBand _ _).
Qed.

Lemma EvaluateAll_results e input :
  (EvaluateAll e input).1
  = (λ kv, evaluateRule kv.2 (activationFor e input) input)
      <$> map_to_list (compiledRules e).
Proof.
  unfold EvaluateAll. case_bool_decide as Hlen; simpl.
  - rewrite length_fmap in Hlen. apply nil_length_inv in Hlen. by rewrite Hlen.
  - by rewrite <- list_fmap_compose.
Qed.

(** X7. [EvaluateAll] never returns an error and returns exactly one result
    per loaded rule: up to order, the ids of the results paired with their
    weights are the ids and weights of the loaded configs, and each result
    carries the tenant and transaction id of the input. On an engine without
    rules the result is empty. *)
Theorem EvaluateAll_one_result_per_rule e input :
  (EvaluateAll e input).2 = None
  ∧ length (EvaluateAll e input).1 = RulesCount e
  ∧ (λ r, (RuleResult.RuleID r, RuleResult.Weight r)) <$> (EvaluateAll e input).1
    ≡ₚ (λ cfg, (RuleConfig.ID cfg, RuleConfig.Weight cfg)) <$> GetLoadedRules e
  ∧ (∀ r, r ∈ (EvaluateAll e input).1 →
          RuleResult.TenantID r = TenantID input ∧ RuleResult.TxID r = TxID input)
  ∧ (RulesCount e = 0%nat → (EvaluateAll e input).1 = []).
Proof.
  rewrite EvaluateAll_results. unfold GetLoadedRules, RulesCount. split_and!.
  - apply EvaluateAll_no_error.
  - by rewrite length_fmap, length_map_to_list.
  - rewrite <- !list_fmap_compose.
    assert (∀ l : list (string * CompiledRule),
              ((λ r, (RuleResult.RuleID r, RuleResult.Weight r))
               ∘ (λ kv, evaluateRule kv.2 (activationFor e input) input)) <$> l
              = ((λ cfg, (RuleConfig.ID cfg, RuleConfig.Weight cfg))
                 ∘ (λ kv, Config kv.2)) <$> l) as ->; [|done].
    intros l. apply list_fmap_ext. intros i [id rule] _. simpl.
    rewrite evaluateRule_id.
    by destruct (evaluateRule_frame rule (activationFor e input) input) as (_ & _ & ->).
  - intros r (kv & -> & _)%list_elem_of_fmap.
    pose proof (evaluateRule_frame kv.2 (activationFor e input) input). tauto.
  - intros Hz%map_size_empty_iff. rewrite Hz. by rewrite map_to_list_empty.
Qed.

(** X8. On an engine that keeps its rules under their own ids, no two results
    of an [EvaluateAll] carry the same rule id, and the score the typology
    engine reads for a rule id is the score of that rule's result. *)
Theorem EvaluateAll_distinct_ids e input :
  keyedByID e →
  NoDup (RuleResult.RuleID <$> (EvaluateAll e input).1)
  ∧ ∀ id rule, compiledRules e !! id = Some rule →
      ruleScoresOf (EvaluateAll e input).1 !! id
      = Some (RuleResult.Score (evaluateRule rule (activationFor e input) input)).
Proof.
  intros Hk.
  assert (RuleResult.RuleID <$> (EvaluateAll e input).1
          = (map_to_list (compiledRules e)).*1) as Hids.
  { rewrite EvaluateAll_results, <- list_fmap_compose. apply list_fmap_ext.
    intros i [id rule] Hi. simpl. rewrite evaluateRule_id.
    apply Hk. apply elem_of_map_to_list. by eapply list_elem_of_lookup_2. }
  assert (NoDup (RuleResult.RuleID <$> (EvaluateAll e input).1)) as Hnd.
  { rewrite Hids. apply NoDup_fst_map_to_list. }
  split; [done|]. intros id rule Hrule.
  rewrite ruleScoresOf_lookup. unfold lastScore.
  set (r := evaluateRule rule (activationFor e input) input).
  assert (r ∈ (EvaluateAll e input).1) as Hr.
  { rewrite EvaluateAll_results. apply list_elem_of_fmap.
    exists (id, rule). split; [done|]. by apply elem_of_map_to_list. }
  assert (RuleResult.RuleID r = id) as Hrid.
  { unfold r. rewrite evaluateRule_id. by apply Hk. }
  assert (filter (λ r0, RuleResult.RuleID r0 = id) (EvaluateAll e input).1 = [r])
    as ->; [|done].
  clear Hids. revert Hnd Hr. generalize ((EvaluateAll e input).1).
  intros l. induction l as [|x l IH]; intros Hnd Hin.
  - by apply elem_of_nil in Hin.
  - rewrite fmap_cons in Hnd. apply NoDup_cons in Hnd as [Hx Hnd].
    apply elem_of_cons in Hin as [<-|Hin].
    + rewrite filter_cons_True by done. f_equal.
      destruct (filter _ l) as [|y l'] eqn:Hf; [done|exfalso].
      assert (y ∈ filter (λ r0, RuleResult.RuleID r0 = id) l) as Hy.
      { rewrite Hf. apply list_elem_of_here. }
      apply list_elem_of_filter in Hy as [Hyid Hy]. apply Hx.
      apply list_elem_of_fmap. exists y. split; [congruence|done].
    + rewrite filter_cons_False; [by apply IH|].
      intros Hxid. apply Hx. apply list_elem_of_fmap. exists r.
      split; [congruence|done].
Qed.

(** X9. Each loaded rule is evaluated on its own: when its program returns a
    value, the result carries that value as score (by [toScore]) and the
    outcome and reason [matchBand] gives for it; when its program fails, the
    result has outcome [.err], score 0 and the error in its reason, and the
    evaluation as a whole still succeeds. *)
Theorem EvaluateAll_rule_result e input (id : string) rule :
  compiledRules e !! id = Some rule →
  (EvaluateAll e input).2 = None
  ∧ ∃ r, r ∈ (EvaluateAll e input).1
         ∧ RuleResult.RuleID r = RuleConfig.ID (Config rule)
         ∧ match Program rule (activationFor e input) with
           | inl out =>
               RuleResult.Score r = toScore out
               ∧ (RuleResult.SubRuleRef r, RuleResult.Reason r)
                 = matchBand (toScore out) (RuleConfig.Bands (Config rule))
           | inr err =>
               RuleResult.SubRuleRef r = RuleOutcomeError
               ∧ RuleResult.Score r = 0
               ∧ RuleResult.Reason r = "evaluation error: " +:+ err
           end.
Proof.
  intros Hrule. split; [apply EvaluateAll_no_error|].
  exists (evaluateRule rule (activationFor e input) input). split_and!.
  - rewrite EvaluateAll_results. apply list_elem_of_fmap.
    exists (id, rule). split; [done|]. by apply elem_of_map_to_list.
  - apply evaluateRule_id.
  - unfold evaluateRule. destruct (Program rule _) as [out|err]; [|done].
    by destruct (matchBand _ _).
Qed.

Definition with_velocityGetter e (getter : option VelocityGetter) : Engine :=
  {| env := env e; compiledRules := compiledRules e;
     velocityGetter := getter; maxWorkers := maxWorkers e |}.

(** X10. A velocity provider that fails never fails the evaluation and is
    indistinguishable from having no provider: [EvaluateAll] returns what the
    same engine without a velocity getter returns (the count seen by the
    rules is 0). The same holds when the velocity window is not positive. *)
Theorem velocity_failure_is_no_provider e input (getter : VelocityGetter) :
  (∃ err, getter (TenantID input) (DebtorID input) (VelocityWindow input) = inr err)
  ∨ (VelocityWindow input ≤ 0)%Z →
  EvaluateAll (with_velocityGetter e (Some getter)) input
  = EvaluateAll (with_velocityGetter e None) input
  ∧ velocityCountOf (with_velocityGetter e (Some getter)) input = 0%Z.
Proof.
  intros Hfail.
  assert (velocityCountOf (with_velocityGetter e (Some getter)) input = 0%Z) as Hz.
  { unfold velocityCountOf. simpl. destruct Hfail as [[err ->]|Hw].
    - by destruct (0 <? VelocityWindow input)%Z.
    - rewrite (proj2 (Z.ltb_ge _ _)); done. }
  split; [|done]. unfold EvaluateAll. rewrite Hz. done.
Qed.

(** Additional data is written over the fixed variables: a key present
    in [AdditionalData] is bound to the caller's value in the activation,
    even when it is one of the engine's own variables such as [amount]; a
    fixed variable the caller does not supply keeps the engine's value, with
    both balances defaulting to 0.0. *)
Lemma additional_data_overrides input (count : Z) :
  (∀ k v, AdditionalData input !! k = Some v → activationOf input count !! k = Some v)
  ∧ (AdditionalData input !! "amount" = None →
     activationOf input count !! "amount" = Some (cel.ADouble (Amount input)))
  ∧ (AdditionalData input !! "velocity_count" = None →
     activationOf input count !! "velocity_count" = Some (cel.AInt count))
  ∧ (AdditionalData input !! "old_balance" = None →
     activationOf input count !! "old_balance" = Some (cel.ADouble 0))
  ∧ (AdditionalData input !! "new_balance" = None →
     activationOf input count !! "new_balance" = Some (cel.ADouble 0)).
Proof.
  unfold activationOf. split_and!.
  - intros k v Hk. by apply lookup_union_Some_l.
  - intros Hk. by rewrite lookup_union_r.
  - intros Hk. by rewrite lookup_union_r.
  - intros Hk. by rewrite lookup_union_r.
  - intros Hk. by rewrite lookup_union_r.
Qed.

(** X11. A band without lower limit starts at 0.0, not at minus infinity: a
    negative score matches no band whose lower limit is absent or not
    negative, so on such a band list it gets the default [.pass] with reason
    "no matching band". *)
Theorem negative_score_matches_no_band (s : float64) (bands : list RuleBand.t) :
  s < 0 →
  (∀ b, b ∈ bands → 0 ≤ default 0 (RuleBand.LowerLimit b)) →
  matchBand s bands = (RuleOutcomePass, "no matching band").
Proof.
  intros Hneg Hlow. induction bands as [|b bands IH]; [done|].
  rewrite matchBand_cons_out.
  - apply IH. intros b' Hb'. apply Hlow. by apply list_elem_of_further.
  - intros [Hlo _]. specialize (Hlow b (list_elem_of_here _ _)).
    apply (Qclt_not_le _ _ Hneg). by eapply Qcle_trans.
Qed.

End evaluation_properties.

(** * Further properties of the typology engine *)

Section typology_properties.

Import rules.

Implicit Types (e : TypologyEngine) (T t : Typology.t) (ts : list Typology.t).
Implicit Types (R : list RuleResult.t) (id : string).

(** The typology of [ts] that defines [id] in a set loaded from [ts]: the
    last enabled one with this id. *)
Definition lastEnabledTypology ts id : option Typology.t :=
  last (filter (λ t, Typology.Enabled t = true ∧ Typology.ID t = id) ts).

Lemma LoadTypologies_lookup e ts id :
  typologies (LoadTypologies e ts) !! id = lastEnabledTypology ts id.
Proof.
  unfold LoadTypologies, lastEnabledTypology. simpl.
  induction ts as [|t ts IH] using rev_ind; [done|].
  rewrite fold_left_app, filter_app. simpl.
  destruct (Typology.Enabled t) eqn:Hen.
  - destruct (decide (Typology.ID t = id)) as [Hid|Hid].
    + rewrite filter_cons_True, filter_nil by done.
      rewrite last_snoc, <- Hid. by rewrite lookup_insert_eq.
    + rewrite filter_cons_False, filter_nil by (intros [_ ?]; done).
      rewrite app_nil_r, lookup_insert_ne by done. apply IH.
  - rewrite filter_cons_False, filter_nil by (intros [? _]; congruence).
    rewrite app_nil_r. apply IH.
Qed.

Lemma LoadTypologies_size e ts : (TypologyCount (LoadTypologies e ts) ≤ length ts)%nat.
Proof.
  unfold TypologyCount, LoadTypologies. simpl.
  induction ts as [|t ts IH] using rev_ind; [done|].
  rewrite fold_left_app, length_app. simpl.
  destruct (Typology.Enabled t); [|lia].
  rewrite map_size_insert. case_match; unfold id; lia.
Qed.

(** X12. [LoadTypologies] replaces the set: the result does not depend on
    what was loaded before; an id is bound exactly to the last enabled
    typology of the list carrying it, so disabled typologies are dropped,
    every loaded typology is enabled, comes from the list and sits under its
    own id, and there are at most as many as the list is long. *)
Theorem LoadTypologies_replaces e e' ts :
  LoadTypologies e ts = LoadTypologies e' ts
  ∧ (∀ id, typologies (LoadTypologies e ts) !! id = lastEnabledTypology ts id)
  ∧ (∀ id t, typologies (LoadTypologies e ts) !! id = Some t →
             t ∈ ts ∧ Typology.Enabled t = true ∧ Typology.ID t = id)
  ∧ (∀ t, t ∈ ts → Typology.Enabled t = true →
          is_Some (typologies (LoadTypologies e ts) !! Typology.ID t))
  ∧ (TypologyCount (LoadTypologies e ts) ≤ length ts)%nat.
Proof.
  split_and!.
  - done.
  - apply LoadTypologies_lookup.
  - intros id t. rewrite LoadTypologies_lookup. unfold lastEnabledTypology.
    intros Hl%last_Some_elem_of. apply list_elem_of_filter in Hl. tauto.
  - intros t Hin Hen. rewrite LoadTypologies_lookup. unfold lastEnabledTypology.
    apply last_is_Some. intros Hnil.
    by apply (filter_nil_not_elem_of _ _ t Hnil).
  - apply LoadTypologies_size.
Qed.

Lemma EvaluateTypologies_results e R :
  EvaluateTypologies e R
  = (λ kv, evaluateTypology kv.2 (ruleScoresOf R)) <$> map_to_list (typologies e).
Proof.
  unfold EvaluateTypologies. case_bool_decide as Hsz; [|done].
  apply map_size_empty_iff in Hsz. by rewrite Hsz, map_to_list_empty.
Qed.

(** X13. Evaluating one typology by id agrees with evaluating all:
    [EvaluateTypology] reports "not found" exactly for an id that is not
    loaded, and otherwise returns a result that [EvaluateTypologies] returns
    too; after a [LoadTypologies], no two results of [EvaluateTypologies]
    carry the same typology id. *)
Theorem EvaluateTypology_agrees e ts R id :
  (EvaluateTypology e id R = None ↔ typologies e !! id = None)
  ∧ (∀ res, EvaluateTypology e id R = Some res → res ∈ EvaluateTypologies e R)
  ∧ NoDup (TypologyResult.TypologyID <$> EvaluateTypologies (LoadTypologies e ts) R).
Proof.
  split_and!.
  - unfold EvaluateTypology. by destruct (typologies e !! id).
  - intros res. unfold EvaluateTypology.
    destruct (typologies e !! id) as [T|] eqn:HT; [|done]. intros [= <-].
    rewrite EvaluateTypologies_results. apply list_elem_of_fmap.
    exists (id, T). split; [done|]. by apply elem_of_map_to_list.
  - rewrite EvaluateTypologies_results, <- list_fmap_compose.
    assert ((TypologyResult.TypologyID
             ∘ (λ kv : string * Typology.t, evaluateTypology kv.2 (ruleScoresOf R)))
            <$> map_to_list (typologies (LoadTypologies e ts))
            = (map_to_list (typologies (LoadTypologies e ts))).*1) as ->.
    { apply list_fmap_ext. intros i [k T] Hi. simpl.
      apply list_elem_of_lookup_2, elem_of_map_to_list in Hi.
      rewrite LoadTypologies_lookup in Hi. unfold lastEnabledTypology in Hi.
      apply last_Some_elem_of, list_elem_of_filter in Hi. tauto. }
    apply NoDup_fst_map_to_list.
Qed.

(** X14. [GetTriggeredTypologies] returns exactly the results of
    [EvaluateTypologies] whose score reaches their threshold, each of them
    marked as triggered. *)
Theorem GetTriggeredTypologies_spec e R :
  (∀ res, res ∈ GetTriggeredTypologies e R
          ↔ res ∈ EvaluateTypologies e R
            ∧ TypologyResult.Threshold res ≤ TypologyResult.Score res)
  ∧ (∀ res, res ∈ GetTriggeredTypologies e R → TypologyResult.Triggered res = true)
  ∧ (length (GetTriggeredTypologies e R) ≤ TypologyCount e)%nat.
Proof.
  split_and!.
  - intros res. unfold GetTriggeredTypologies. rewrite list_elem_of_filter.
    split.
    + intros [Htrig Hin]. split; [done|].
      rewrite EvaluateTypologies_results in Hin.
      apply list_elem_of_fmap in Hin as (kv & -> & _).
      simpl in *. by apply f64_ge_spec.
    + intros [Hin Hle]. split; [|done].
      rewrite EvaluateTypologies_results in Hin.
      apply list_elem_of_fmap in Hin as (kv & -> & _).
      simpl in *. by apply f64_ge_spec.
  - intros res. unfold GetTriggeredTypologies. rewrite list_elem_of_filter. tauto.
  - unfold GetTriggeredTypologies, TypologyCount.
    etrans; [apply length_filter|].
    by rewrite EvaluateTypologies_results, length_fmap, length_map_to_list.
Qed.

End typology_properties.

(** * Further properties of the decision processor *)

Section processor_properties.

Import tadp.

Implicit Types (p : Processor) (r : RuleResult.t) (rs : list RuleResult.t).
Implicit Types (input : DecisionInput).

Definition isReview r : Prop := RuleResult.SubRuleRef r = RuleOutcomeReview.

Lemma aggregateStep_triggered p agg r :
  RulesTriggered (aggregateStep p agg r)
  = (RulesTriggered agg
     + if decide (isFail r ∨ isReview r) then 1 else 0)%Z.
Proof.
  unfold aggregateStep, isFail, isReview.
  destruct (String.eqb (RuleResult.SubRuleRef r) RuleOutcomeFail) eqn:Hf.
  - apply String.eqb_eq in Hf. rewrite decide_True by (by left).
    by destruct (UseWeightedScoring p).
  - apply String.eqb_neq in Hf.
    destruct (String.eqb (RuleResult.SubRuleRef r) RuleOutcomeReview) eqn:Hr.
    + apply String.eqb_eq in Hr. rewrite decide_True by (by right).
      by destruct (UseWeightedScoring p).
    + apply String.eqb_neq in Hr. rewrite decide_False by (intros [?|?]; done).
      destruct (UseWeightedScoring p); simpl; lia.
Qed.

Lemma fold_triggered p rs agg :
  RulesTriggered (fold_left (aggregateStep p) rs agg)
  = (RulesTriggered agg
     + Z.of_nat (length (filter (λ r, isFail r ∨ isReview r) rs)))%Z.
Proof.
  revert agg. induction rs as [|r rs IH]; intros agg; simpl; [lia|].
  rewrite IH, aggregateStep_triggered, filter_cons.
  case_decide; simpl length; lia.
Qed.

(** [RulesTriggered] counts the rule results whose outcome is [.fail] or
    [.review]; [.pass] and [.err] results are not counted. *)
Lemma rules_triggered_count p rs :
  RulesTriggered (aggregate p rs)
  = Z.of_nat (length (filter (λ r, isFail r ∨ isReview r) rs)).
Proof.
  destruct rs as [|r0 rs]; [done|].
  rewrite aggregate_nonempty by done.
  by rewrite (fold_triggered p (r0 :: rs) emptyAggregate).
Qed.

(** X17. Without typology results and with at least one rule result, the
    evaluation carries exactly one typology result, the legacy
    "fraud-detection-001": its score is the evaluation's score (the
    aggregate), its threshold the alert threshold, its rules the rule results,
    and it is triggered exactly when the evaluation is [ALRT]. The metadata
    still counts zero typologies evaluated. *)
Theorem legacy_typology_result p (uuid : string) input :
  TypologyResults input = [] →
  RuleResults input ≠ [] →
  ∃ t, Evaluation.TypologyResults (Process p uuid input) = [t]
       ∧ TypologyResult.TypologyID t = "fraud-detection-001"
       ∧ TypologyResult.Score t = Evaluation.Score (Process p uuid input)
       ∧ TypologyResult.Score t = AggregateScore (aggregate p (RuleResults input))
       ∧ TypologyResult.Threshold t = AlertThreshold p
       ∧ TypologyResult.Rules t = RuleResults input
       ∧ (TypologyResult.Triggered t = true
          ↔ Evaluation.Status (Process p uuid input) = StatusAlert)
       ∧ EvaluationMetadata.TypologiesEvaluated
           (Evaluation.Metadata (Process p uuid input)) = 0%nat.
Proof.
  intros Hnil Hne. unfold Process. rewrite Hnil. simpl.
  unfold buildTypologyResults.
  rewrite bool_decide_eq_false_2 by (by destruct (RuleResults input)).
  eexists. split; [done|]. simpl. split_and!; [done..| |done].
  rewrite (proj1 (alert_or_not _)). by rewrite orb_comm.
Qed.

(** With neither rule results nor typology results the evaluation has
    score 0, carries no typology result, and is [NALT] exactly when the alert
    threshold is positive (a threshold of 0 or less alerts on everything). *)
Lemma empty_input_decision p (uuid : string) input :
  RuleResults input = [] →
  TypologyResults input = [] →
  Evaluation.Score (Process p uuid input) = 0
  ∧ Evaluation.TypologyResults (Process p uuid input) = []
  ∧ (Evaluation.Status (Process p uuid input) = StatusNoAlert ↔ 0 < AlertThreshold p)
  ∧ (Evaluation.Status (Process p uuid input) = StatusAlert ↔ AlertThreshold p ≤ 0).
Proof.
  intros Hr Ht. unfold Process. rewrite Hr, Ht. simpl. split_and!; [done|done| |].
  - rewrite (proj2 (alert_or_not _)). apply f64_le_false.
  - rewrite (proj1 (alert_or_not _)). apply f64_ge_spec.
Qed.

Lemma critical_any_processor p p' rs :
  HasCriticalFailure (aggregate p rs) = HasCriticalFailure (aggregate p' rs).
Proof.
  pose proof (aggregate_critical p rs) as H1.
  pose proof (aggregate_critical p' rs) as H2.
  destruct (HasCriticalFailure (aggregate p rs)),
           (HasCriticalFailure (aggregate p' rs)); try done.
  - symmetry. apply H2, H1. done.
  - apply H1, H2. done.
Qed.

(** X18. When typology results are provided, the processor's settings play no
    part: status and score are the same for every alert threshold and for
    weighted and unweighted scoring. *)
Theorem typology_branch_ignores_settings p p' (uuid : string) input :
  TypologyResults input ≠ [] →
  Evaluation.Status (Process p uuid input) = Evaluation.Status (Process p' uuid input)
  ∧ Evaluation.Score (Process p uuid input) = Evaluation.Score (Process p' uuid input)
  ∧ Evaluation.TypologyResults (Process p uuid input) = TypologyResults input.
Proof.
  intros Hne. unfold Process.
  rewrite bool_decide_eq_true_2
    by (destruct (TypologyResults input); [done|simpl; lia]).
  simpl. by rewrite (critical_any_processor p p').
Qed.

Lemma aggregate_same_scoring p p' rs :
  UseWeightedScoring p = UseWeightedScoring p' → aggregate p rs = aggregate p' rs.
Proof.
  intros Hw. unfold aggregate.
  assert (∀ agg, fold_left (aggregateStep p) rs agg
                 = fold_left (aggregateStep p') rs agg) as ->; [|done].
  induction rs as [|r rs IH]; intros agg; simpl; [done|].
  rewrite IH. f_equal. unfold aggregateStep. by rewrite Hw.
Qed.

(** X19. Without typology results the verdict is monotone in the alert
    threshold: with the same scoring strategy, an input that is [ALRT] under
    a threshold is [ALRT] under every lower threshold, and the reported score
    does not depend on the threshold. *)
Theorem lower_threshold_keeps_alert p p' (uuid : string) input :
  TypologyResults input = [] →
  UseWeightedScoring p = UseWeightedScoring p' →
  AlertThreshold p' ≤ AlertThreshold p →
  Evaluation.Status (Process p uuid input) = StatusAlert →
  Evaluation.Status (Process p' uuid input) = StatusAlert
  ∧ Evaluation.Score (Process p' uuid input) = Evaluation.Score (Process p uuid input).
Proof.
  intros Hnil Hw Hle. unfold Process. rewrite Hnil. simpl.
  rewrite (aggregate_same_scoring p p' _ Hw).
  rewrite !(proj1 (alert_or_not _)), !orb_true_iff, !f64_ge_spec.
  intros [Hc|Ht]; (split; [|done]); [by left|right].
  by eapply Qcle_trans.
Qed.

(** X21. [GetReasons] and [ToResponse] collect the reasons of the same rule
    results, those with outcome [.fail] or [.review], in order; [GetReasons]
    leaves the empty reasons out and [ToResponse] keeps them. [ToResponse]
    reports "ALERT" exactly for status [ALRT] and "PASS" otherwise. *)
Theorem reasons_agree (eval : Evaluation.t) :
  GetReasons eval
  = filter (λ reason, reason ≠ "") (EvaluationResponse.Reasons (ToResponse eval))
  ∧ EvaluationResponse.Reasons (ToResponse eval)
    = RuleResult.Reason
        <$> filter (λ r, isFail r ∨ isReview r) (Evaluation.RuleResults eval)
  ∧ (EvaluationResponse.Status (ToResponse eval) = StatusFail
     ↔ Evaluation.Status eval = StatusAlert)
  ∧ (EvaluationResponse.Status (ToResponse eval) = StatusPass
     ↔ Evaluation.Status eval ≠ StatusAlert).
Proof.
  unfold GetReasons, ToResponse. simpl. split_and!.
  - induction (Evaluation.RuleResults eval) as [|r rs IH]; [done|]. simpl.
    destruct (String.eqb (RuleResult.SubRuleRef r) RuleOutcomeFail
              || String.eqb (RuleResult.SubRuleRef r) RuleOutcomeReview); [|done].
    destruct (String.eqb (RuleResult.Reason r) "") eqn:Hempty.
    + apply String.eqb_eq in Hempty.
      rewrite filter_cons_False by (intros Hn; by apply Hn). exact IH.
    + apply String.eqb_neq in Hempty. rewrite filter_cons_True by done.
      f_equal. exact IH.
  - unfold isFail, isReview.
    induction (Evaluation.RuleResults eval) as [|r rs IH]; [done|]. simpl.
    rewrite filter_cons.
    destruct (String.eqb (RuleResult.SubRuleRef r) RuleOutcomeFail) eqn:Hf.
    + apply String.eqb_eq in Hf. rewrite decide_True by (by left).
      simpl. f_equal. exact IH.
    + apply String.eqb_neq in Hf.
      destruct (String.eqb (RuleResult.SubRuleRef r) RuleOutcomeReview) eqn:Hr.
      * apply String.eqb_eq in Hr. rewrite decide_True by (by right).
        simpl. f_equal. exact IH.
      * apply String.eqb_neq in Hr.
        rewrite decide_False by (intros [?|?]; done). exact IH.
  - destruct (String.eqb (Evaluation.Status eval) StatusAlert) eqn:Hs.
    + by apply String.eqb_eq in Hs.
    + apply String.eqb_neq in Hs. done.
  - destruct (String.eqb (Evaluation.Status eval) StatusAlert) eqn:Hs.
    + apply String.eqb_eq in Hs. done.
    + by apply String.eqb_neq in Hs.
Qed.

Lemma bool_eq_iff (b b' : bool) : (b = true ↔ b' = true) → b = b'.
Proof. destruct b, b'; intros [H1 H2]; try done; [symmetry|]; auto. Qed.

Lemma critical_perm p rs rs' :
  rs ≡ₚ rs' →
  HasCriticalFailure (aggregate p rs) = HasCriticalFailure (aggregate p rs').
Proof.
  intros Hperm. apply bool_eq_iff. rewrite !aggregate_critical.
  split; intros (r & Hin & Hf); exists r; (split; [|done]).
  - by rewrite <- Hperm.
  - by rewrite Hperm.
Qed.

Lemma isMaxOf_perm (m m' : float64) (l l' : list float64) :
  l ≡ₚ l' → isMaxOf m l → isMaxOf m' l' → m = m'.
Proof.
  intros Hperm [Hin Hub] [Hin' Hub']. apply Qcle_antisym.
  - apply Hub'. by rewrite <- Hperm.
  - apply Hub. by rewrite Hperm.
Qed.

(** X20. When typology results are provided, the verdict does not depend on
    the order of the results: processing the same rule results and the same
    typology results in another order gives the same status and the same
    score. (The engines range over maps, whose order is unspecified. Status
    and score are then made of comparisons alone; without typology results
    the score is a sum over the rule results, taken in their order.) *)
Theorem decision_order_independent p (uuid : string) input input' :
  TypologyResults input ≠ [] →
  RuleResults input ≡ₚ RuleResults input' →
  TypologyResults input ≡ₚ TypologyResults input' →
  Evaluation.Status (Process p uuid input) = Evaluation.Status (Process p uuid input')
  ∧ Evaluation.Score (Process p uuid input) = Evaluation.Score (Process p uuid input').
Proof.
  intros Hne Hrs Hts.
  pose proof (critical_perm p _ _ Hrs) as Hcrit.
  unfold Process. rewrite <- (Permutation_length Hts).
  rewrite bool_decide_eq_true_2
    by (destruct (TypologyResults input); [done|simpl; lia]).
  cbn [Evaluation.Status Evaluation.Score]. rewrite Hcrit.
  assert ((fold_left typologyScan (TypologyResults input) (false, 0)).1
          = (fold_left typologyScan (TypologyResults input') (false, 0)).1) as ->.
  { apply bool_eq_iff. rewrite !scan_triggered. simpl.
    split; (intros [?|(t & Hin & Ht)]; [done|right]); exists t; (split; [|done]).
    - by rewrite <- Hts.
    - by rewrite Hts. }
  split; [done|].
  eapply isMaxOf_perm; [|apply scan_max|apply scan_max]. simpl.
  apply Permutation_skip. by apply fmap_Permutation.
Qed.

End processor_properties.

(** * Further properties of the handlers *)

Section handler_properties.

Import rules api.

Implicit Types (h : Handler) (ctx : Context).

(** The input contract of [POST /evaluate]. *)
Definition validRequest (req : option TransactionRequest) : Prop :=
  ∃ r, req = Some r
       ∧ Type_ r ≠ ""
       ∧ PartyID (Debtor r) ≠ "" ∧ PartyID (Creditor r) ≠ ""
       ∧ 0 < Value (Amount r).

(** The input [Evaluate] hands to the rule engine for a request. *)
Definition evaluateInputOf ctx (txID : string) (r : TransactionRequest)
    : EvaluateInput :=
  {| rules.TenantID := CtxTenantID ctx;
     rules.TxID := txID;
     rules.Type_ := Type_ r;
     rules.DebtorID := PartyID (Debtor r);
     rules.CreditorID := PartyID (Creditor r);
     rules.Amount := Value (Amount r);
     rules.Currency := Currency (Amount r);
     rules.VelocityWindow := 3600;
     rules.AdditionalData := Metadata r |}.

(** The evaluation [Evaluate] computes for a request. *)
Definition evaluationOf h ctx (txID evalID : string) (r : TransactionRequest)
    : Evaluation.t :=
  let ruleResults := (EvaluateAll (engine h) (evaluateInputOf ctx txID r)).1 in
  tadp.Process (processor h) evalID
    {| tadp.TenantID := CtxTenantID ctx;
       tadp.TxID := txID;
       tadp.TraceID := CtxTraceID ctx;
       tadp.RuleResults := ruleResults;
       tadp.TypologyResults := typologyResultsOf h ruleResults |}.

Lemma Evaluate_valid h ctx (txID evalID : string) (r : TransactionRequest) :
  Type_ r ≠ "" → PartyID (Debtor r) ≠ "" → PartyID (Creditor r) ≠ "" →
  0 < Value (Amount r) →
  Evaluate h ctx txID evalID (Some r)
  = writeJSON StatusOK
      (EvaluateBody
         {| EvaluationID := evalID;
            TxID := txID;
            Status := Evaluation.Status (evaluationOf h ctx txID evalID r);
            Score := Evaluation.Score (evaluationOf h ctx txID evalID r);
            Reasons := tadp.GetReasons (evaluationOf h ctx txID evalID r);
            MetaTraceID := CtxTraceID ctx;
            MetaVersion := version h |}).
Proof.
  intros Hty Hd Hc Ha. unfold Evaluate.
  apply String.eqb_neq in Hty as ->. apply String.eqb_neq in Hd as ->.
  apply String.eqb_neq in Hc as ->. simpl.
  apply f64_le_false in Ha as ->.
  unfold evaluationOf. fold (evaluateInputOf ctx txID r).
  pose proof (EvaluateAll_no_error (engine h) (evaluateInputOf ctx txID r)) as Herr.
  destruct (EvaluateAll (engine h) (evaluateInputOf ctx txID r)) as [results err].
  simpl in *. subst err. f_equal. f_equal. f_equal.
  - unfold tadp.Process. by case_bool_decide.
Qed.

Lemma Evaluate_invalid h ctx (txID evalID : string) (req : option TransactionRequest) :
  ¬ validRequest req → code (Evaluate h ctx txID evalID req) = StatusBadRequest.
Proof.
  intros Hinv. unfold Evaluate. destruct req as [r|]; [|done].
  destruct (String.eqb (Type_ r) "") eqn:Hty; [done|].
  destruct (String.eqb (PartyID (Debtor r)) "") eqn:Hd; [done|].
  destruct (String.eqb (PartyID (Creditor r)) "") eqn:Hc; [done|]. simpl.
  destruct (f64_le (Value (Amount r)) 0) eqn:Ha; [done|].
  exfalso. apply Hinv. exists r.
  apply String.eqb_neq in Hty, Hd, Hc. apply f64_le_false in Ha. done.
Qed.

(** X22. [Evaluate] answers 400 exactly when the request breaks the input
    contract (undecodable body, empty type, empty debtor or creditor id,
    amount not positive) and 200 otherwise, whatever the engines hold. A 200
    response echoes the transaction id, the evaluation id, the trace id and
    the version, and reports the status, score and reasons of the evaluation
    the processor makes of the rule results and of the typology results. *)
Theorem Evaluate_contract h ctx (txID evalID : string) (req : option TransactionRequest) :
  (code (Evaluate h ctx txID evalID req) = StatusBadRequest ↔ ¬ validRequest req)
  ∧ (code (Evaluate h ctx txID evalID req) = StatusOK ↔ validRequest req)
  ∧ (∀ r, req = Some r → validRequest req →
          body (Evaluate h ctx txID evalID req)
          = EvaluateBody
              {| EvaluationID := evalID;
                 TxID := txID;
                 Status := Evaluation.Status (evaluationOf h ctx txID evalID r);
                 Score := Evaluation.Score (evaluationOf h ctx txID evalID r);
                 Reasons := tadp.GetReasons (evaluationOf h ctx txID evalID r);
                 MetaTraceID := CtxTraceID ctx;
                 MetaVersion := version h |}).
Proof.
  assert (validRequest req ∨ ¬ validRequest req) as [Hv|Hinv].
  { destruct req as [r|]; [|right; by intros (r & ? & _)].
    destruct (decide (Type_ r = ""));
      [right; by intros (r' & [= <-] & ? & _)|].
    destruct (decide (PartyID (Debtor r) = ""));
      [right; by intros (r' & [= <-] & ? & ? & _)|].
    destruct (decide (PartyID (Creditor r) = ""));
      [right; by intros (r' & [= <-] & ? & ? & ? & _)|].
    destruct (decide (0 < Value (Amount r)));
      [|right; by intros (r' & [= <-] & ? & ? & ? & ?)].
    left. by exists r. }
  - destruct Hv as (r & -> & Hty & Hd & Hc & Ha).
    assert (validRequest (Some r)) as Hv by (by exists r).
    rewrite (Evaluate_valid h ctx txID evalID r) by done. simpl. split_and!.
    + split; [done|]. by intros Hn.
    + done.
    + by intros r' [= <-] _.
  - rewrite (Evaluate_invalid h ctx txID evalID req Hinv). split_and!.
    + done.
    + split; [done|]. by intros Hv.
    + by intros r _ Hv.
Qed.

End handler_properties.

(** * Further properties of rule and typology management *)

Section management_properties.

Import rules api.

Implicit Types (h : Handler) (e : Engine).

Lemma with_engine_same h : with_engine h (engine h) = h.
Proof. by destruct h. Qed.

(** X23. What a failed [CreateRule] leaves behind. A 400 (undecodable body,
    missing id, name or expression, or an expression that does not compile)
    leaves the handler as it was. A 500 (the repository refused the save)
    leaves the repository as it was but not the engine: the rule is loaded
    in the live set although the create failed. No other code than 201, 400
    and 500 is returned. *)
Theorem CreateRule_failures h (req : option CreateRuleRequest) :
  (code (CreateRule h req).1 = StatusBadRequest → (CreateRule h req).2 = h)
  ∧ (code (CreateRule h req).1 = StatusInternalServerError →
     repo (CreateRule h req).2 = repo h
     ∧ ∃ r compiled,
         req = Some r
         ∧ compiledRules (engine (CreateRule h req).2) !! ReqID r = Some compiled
         ∧ RuleConfig.ID (Config compiled) = ReqID r)
  ∧ (code (CreateRule h req).1 = StatusCreated
     ∨ code (CreateRule h req).1 = StatusBadRequest
     ∨ code (CreateRule h req).1 = StatusInternalServerError).
Proof.
  unfold CreateRule. destruct req as [r|]; [|by split_and!; [done|done|right; left]].
  destruct (String.eqb (ReqID r) "" || String.eqb (ReqName r) ""
            || String.eqb (ReqExpression r) "");
    [by split_and!; [done|done|right; left]|].
  destruct (LoadRule _ _) as [[err|] e'] eqn:Hload.
  - assert (e' = engine h) as ->.
    { unfold LoadRule in Hload. destruct (compileRule _ _); by simplify_eq. }
    rewrite with_engine_same. by split_and!; [done|done|right; left].
  - apply LoadRule_publishes in Hload as (compiled & Hc & Hrules).
    assert (RuleConfig.ID (Config compiled) = ReqID r) as Hid.
    { unfold compileRule in Hc. repeat case_match; simplify_eq; done. }
    simpl in Hrules.
    destruct (repo (with_engine h e')) as [rp|] eqn:Hrepo; simpl in Hrepo.
    + unfold SaveRuleConfig. destruct (repoUp rp); simpl.
      * by split_and!; [done|done|left].
      * split_and!; [done| |by right; right]. intros _. split; [done|].
        exists r, compiled. split; [done|]. simpl.
        by rewrite Hrules, lookup_insert_eq.
    + simpl. by split_and!; [done|done|left].
Qed.

(** X24. The [ReloadRules] handler changes the handler only when it answers
    200. Without repository it answers 503; when the repository cannot list
    the rules it answers 500 "failed to load rules from database"; when one
    of the listed rules does not compile it answers 500 with the error of the
    engine; in each of these cases engine and repository are as before. In
    every other case it answers 200: a 200 reports the number of configs read
    from the repository, and the engine is the one [Engine.ReloadRules] makes
    of them. *)
Theorem ReloadRules_handler h :
  (code (ReloadRules h).1 ≠ StatusOK → (ReloadRules h).2 = h)
  ∧ (repo h = None →
     (ReloadRules h).1
     = writeJSON StatusServiceUnavailable (ErrorBody "repository not available"))
  ∧ (∀ rp err,
       repo h = Some rp →
       ListRuleConfigs rp GlobalTenantID = inr err →
       (ReloadRules h).1
       = writeJSON StatusInternalServerError
           (ErrorBody "failed to load rules from database"))
  ∧ (∀ rp dbRules err,
       repo h = Some rp →
       ListRuleConfigs rp GlobalTenantID = inl dbRules →
       (rules.ReloadRules (engine h) dbRules).1 = Some err →
       (ReloadRules h).1
       = writeJSON StatusInternalServerError
           (ErrorBody ("failed to reload rules: " +:+ err)))
  ∧ (∀ rp dbRules,
       repo h = Some rp →
       ListRuleConfigs rp GlobalTenantID = inl dbRules →
       (rules.ReloadRules (engine h) dbRules).1 = None →
       code (ReloadRules h).1 = StatusOK)
  ∧ (code (ReloadRules h).1 = StatusOK →
     ∃ rp dbRules,
       repo h = Some rp
       ∧ ListRuleConfigs rp GlobalTenantID = inl dbRules
       ∧ rules.ReloadRules (engine h) dbRules = (None, engine (ReloadRules h).2)
       ∧ body (ReloadRules h).1
         = ReloadedBody "rules reloaded successfully" (length dbRules)
       ∧ repo (ReloadRules h).2 = repo h).
Proof.
  unfold ReloadRules. destruct (repo h) as [rp|] eqn:Hrepo.
  2:{ split_and!; [done|done|by intros ? ? [=]|by intros ? ? ? [=]
                  |by intros ? ? [=]|done]. }
  destruct (ListRuleConfigs rp GlobalTenantID) as [dbRules|err] eqn:Hlist.
  2:{ split_and!; [done|done| | | |done].
      - by intros rp' err' [= <-] _.
      - intros rp' dbRules' err' [= <-] Hl. by rewrite Hlist in Hl.
      - intros rp' dbRules' [= <-] Hl. by rewrite Hlist in Hl. }
  destruct (rules.ReloadRules (engine h) dbRules) as [[err|] e'] eqn:Hreload.
  - assert (e' = engine h) as ->.
    { unfold rules.ReloadRules in Hreload.
      destruct (reloadLoop _ _ _); by simplify_eq. }
    rewrite with_engine_same. split_and!; [done|done| | | |done].
    + intros rp' err' [= <-] Hl. by rewrite Hlist in Hl.
    + intros rp' dbRules' err' [= <-] Hl. rewrite Hlist in Hl.
      injection Hl as <-. rewrite Hreload. by intros [= <-].
    + intros rp' dbRules' [= <-] Hl. rewrite Hlist in Hl.
      injection Hl as <-. by rewrite Hreload.
  - split_and!; [done|done| | |done|].
    + intros rp' err' [= <-] Hl. by rewrite Hlist in Hl.
    + intros rp' dbRules' err' [= <-] Hl. rewrite Hlist in Hl.
      injection Hl as <-. by rewrite Hreload.
    + intros _. exists rp, dbRules. by split_and!.
Qed.

Lemma reloadLoop_domain e (C : list RuleConfig.t) (acc m : gmap string CompiledRule) :
  reloadLoop e C acc = inl m →
  (∀ id, is_Some (acc !! id) → is_Some (m !! id))
  ∧ (∀ cfg, cfg ∈ C → RuleConfig.Enabled cfg = true → is_Some (m !! RuleConfig.ID cfg)).
Proof.
  revert acc. induction C as [|cfg C IH]; intros acc; simpl.
  - intros [= <-]. split; [done|]. by intros cfg ?%elem_of_nil.
  - destruct (RuleConfig.Enabled cfg) eqn:Hen; simpl.
    + destruct (compileRule e cfg) as [compiled|err]; [|done].
      intros [Hacc Hin]%IH. split.
      * intros id Hid. apply Hacc. rewrite lookup_insert. by case_decide.
      * intros cfg' [->|Hc]%elem_of_cons Hen'; [|by apply Hin].
        apply Hacc. by rewrite lookup_insert_eq.
    + intros [Hacc Hin]%IH. split; [done|].
      intros cfg' [->|Hc]%elem_of_cons Hen'; [congruence|by apply Hin].
Qed.

(** X25. Create, then reload. After an enabled rule has been created with
    201 on a handler that has a repository, every reload that answers 200
    leaves this rule in the live set: the create has persisted it as a global,
    enabled config, and the reload lists and compiles it. *)
Theorem create_then_reload h (r : CreateRuleRequest) :
  repo h ≠ None →
  ReqEnabled r = true →
  code (CreateRule h (Some r)).1 = StatusCreated →
  code (ReloadRules (CreateRule h (Some r)).2).1 = StatusOK →
  is_Some (compiledRules (engine (ReloadRules (CreateRule h (Some r)).2).2)
             !! ReqID r).
Proof.
  intros Hrepo Hen. unfold CreateRule.
  destruct (String.eqb (ReqID r) "" || String.eqb (ReqName r) ""
            || String.eqb (ReqExpression r) ""); [done|].
  set (cfg := {| RuleConfig.ID := ReqID r; RuleConfig.TenantID := GlobalTenantID;
                 RuleConfig.Name := ReqName r;
                 RuleConfig.Description := ReqDescription r;
                 RuleConfig.Version := "1.0.0";
                 RuleConfig.Expression := ReqExpression r;
                 RuleConfig.Bands := ReqBands r;
                 RuleConfig.Weight := ReqWeight r;
                 RuleConfig.Enabled := ReqEnabled r |}).
  destruct (LoadRule (engine h) cfg) as [[err|] e']; [done|]. simpl.
  destruct (repo h) as [rp0|]; [|done]. simpl.
  unfold SaveRuleConfig. destruct (repoUp rp0) eqn:Hup; [|done]. simpl.
  intros _. unfold ReloadRules. simpl. unfold ListRuleConfigs. simpl.
  set (dbRules := filter _ (filter _ (ruleConfigs rp0) ++ [cfg])).
  assert (cfg ∈ dbRules) as Hin.
  { apply list_elem_of_filter. split; [by split|].
    apply elem_of_app. right. apply list_elem_of_here. }
  unfold rules.ReloadRules.
  destruct (reloadLoop e' dbRules ∅) as [m|err] eqn:Hloop; [|done]. simpl.
  intros _. destruct (reloadLoop_domain _ _ _ _ Hloop) as [_ Hdom].
  by apply (Hdom cfg).
Qed.

Lemma GetLoadedRules_elem e (cfg : RuleConfig.t) :
  cfg ∈ GetLoadedRules e
  ↔ ∃ id compiled, compiledRules e !! id = Some compiled ∧ Config compiled = cfg.
Proof.
  unfold GetLoadedRules. rewrite list_elem_of_fmap. split.
  - intros ([id compiled] & -> & Hin%elem_of_map_to_list). by exists id, compiled.
  - intros (id & compiled & Hl & <-). exists (id, compiled).
    split; [done|]. by apply elem_of_map_to_list.
Qed.

(** X26. [GetRule] answers 400 for an empty id; otherwise it answers 200 with
    a loaded config of this id when the engine holds one and 404 when it holds
    none. On an engine that keeps its rules under their own ids, that is 200
    exactly for the ids bound in the live set. [ListRules] reports as count
    the number of loaded rules. *)
Theorem GetRule_found h (ruleID : string) :
  (ruleID = "" → code (GetRule h ruleID) = StatusBadRequest)
  ∧ (ruleID ≠ "" →
     (code (GetRule h ruleID) = StatusOK
      ↔ ∃ cfg, cfg ∈ GetLoadedRules (engine h) ∧ RuleConfig.ID cfg = ruleID)
     ∧ (code (GetRule h ruleID) = StatusNotFound
        ↔ ¬ ∃ cfg, cfg ∈ GetLoadedRules (engine h) ∧ RuleConfig.ID cfg = ruleID)
     ∧ (∀ cfg, body (GetRule h ruleID) = RuleBody cfg →
               cfg ∈ GetLoadedRules (engine h) ∧ RuleConfig.ID cfg = ruleID)
     ∧ (keyedByID (engine h) →
        (code (GetRule h ruleID) = StatusOK
         ↔ is_Some (compiledRules (engine h) !! ruleID))))
  ∧ body (ListRules h)
    = RulesBody (GetLoadedRules (engine h)) (RulesCount (engine h)).
Proof.
  split_and!.
  - intros ->. done.
  - intros Hne. unfold GetRule. apply String.eqb_neq in Hne as ->.
    destruct (list_find _ _) as [[i cfg]|] eqn:Hfind.
    + apply list_find_Some in Hfind as (Hi & Hid & _).
      apply list_elem_of_lookup_2 in Hi as Hin. simpl.
      assert (∃ cfg, cfg ∈ GetLoadedRules (engine h) ∧ RuleConfig.ID cfg = ruleID)
        as Hex by (by exists cfg).
      split_and!.
      * done.
      * split; [done|]. by intros Hn.
      * by intros cfg' [= <-].
      * intros Hk. split; [|done]. intros _.
        apply GetLoadedRules_elem in Hin as (id & compiled & Hl & <-).
        rewrite <- Hid, (Hk _ _ Hl). by rewrite Hl.
    + apply list_find_None in Hfind. rewrite Forall_forall in Hfind. simpl.
      assert (¬ ∃ cfg, cfg ∈ GetLoadedRules (engine h) ∧ RuleConfig.ID cfg = ruleID)
        as Hnone.
      { intros (cfg & Hin & Hid). by apply (Hfind cfg). }
      split_and!.
      * split; [done|]. by intros Hex.
      * done.
      * done.
      * intros Hk. split; [done|]. intros [compiled Hl]. exfalso. apply Hnone.
        exists (Config compiled). split; [|by apply Hk].
        apply GetLoadedRules_elem. by exists ruleID, compiled.
  - unfold ListRules, GetLoadedRules, RulesCount. simpl.
    by rewrite length_fmap, length_map_to_list.
Qed.

End management_properties.

(** * Further properties of typology management and of the worker *)

Section typology_management.

Import rules api.

Implicit Types (h : Handler) (req : CreateTypologyRequest).
Implicit Types (rw : TypologyRuleWeight.t).

Definition weightInRange rw : Prop :=
  0 ≤ TypologyRuleWeight.Weight rw ∧ TypologyRuleWeight.Weight rw ≤ 1.

(** What [CreateTypology] requires of a request. *)
Definition acceptableTypology h req : Prop :=
  TReqID req ≠ "" ∧ TReqName req ≠ ""
  ∧ TReqRules req ≠ []
  ∧ (∀ rw, rw ∈ TReqRules req →
       TypologyRuleWeight.RuleID rw ≠ ""
       ∧ (∃ cfg, cfg ∈ GetLoadedRules (engine h)
                 ∧ RuleConfig.ID cfg = TypologyRuleWeight.RuleID rw)
       ∧ weightInRange rw)
  ∧ 0 < TReqAlertThreshold req ∧ TReqAlertThreshold req ≤ 1.

Definition repositoryAccepts h : Prop :=
  repo h = None ∨ ∃ rp, repo h = Some rp ∧ repoUp rp = true.

Lemma weight_check rw :
  f64_lt (TypologyRuleWeight.Weight rw) 0 || f64_gt (TypologyRuleWeight.Weight rw) 1
  = false ↔ weightInRange rw.
Proof.
  unfold weightInRange, f64_gt. rewrite orb_false_iff, !f64_lt_false. done.
Qed.

Lemma checkCreateRules_None (ruleIDSet : gset string)
    (rws : list TypologyRuleWeight.t) :
  checkCreateRules ruleIDSet rws = None
  ↔ ∀ rw, rw ∈ rws →
      TypologyRuleWeight.RuleID rw ≠ ""
      ∧ TypologyRuleWeight.RuleID rw ∈ ruleIDSet
      ∧ weightInRange rw.
Proof.
  induction rws as [|rw rws IH]; simpl.
  - split; [|done]. by intros _ rw ?%elem_of_nil.
  - destruct (String.eqb (TypologyRuleWeight.RuleID rw) "") eqn:Hid.
    { apply String.eqb_eq in Hid. split; [done|]. intros Hall.
      by destruct (Hall rw (list_elem_of_here _ _)). }
    apply String.eqb_neq in Hid. case_bool_decide as Hset; simpl.
    2:{ split; [done|]. intros Hall.
        by destruct (Hall rw (list_elem_of_here _ _)) as (_ & ? & _). }
    destruct (f64_lt _ _ || f64_gt _ _) eqn:Hw.
    { split; [done|]. intros Hall.
      destruct (Hall rw (list_elem_of_here _ _)) as (_ & _ & Hr).
      apply weight_check in Hr. congruence. }
    apply weight_check in Hw. rewrite IH. split.
    + intros Hall rw' [->|Hin]%elem_of_cons; [done|by apply Hall].
    + intros Hall rw' Hin. by apply Hall, list_elem_of_further.
Qed.

Lemma checkUpdateRules_None (rws : list TypologyRuleWeight.t) :
  checkUpdateRules rws = None
  ↔ ∀ rw, rw ∈ rws → TypologyRuleWeight.RuleID rw ≠ "" ∧ weightInRange rw.
Proof.
  induction rws as [|rw rws IH]; simpl.
  - split; [|done]. by intros _ rw ?%elem_of_nil.
  - destruct (String.eqb (TypologyRuleWeight.RuleID rw) "") eqn:Hid.
    { apply String.eqb_eq in Hid. split; [done|]. intros Hall.
      by destruct (Hall rw (list_elem_of_here _ _)). }
    apply String.eqb_neq in Hid.
    destruct (f64_lt _ _ || f64_gt _ _) eqn:Hw.
    { split; [done|]. intros Hall.
      destruct (Hall rw (list_elem_of_here _ _)) as (_ & Hr).
      apply weight_check in Hr. congruence. }
    apply weight_check in Hw. rewrite IH. split.
    + intros Hall rw' [->|Hin]%elem_of_cons; [done|by apply Hall].
    + intros Hall rw' Hin. by apply Hall, list_elem_of_further.
Qed.

Lemma CreateTypology_cases h req :
  (acceptableTypology h req
   ∧ ((repositoryAccepts h
       ∧ CreateTypology h (Some req)
         = {| tcode := StatusCreated;
              tbody := TypologySavedBody (typologyOf (TReqID req) req)
                "Typology created. Call POST /typologies/reload to apply changes." |})
      ∨ (¬ repositoryAccepts h
         ∧ tcode (CreateTypology h (Some req)) = StatusInternalServerError)))
  ∨ (¬ acceptableTypology h req
     ∧ tcode (CreateTypology h (Some req)) = StatusBadRequest).
Proof.
  unfold CreateTypology, acceptableTypology.
  destruct (String.eqb (TReqID req) "") eqn:Hid; simpl.
  { apply String.eqb_eq in Hid. right. split; [|done]. by intros (? & _). }
  destruct (String.eqb (TReqName req) "") eqn:Hname; simpl.
  { apply String.eqb_eq in Hname. right. split; [|done]. by intros (_ & ? & _). }
  apply String.eqb_neq in Hid, Hname.
  case_bool_decide as Hlen.
  { right. split; [|done]. intros (_ & _ & Hne & _).
    by apply nil_length_inv in Hlen. }
  destruct (checkCreateRules _ _) as [err|] eqn:Hcheck.
  { right. split; [|done]. intros (_ & _ & _ & Hall & _).
    assert (checkCreateRules
              (list_to_set (RuleConfig.ID <$> GetLoadedRules (engine h)))
              (TReqRules req) = None) as Hnone; [|congruence].
    apply checkCreateRules_None. intros rw Hrw.
    destruct (Hall rw Hrw) as (? & (cfg & Hcfg & Hcid) & ?).
    split_and!; [done| |done].
    apply elem_of_list_to_set, list_elem_of_fmap. by exists cfg. }
  destruct (f64_le (TReqAlertThreshold req) 0) eqn:Hlow; simpl.
  { apply f64_le_spec in Hlow. right. split; [|done].
    intros (_ & _ & _ & _ & Hpos & _). by apply (Qclt_not_le _ _ Hpos). }
  destruct (f64_gt (TReqAlertThreshold req) 1) eqn:Hhigh.
  { apply f64_gt_spec in Hhigh. right. split; [|done].
    intros (_ & _ & _ & _ & _ & Hle). by apply (Qclt_not_le _ _ Hhigh). }
  apply f64_le_false in Hlow. apply f64_lt_false in Hhigh.
  left. split.
  { split_and!; [done|done|by destruct (TReqRules req)| |done|done].
    intros rw Hrw. rewrite checkCreateRules_None in Hcheck.
    destruct (Hcheck rw Hrw) as (? & Hset & ?). split_and!; [done| |done].
    apply elem_of_list_to_set, list_elem_of_fmap in Hset as (cfg & ? & ?).
    by exists cfg. }
  unfold repositoryAccepts, SaveTypology.
  destruct (repo h) as [rp|]; [|left; split; [by left|done]].
  destruct (repoUp rp) eqn:Hup.
  - left. split; [|done]. right. by exists rp.
  - right. split; [|done]. intros [?|(rp' & [= <-] & ?)]; congruence.
Qed.

(** X27. [CreateTypology] answers 201 only for a request that has an id and
    a name, lists at least one rule, names only rules that are loaded in the
    rule engine, with non-empty ids and weights within [0, 1], and has an
    alert threshold in (0, 1]; it answers 400 exactly when the request fails
    one of these, and for a request that meets them 201 when there is no
    repository or the repository accepts the save, 500 otherwise. The
    typology it persists is global (tenant "*"), version "1.0.0", and carries
    the rules and threshold of the request. *)
Theorem CreateTypology_validates h req :
  (tcode (CreateTypology h (Some req)) = StatusBadRequest ↔ ¬ acceptableTypology h req)
  ∧ (tcode (CreateTypology h (Some req)) = StatusCreated
     ↔ acceptableTypology h req ∧ repositoryAccepts h)
  ∧ (tcode (CreateTypology h (Some req)) = StatusInternalServerError
     ↔ acceptableTypology h req ∧ ¬ repositoryAccepts h)
  ∧ (tcode (CreateTypology h (Some req)) = StatusCreated →
     ∃ message, tbody (CreateTypology h (Some req))
                = TypologySavedBody (typologyOf (TReqID req) req) message).
Proof.
  destruct (CreateTypology_cases h req)
    as [[Hacc [[Hrepo ->]|[Hrepo Hcode]]]|[Hacc Hcode]].
  - simpl. split_and!; [split; [done|by intros ?]|done|split; [done|by intros [_ ?]]|].
    intros _. by eexists.
  - rewrite Hcode.
    split_and!; [split; [done|by intros ?]|split; [done|by intros [_ ?]]|done|done].
  - rewrite Hcode.
    split_and!; [done|split; [done|by intros [? _]]|split; [done|by intros [? _]]|done].
Qed.

(** X28. [UpdateTypology] checks less than [CreateTypology]: with a non-empty
    id in the path and a decodable body it answers 200, when the repository
    accepts the save, exactly when every listed rule has a non-empty id and a
    weight within [0, 1]. The alert threshold, the name, the emptiness of the
    rule list and the existence of the rules are not checked, and the
    typology it persists carries the threshold of the request unchanged. *)
Theorem UpdateTypology_checks h (typologyID : string) req :
  typologyID ≠ "" →
  repositoryAccepts h →
  (tcode (UpdateTypology h typologyID (Some req)) = StatusOK
   ↔ ∀ rw, rw ∈ TReqRules req →
           TypologyRuleWeight.RuleID rw ≠ "" ∧ weightInRange rw)
  ∧ (tcode (UpdateTypology h typologyID (Some req)) = StatusOK →
     ∃ message, tbody (UpdateTypology h typologyID (Some req))
                = TypologySavedBody (typologyOf typologyID req) message
                ∧ Typology.AlertThreshold (typologyOf typologyID req)
                  = TReqAlertThreshold req)
  ∧ (tcode (UpdateTypology h typologyID (Some req)) = StatusOK
     ∨ tcode (UpdateTypology h typologyID (Some req)) = StatusBadRequest).
Proof.
  intros Hid Hrepo. unfold UpdateTypology. apply String.eqb_neq in Hid as ->.
  destruct (checkUpdateRules (TReqRules req)) as [err|] eqn:Hcheck.
  - simpl. split_and!; [|done|by right]. split; [done|].
    intros Hall%checkUpdateRules_None. congruence.
  - pose proof (proj1 (checkUpdateRules_None _) Hcheck) as Hall.
    assert (match repo h with
            | Some r =>
                match SaveTypology r GlobalTenantID (typologyOf typologyID req) with
                | Some _ =>
                    {| tcode := StatusInternalServerError;
                       tbody := TypologyErrorBody "failed to update typology" |}
                | None =>
                    {| tcode := StatusOK;
                       tbody := TypologySavedBody (typologyOf typologyID req)
                         "Typology updated. Call POST /typologies/reload to apply changes." |}
                end
            | None =>
                {| tcode := StatusOK;
                   tbody := TypologySavedBody (typologyOf typologyID req)
                     "Typology updated. Call POST /typologies/reload to apply changes." |}
            end
            = {| tcode := StatusOK;
                 tbody := TypologySavedBody (typologyOf typologyID req)
                   "Typology updated. Call POST /typologies/reload to apply changes." |})
      as ->.
    { destruct Hrepo as [->|(rp & -> & Hup)]; [done|].
      unfold SaveTypology. by rewrite Hup. }
    simpl. split_and!; [done| |by left]. intros _. by eexists.
Qed.

End typology_management.

Section worker_properties.

Import rules.

Implicit Types (w : worker.Worker) (msg : worker.Message).

(** The tenant a message is processed for: its own when it names one, the
    tenant of the subscription otherwise. *)
Definition effectiveTenant (tenantID : string) (txMsg : worker.TransactionMessage)
    : string :=
  if String.eqb (worker.TenantID txMsg) "" then tenantID else worker.TenantID txMsg.

(** X29. The worker publishes nothing for a payload it cannot decode and
    returns an error. For every other message it returns no error and
    publishes the evaluation to the decision topic, followed by the same
    evaluation to the alert topic exactly when its status is [ALRT]; both are
    published for the tenant named in the message, or for the tenant of the
    subscription when the message names none. *)
Theorem worker_publishes w (tenantID : string) msg (evalID : string) :
  (worker.Payload msg = None →
   ∃ err, worker.processTransaction w tenantID msg evalID = (Some err, []))
  ∧ (∀ txMsg, worker.Payload msg = Some txMsg →
       ∃ evaluation,
         worker.processTransaction w tenantID msg evalID
         = (None,
            worker.mkPublished (effectiveTenant tenantID txMsg)
              worker.TopicDecision evaluation
            :: if bool_decide (Evaluation.Status evaluation = StatusAlert)
               then [ worker.mkPublished (effectiveTenant tenantID txMsg)
                        worker.TopicAlert evaluation ]
               else [])
         ∧ Evaluation.TenantID evaluation = effectiveTenant tenantID txMsg
         ∧ Evaluation.TxID evaluation = worker.TxID txMsg
         ∧ Evaluation.ID evaluation = evalID).
Proof.
  unfold worker.processTransaction. split.
  - intros ->. by eexists.
  - intros txMsg ->. fold (effectiveTenant tenantID txMsg).
    lazymatch goal with
    | |- context [EvaluateAll ?e ?i] =>
        pose proof (EvaluateAll_no_error e i) as Herr;
        destruct (EvaluateAll e i) as [results err]
    end.
    simpl in Herr. subst err. eexists. split_and!.
    + f_equal. f_equal. unfold tadp.ShouldAlert.
      destruct (String.eqb _ StatusAlert) eqn:Hs.
      * apply String.eqb_eq in Hs. by rewrite bool_decide_eq_true_2.
      * apply String.eqb_neq in Hs. by rewrite bool_decide_eq_false_2.
    + unfold tadp.Process. by case_bool_decide.
    + unfold tadp.Process. by case_bool_decide.
    + unfold tadp.Process. by case_bool_decide.
Qed.

End worker_properties.

(** * The further properties on concrete inputs *)

Section property_witnesses.

Import rules.

(** A CEL environment whose only expression divides by zero when run. *)
Definition faultyEnv : cel.Env :=
  {| cel.Compile := λ src,
       if String.eqb src "1 / 0 > 0" then inl (cel.mkAst cel.BoolType src)
       else inr "undeclared reference";
     cel.MkProgram := λ ast, inl (λ _, inr "division by zero") |}.

Definition faultyRule : RuleConfig.t :=
  ruleConfig "faulty-001" "Faulty" "1 / 0 > 0" [] 1 true.

Definition faultyEngine : Engine := (LoadRule (NewEngine faultyEnv None 5) faultyRule).2.

Definition failingGetter : VelocityGetter := λ _ _ _, inr "no data source available".

Definition persistentHandler : api.Handler :=
  api.NewHandler (Some {| api.ruleConfigs := []; api.repoUp := true |}) None
                 testEngine (Some NewTypologyEngine) tadp.NewProcessor "test-v1".

Definition thresholdFreeUpdate : api.CreateTypologyRequest :=
  {| api.TReqID := ""; api.TReqName := ""; api.TReqDescription := "";
     api.TReqRules :=
       [ {| TypologyRuleWeight.RuleID := "unknown-rule";
            TypologyRuleWeight.Weight := Q2Qc (1 # 2) |} ];
     api.TReqAlertThreshold := 0; api.TReqEnabled := true |}.

Definition unboundedPassBand : RuleBand.t :=
  {| RuleBand.LowerLimit := None; RuleBand.UpperLimit := Some 1;
     RuleBand.SubRuleRef := ".review"; RuleBand.Reason := "below one" |}.

Lemma testEngine_keyed : keyedByID testEngine.
Proof. apply keyedByID_LoadRule. by apply keyedByID_empty. Qed.

Lemma enabled_compile :
  ∀ cfg, cfg ∈ [sameAccountRule; disabledRule] →
         RuleConfig.Enabled cfg = true → is_Some (compiledOf testEngine cfg).
Proof.
  intros cfg Hin Hen.
  apply elem_of_cons in Hin as [->|Hin]; [by vm_compute; eauto|].
  apply list_elem_of_singleton in Hin as ->. done.
Qed.

Lemma LoadRules_merges_witness :
  (∀ cfg, cfg ∈ [sameAccountRule; disabledRule] →
          RuleConfig.Enabled cfg = true → is_Some (compiledOf testEngine cfg))
  ∧ (LoadRules testEngine [sameAccountRule; disabledRule]).1 = None.
Proof.
  split; [apply enabled_compile|].
  by apply (LoadRules_merges testEngine [sameAccountRule; disabledRule] enabled_compile).
Defined.

Lemma LoadRules_partial_witness :
  RuleConfig.Enabled brokenRule = true
  ∧ compileRule testEngine brokenRule
    = inr "failed to compile rule broken-001: undeclared reference"
  ∧ LoadRules testEngine ([sameAccountRule; disabledRule] ++ brokenRule :: [disabledRule])
    = (Some "failed to compile rule broken-001: undeclared reference",
       (LoadRules testEngine [sameAccountRule; disabledRule]).2).
Proof.
  split; [done|]. split; [by vm_compute|].
  by apply (LoadRules_partial testEngine [sameAccountRule; disabledRule]
              [disabledRule] brokenRule _ enabled_compile).
Defined.

Lemma EvaluateAll_distinct_ids_witness :
  keyedByID testEngine
  ∧ NoDup (RuleResult.RuleID <$> (EvaluateAll testEngine largeTransferInput).1).
Proof.
  split; [apply testEngine_keyed|].
  by apply (EvaluateAll_distinct_ids testEngine largeTransferInput testEngine_keyed).
Defined.

Lemma EvaluateAll_rule_result_witness :
  (∃ rule, compiledRules faultyEngine !! "faulty-001" = Some rule)
  ∧ ∃ r, r ∈ (EvaluateAll faultyEngine largeTransferInput).1
         ∧ RuleResult.SubRuleRef r = RuleOutcomeError.
Proof.
  assert (∃ rule, compiledRules faultyEngine !! "faulty-001" = Some rule) as Hrule.
  { by vm_compute; eauto. }
  split; [done|]. destruct Hrule as [rule Hrule].
  destruct (EvaluateAll_rule_result faultyEngine largeTransferInput _ rule Hrule)
    as (_ & r & Hin & _ & Hres).
  exists r. split; [done|].
  assert (Program rule (activationFor faultyEngine largeTransferInput)
          = inr "division by zero") as Hprog.
  { vm_compute in Hrule. by injection Hrule as <-. }
  rewrite Hprog in Hres. tauto.
Defined.

Lemma velocity_failure_witness :
  (∃ err, failingGetter (TenantID largeTransferInput) (DebtorID largeTransferInput)
            (VelocityWindow largeTransferInput) = inr err)
  ∧ EvaluateAll (with_velocityGetter testEngine (Some failingGetter)) largeTransferInput
    = EvaluateAll (with_velocityGetter testEngine None) largeTransferInput.
Proof.
  assert (∃ err, failingGetter (TenantID largeTransferInput)
                   (DebtorID largeTransferInput)
                   (VelocityWindow largeTransferInput) = inr err) as Hfail.
  { by eexists. }
  split; [done|].
  by apply (velocity_failure_is_no_provider testEngine largeTransferInput
              failingGetter (or_introl Hfail)).
Defined.

Lemma negative_score_witness :
  - (1) < 0
  ∧ (∀ b, b ∈ [unboundedPassBand] → 0 ≤ default 0 (RuleBand.LowerLimit b))
  ∧ matchBand (- (1)) [unboundedPassBand] = (RuleOutcomePass, "no matching band").
Proof.
  assert (∀ b, b ∈ [unboundedPassBand] → 0 ≤ default 0 (RuleBand.LowerLimit b))
    as Hlow.
  { by intros b ->%list_elem_of_singleton. }
  split; [done|]. split; [done|].
  by apply (negative_score_matches_no_band (- (1)) [unboundedPassBand]).
Defined.

Lemma legacy_typology_result_witness :
  tadp.TypologyResults (decisionInput lowPassResults []) = []
  ∧ tadp.RuleResults (decisionInput lowPassResults []) ≠ []
  ∧ ∃ t, Evaluation.TypologyResults
           (tadp.Process tadp.NewProcessor "eval-001" (decisionInput lowPassResults []))
         = [t]
         ∧ TypologyResult.TypologyID t = "fraud-detection-001".
Proof.
  split; [done|]. split; [done|].
  destruct (legacy_typology_result tadp.NewProcessor "eval-001"
              (decisionInput lowPassResults [])) as (t & Ht & Hid & _); [done..|].
  by exists t.
Defined.

Definition unweightedLowThreshold : tadp.Processor :=
  {| tadp.AlertThreshold := Q2Qc (1 # 2); tadp.UseWeightedScoring := false |}.

Definition weightedLowThreshold : tadp.Processor :=
  {| tadp.AlertThreshold := Q2Qc (1 # 2); tadp.UseWeightedScoring := true |}.

Lemma typology_branch_witness :
  tadp.TypologyResults (decisionInput lowPassResults triggeredTypologies) ≠ []
  ∧ Evaluation.Status
      (tadp.Process tadp.NewProcessor "eval-001"
         (decisionInput lowPassResults triggeredTypologies))
    = Evaluation.Status
        (tadp.Process unweightedLowThreshold "eval-001"
           (decisionInput lowPassResults triggeredTypologies)).
Proof.
  split; [done|].
  by apply (typology_branch_ignores_settings tadp.NewProcessor unweightedLowThreshold
              "eval-001" (decisionInput lowPassResults triggeredTypologies)).
Defined.

Lemma lower_threshold_witness :
  tadp.AlertThreshold weightedLowThreshold ≤ tadp.AlertThreshold tadp.NewProcessor
  ∧ Evaluation.Status
      (tadp.Process tadp.NewProcessor "eval-001" (decisionInput highPassResults []))
    = StatusAlert
  ∧ Evaluation.Status
      (tadp.Process weightedLowThreshold "eval-001" (decisionInput highPassResults []))
    = StatusAlert.
Proof.
  split; [done|]. split; [by vm_compute|].
  by apply (lower_threshold_keeps_alert tadp.NewProcessor weightedLowThreshold
              "eval-001" (decisionInput highPassResults [])).
Defined.

Lemma create_then_reload_witness :
  api.repo persistentHandler ≠ None
  ∧ api.code (api.CreateRule persistentHandler (Some preReloadRule)).1 = api.StatusCreated
  ∧ api.code (api.ReloadRules
                (api.CreateRule persistentHandler (Some preReloadRule)).2).1
    = api.StatusOK
  ∧ is_Some (compiledRules
               (api.engine
                  (api.ReloadRules
                     (api.CreateRule persistentHandler (Some preReloadRule)).2).2)
               !! "pre-reload-rule").
Proof.
  split; [done|]. split; [by vm_compute|]. split; [by vm_compute|].
  apply (create_then_reload persistentHandler preReloadRule);
    [done|done|by vm_compute|by vm_compute].
Defined.

Lemma UpdateTypology_checks_witness :
  repositoryAccepts persistentHandler
  ∧ api.tcode (api.UpdateTypology persistentHandler "test-typology-001"
                 (Some thresholdFreeUpdate)) = api.StatusOK.
Proof.
  assert (repositoryAccepts persistentHandler) as Hrepo.
  { right. by eexists. }
  split; [done|].
  apply (UpdateTypology_checks persistentHandler "test-typology-001"
           thresholdFreeUpdate); [done|done|].
  intros rw ->%list_elem_of_singleton. done.
Defined.

Lemma decision_order_witness :
  tadp.TypologyResults (decisionInput lowPassResults triggeredTypologies) ≠ []
  ∧ tadp.RuleResults (decisionInput lowPassResults triggeredTypologies)
    ≡ₚ tadp.RuleResults (decisionInput (reverse lowPassResults) triggeredTypologies)
  ∧ Evaluation.Status
      (tadp.Process tadp.NewProcessor "eval-001"
         (decisionInput lowPassResults triggeredTypologies))
    = Evaluation.Status
        (tadp.Process tadp.NewProcessor "eval-001"
           (decisionInput (reverse lowPassResults) triggeredTypologies)).
Proof.
  assert (lowPassResults ≡ₚ reverse lowPassResults) as Hperm.
  { symmetry. apply reverse_Permutation. }
  split; [done|]. split; [done|].
  by apply (decision_order_independent tadp.NewProcessor "eval-001"
              (decisionInput lowPassResults triggeredTypologies)
              (decisionInput (reverse lowPassResults) triggeredTypologies)).
Defined.

End property_witnesses.
